(** * Focus dashboard: session store, time arithmetic, KPI engine

    A shallow embedding of [app.py].  Python [int] is [Z], [str] is
    [string] (a sequence of UTF-8 bytes), a [dict] used as a map is a
    [gmap], a [list] is a [list].  The two float-valued KPI fields are
    computed from integer sums by one division each; they are carried as
    exact rationals [Q]. *)

From Stdlib Require Import ZArith QArith Lia Ascii String.
From stdpp Require Import base option list strings gmap fin_maps pretty sorting.

Local Open Scope Z_scope.

(** ** Helpers *)

Module Helpers.

(** [WEEK_ORDER] and [WEEKDAY_MAP]. *)
Definition WEEK_ORDER : list string := ["월"; "화"; "수"; "목"; "금"; "토"; "일"].

Definition WEEKDAY_MAP : gmap Z string :=
  list_to_map [(0, "월"); (1, "화"); (2, "수"); (3, "목"); (4, "금"); (5, "토"); (6, "일")].

(** [clamp(v, lo, hi) = max(lo, min(hi, v))]. *)
Definition clamp (v lo hi : Z) : Z := Z.max lo (Z.min hi v).

(** *** Characters and [str] methods used by the program

    A [str] is held as its UTF-8 bytes; [chars] splits them into the
    characters of the [str], each the byte sequence that encodes it: a
    lead byte with the continuation bytes it announces.  A byte that
    starts no such sequence is taken by itself (no [str] encodes to
    it). *)

Definition code (c : ascii) : Z := Z.of_N (Ascii.N_of_ascii c).

Definition char := list ascii.

Definition is_cont (c : ascii) : bool := (128 <=? code c) && (code c <=? 191).

(** The number of continuation bytes after a lead byte. *)
Definition trail (c : ascii) : nat :=
  if (194 <=? code c) && (code c <=? 223) then 1
  else if (224 <=? code c) && (code c <=? 239) then 2
  else if (240 <=? code c) && (code c <=? 244) then 3
  else 0.

Fixpoint chars (l : list ascii) : list char :=
  match l with
  | [] => []
  | a :: r =>
      match trail a, r with
      | 1%nat, b :: r1 =>
          if is_cont b then [a; b] :: chars r1 else [a] :: chars r
      | 2%nat, b :: c :: r2 =>
          if is_cont b && is_cont c then [a; b; c] :: chars r2 else [a] :: chars r
      | 3%nat, b :: c :: d :: r3 =>
          if is_cont b && is_cont c && is_cont d then [a; b; c; d] :: chars r3
          else [a] :: chars r
      | _, _ => [a] :: chars r
      end
  end.

(** The code point of a character. *)
Definition codepoint (g : char) : option Z :=
  match g with
  | [a] => if code a <? 128 then Some (code a) else None
  | [a; b] =>
      if (trail a =? 1)%nat && is_cont b
      then Some ((code a - 192) * 64 + (code b - 128)) else None
  | [a; b; c] =>
      if (trail a =? 2)%nat && is_cont b && is_cont c
      then Some ((code a - 224) * 4096 + (code b - 128) * 64 + (code c - 128)) else None
  | [a; b; c; d] =>
      if (trail a =? 3)%nat && is_cont b && is_cont c && is_cont d
      then Some ((code a - 240) * 262144 + (code b - 128) * 4096
                 + (code c - 128) * 64 + (code d - 128))
      else None
  | _ => None
  end.

(** The code points for which [str.isspace] holds, the characters
    [str.strip] removes: U+0009..U+000D, U+001C..U+0020, U+0085, U+00A0,
    U+1680, U+2000..U+200A, U+2028, U+2029, U+202F, U+205F, U+3000. *)
Definition SPACES : list Z :=
  [9; 10; 11; 12; 13; 28; 29; 30; 31; 32; 133; 160; 5760;
   8192; 8193; 8194; 8195; 8196; 8197; 8198; 8199; 8200; 8201; 8202;
   8232; 8233; 8239; 8287; 12288].

Definition is_space (g : char) : bool :=
  match codepoint g with
  | Some cp => existsb (Z.eqb cp) SPACES
  | None => false
  end.

(** The zero of every run of ten decimal digits (general category Nd)
    of the Unicode database of CPython 3.11 (Unicode 14.0); the digits
    of a run follow its zero in order.  These are the characters that
    [\d] matches and that [int] reads. *)
Definition DECIMAL_ZEROS : list Z :=
  [48; 1632; 1776; 1984; 2406; 2534; 2662; 2790; 2918; 3046; 3174; 3302; 3430;
   3558; 3664; 3792; 3872; 4160; 4240; 6112; 6160; 6470; 6608; 6784; 6800;
   6992; 7088; 7232; 7248; 42528; 43216; 43264; 43472; 43504; 43600; 44016;
   65296; 66720; 68912; 69734; 69872; 69942; 70096; 70384; 70736; 70864; 71248;
   71360; 71472; 71904; 72016; 72784; 73040; 73120; 92768; 92864; 93008;
   120782; 120792; 120802; 120812; 120822; 123200; 123632; 125264; 130032].

(** The value of a code point as a decimal digit. *)
Definition decimal (cp : Z) : option Z :=
  (λ z, cp - z) <$> find (λ z, (z <=? cp) && (cp <=? z + 9)) DECIMAL_ZEROS.

Definition digit (g : char) : option Z := codepoint g ≫= decimal.

(** [\d]. *)
Definition is_digit (g : char) : bool := if digit g is Some _ then true else false.

Definition digit_val (g : char) : Z := default 0 (digit g).

(** A literal character of the expression. *)
Definition is_char (c : ascii) (g : char) : bool :=
  match g with
  | [x] => Ascii.eqb x c
  | _ => false
  end.

(** A class [[lo-hi]] of ASCII digits. *)
Definition in_range (lo hi : Z) (g : char) : bool :=
  match g with
  | [c] => (48 + lo <=? code c) && (code c <=? 48 + hi)
  | _ => false
  end.

Fixpoint lstrip (l : list char) : list char :=
  match l with
  | g :: r => if is_space g then lstrip r else l
  | [] => []
  end.

Definition strip_chars (l : list char) : list char := rev (lstrip (rev (lstrip l))).

(** A text with no whitespace at either end. *)
Definition trimmed (l : list ascii) : Prop :=
  (∀ g, head (chars l) = Some g → is_space g = false)
  ∧ (∀ g, last (chars l) = Some g → is_space g = false).

(** A text of whitespace only. *)
Definition blank (l : list ascii) : Prop := Forall (λ g, is_space g = true) (chars l).

(** [s.strip()]. *)
Definition strip (s : string) : string :=
  string_of_list_ascii (concat (strip_chars (chars (list_ascii_of_string s)))).

(** [s.replace(c, '')] for a single character [c]. *)
Definition remove_char (c : ascii) (s : string) : string :=
  string_of_list_ascii (filter (λ x, x ≠ c) (list_ascii_of_string s)).

(** [s.zfill(w)] on a string without sign. *)
Definition zfill (w : nat) (s : string) : string :=
  string_of_list_ascii (replicate (w - String.length s) "0"%char) +:+ s.

(** *** [parse_time_hhmm]

    [datetime.strptime(t.strip(), "%H:%M")].  The format compiles to the
    regular expression [(2[0-3]|[0-1]\d|\d):([0-5]\d|\d)], matched at the
    start of the text with the alternatives tried in order; text left
    over after the match raises [ValueError].  The digits of the classes
    in brackets are the ASCII digits, [\d] is a decimal digit of any
    script, and [int] reads the matched digits by their values.  The
    result is a [datetime] on 1900-01-01, kept here as seconds since
    that midnight. *)

Definition re_H (l : list char) : list (Z * list char) :=
  match l with
  | a :: b :: r =>
      (if is_char "2" a && in_range 0 3 b then [(20 + digit_val b, r)] else [])
      ++ (if in_range 0 1 a && is_digit b then [(10 * digit_val a + digit_val b, r)] else [])
      ++ (if is_digit a then [(digit_val a, b :: r)] else [])
  | [a] => if is_digit a then [(digit_val a, [])] else []
  | [] => []
  end.

Definition re_M (l : list char) : list (Z * list char) :=
  match l with
  | a :: b :: r =>
      (if in_range 0 5 a && is_digit b then [(10 * digit_val a + digit_val b, r)] else [])
      ++ (if is_digit a then [(digit_val a, b :: r)] else [])
  | [a] => if is_digit a then [(digit_val a, [])] else []
  | [] => []
  end.

(** All ways the expression matches a prefix, in backtracking order. *)
Definition re_HM (l : list char) : list (Z * Z * list char) :=
  '(h, r) ← re_H l;
  match r with
  | c :: r' => if is_char ":" c then '(m, rest) ← re_M r'; [(h, m, rest)] else []
  | [] => []
  end.

Definition strptime_HM (s : string) : option (Z * Z) :=
  match head (re_HM (chars (list_ascii_of_string s))) with
  | Some (h, m, []) => Some (h, m)
  | _ => None
  end.

(** Hour and minute of [t.strip()] read as a time of day. *)
Definition time_of_day (t : string) : option (Z * Z) := strptime_HM (strip t).

Definition parse_time_hhmm (t : string) : option Z :=
  '(h, m) ← time_of_day t;
  Some (3600 * h + 60 * m).

(** [timedelta(days=1)] in seconds. *)
Definition one_day : Z := 86400.

(** [minutes_between]: [None] stands for the [ValueError] of a string
    that does not parse. *)
Definition minutes_between (start end_ : string) : option Z :=
  s ← parse_time_hhmm start;
  e ← parse_time_hhmm end_;
  let e := if e <=? s then e + one_day else e in
  Some ((e - s) `div` 60).

(** *** Calendar dates

    [datetime.date] with the proleptic Gregorian ordinal of the
    [datetime] module ([_days_before_year], [_days_before_month],
    [_ymd2ord]) behind [date.weekday()]. *)

Record date := Date { year : Z; month : Z; day : Z }.

Definition is_leap (y : Z) : bool :=
  (y `mod` 4 =? 0) && (negb (y `mod` 100 =? 0) || (y `mod` 400 =? 0)).

Definition days_in_month (y m : Z) : Z :=
  if (m =? 2) && is_leap y then 29
  else nth (Z.to_nat m) [0; 31; 28; 31; 30; 31; 30; 31; 31; 30; 31; 30; 31] 0.

Definition days_before_year (y : Z) : Z :=
  (y - 1) * 365 + (y - 1) `div` 4 - (y - 1) `div` 100 + (y - 1) `div` 400.

Definition days_before_month (y m : Z) : Z :=
  nth (Z.to_nat m) [0; 0; 31; 59; 90; 120; 151; 181; 212; 243; 273; 304; 334] 0
  + (if (2 <? m) && is_leap y then 1 else 0).

Definition toordinal (d : date) : Z :=
  days_before_year (year d) + days_before_month (year d) (month d) + day d.

(** [d.weekday()]: Monday is 0. *)
Definition weekday (d : date) : Z := (toordinal d + 6) `mod` 7.

(** The dates [datetime.date] can hold. *)
Definition valid_date (d : date) : Prop :=
  1 ≤ year d ≤ 9999 ∧ 1 ≤ month d ≤ 12 ∧ 1 ≤ day d ≤ days_in_month (year d) (month d).

(** Comparison of dates is comparison of [(year, month, day)]. *)
Definition date_cmp (a b : date) : comparison :=
  match year a ?= year b with
  | Eq => match month a ?= month b with
          | Eq => day a ?= day b
          | c => c
          end
  | c => c
  end.

(** The first comparison that is not [Eq]. *)
Definition lexc (c1 c2 : comparison) : comparison :=
  match c1 with Eq => c2 | _ => c1 end.

Definition date_lt (a b : date) : bool := if date_cmp a b is Lt then true else false.
Definition date_le (a b : date) : bool := if date_cmp a b is Gt then false else true.

(** [weekday_kr]: the lookup never misses, [weekday] being in 0..6. *)
Definition weekday_kr (d : date) : string := default "" (WEEKDAY_MAP !! weekday d).

(** Decimal digits of a field of fixed width. *)
Definition digit_char (k : Z) : ascii := Ascii.ascii_of_N (Z.to_N (48 + k `mod` 10)).

Definition dec2 (n : Z) : list ascii := [digit_char (n `div` 10); digit_char n].

Definition dec4 (n : Z) : list ascii :=
  [digit_char (n `div` 1000); digit_char (n `div` 100); digit_char (n `div` 10); digit_char n].

(** The texts a number is read from: one decimal digit, or two. *)
Definition spelled (n : Z) (l : list char) : Prop :=
  (∃ a, l = [a] ∧ is_digit a = true ∧ n = digit_val a)
  ∨ (∃ a b, l = [a; b] ∧ is_digit a = true ∧ is_digit b = true
            ∧ n = 10 * digit_val a + digit_val b).

(** The text [HH:MM] of an hour and a minute, two digits each. *)
Definition hhmm (h m : Z) : string :=
  string_of_list_ascii (dec2 h ++ ":"%char :: dec2 m).

(** [d.strftime("%Y-%m-%d")], the year on four digits. *)
Definition strftime_ymd (d : date) : string :=
  string_of_list_ascii (dec4 (year d) ++ "-"%char :: dec2 (month d) ++ "-"%char :: dec2 (day d)).

End Helpers.

Export Helpers.

(** ** Session store *)

Module SessionStore.

(** The store is the nested [dict] that [add_session] builds; its keys
    are fixed, so each [dict] with fixed keys is a record and
    [d.get(key, default)] on such a key is the field.  [Z] fields hold
    any Python [int] and [string] fields any [str]: an uploaded snapshot
    is installed without a check of its records. *)

(** A session dict, as [add_session] writes it. *)
Record Session := {
  s_id : string;
  s_subject : string;
  s_start : string;
  s_end : string;
  s_duration_min : Z;
  s_focused_min : Z;
  s_pause_count : Z;
  s_created_at : string
}.

(** A date bucket: [{"weekday": ..., "sessions": [...]}]. *)
Record Day := { weekday_of : string; sessions : list Session }.

(** [st.session_state.store]: [{"days": {...}}]. *)
Record Store := { days : gmap string Day }.

Definition set_sessions (l : list Session) (day : Day) : Day :=
  {| weekday_of := weekday_of day; sessions := l |}.

(** [init_store] on a fresh browser session. *)
Definition init_store : Store := {| days := ∅ |}.

(** A flat row of [store_to_flat_rows]. *)
Record Row := {
  r_id : string;
  r_date : string;
  r_weekday : string;
  r_subject : string;
  r_start : string;
  r_end : string;
  r_duration_min : Z;
  r_focused_min : Z;
  r_pause_count : Z;
  r_created_at : string
}.

Definition flat_row (date_str wd : string) (s : Session) : Row :=
  {| r_id := s_id s; r_date := date_str; r_weekday := wd;
     r_subject := s_subject s; r_start := s_start s; r_end := s_end s;
     r_duration_min := s_duration_min s; r_focused_min := s_focused_min s;
     r_pause_count := s_pause_count s; r_created_at := s_created_at s |}.

(** Order of [str]: by code point, which on UTF-8 bytes is the order of
    the byte sequences. *)
Definition str_le (a b : string) : Prop := String.leb a b = true.

#[local] Instance str_le_dec : RelDecision str_le.
Proof. intros a b. unfold str_le. apply _. Defined.

(** [sorted(days.keys())]. *)
Definition sorted_keys (m : gmap string Day) : list string :=
  merge_sort str_le (elements (dom m)).

Definition rows_of_day (m : gmap string Day) (date_str : string) : list Row :=
  match m !! date_str with
  | Some day => flat_row date_str (weekday_of day) <$> sessions day
  | None => []
  end.

(** The rows of one [(key, bucket)] item of [days]. *)
Definition rows_of_entry (kd : string * Day) : list Row :=
  flat_row kd.1 (weekday_of kd.2) <$> sessions kd.2.

Definition store_to_flat_rows (store : Store) : list Row :=
  date_str ← sorted_keys (days store); rows_of_day (days store) date_str.

(** A call either returns or raises; the store as the call left it comes
    with both. *)
Inductive outcome :=
  | Returned (store : Store)
  | Raised (store : Store).

(** The identifier: [h] is the value of
    [hash((ds, start, subject, now_str()))]. *)
Definition session_id (ds start : string) (h : Z) : string :=
  remove_char "-" ds +:+ "-" +:+ remove_char ":" start +:+ "-"
  +:+ zfill 4 (pretty (Z.abs h `mod` 10000)).

Definition new_session (ds subject start end_ : string) (dur pause focused h : Z)
    (now : string) : Session :=
  let focused := clamp focused 0 dur in
  let pause := Z.max 0 pause in
  {| s_id := session_id ds start h;
     s_subject := (if decide (strip subject = "") then "공부" else strip subject);
     s_start := strip start;
     s_end := strip end_;
     s_duration_min := dur;
     s_focused_min := focused;
     s_pause_count := pause;
     s_created_at := now |}.

(** [add_session].  The hash [h] and the clock reading [now] of the
    second [now_str()] are inputs.  The bucket is created before the
    times are parsed, so a call that raises leaves it behind. *)
Definition add_session (d : date) (subject start end_ : string) (pause focused : Z)
    (h : Z) (now : string) (store : Store) : outcome :=
  let ds := strftime_ymd d in
  let days1 :=
    if decide (is_Some (days store !! ds)) then days store
    else <[ds := {| weekday_of := weekday_kr d; sessions := [] |}]> (days store) in
  match minutes_between start end_ with
  | None => Raised {| days := days1 |}
  | Some dur =>
      let sess := new_session ds subject start end_ dur pause focused h now in
      Returned {| days := alter (λ day, set_sessions (sessions day ++ [sess]) day) ds days1 |}
  end.

(** [delete_session]: the first loop rewrites every bucket and notes the
    ones it emptied, the second pops them. *)
Definition sweep (session_id : string) (day : Day) : Day :=
  set_sessions (filter (λ s, s_id s ≠ session_id) (sessions day)) day.

Definition emptied (session_id : string) (day : Day) : bool :=
  let before := length (sessions day) in
  let after := length (sessions (sweep session_id day)) in
  negb (before =? after)%nat && (after =? 0)%nat.

Definition delete_session (session_id : string) (store : Store) : Store :=
  let swept := sweep session_id <$> days store in
  let empty := (map_to_list (filter (λ kd, emptied session_id kd.2 = true) (days store))).*1 in
  {| days := foldr delete swept empty |}.

(** A session and a store for worked examples. *)
Definition sample_session (id : string) (duration focused pause : Z) : Session :=
  {| s_id := id; s_subject := "공부"; s_start := "10:00"; s_end := "11:00";
     s_duration_min := duration; s_focused_min := focused; s_pause_count := pause;
     s_created_at := "2024-03-04 11:00" |}.

Definition sample_store : Store :=
  {| days := {[ "2024-03-04" := {| weekday_of := "월";
                                   sessions := [sample_session "a" 60 30 2] |};
                "2024-03-05" := {| weekday_of := "화";
                                   sessions := [sample_session "b" 30 30 1;
                                                sample_session "c" 45 10 0] |} ]} |}.

(** What every session written by [add_session] satisfies. *)
Definition session_ok (s : Session) : Prop :=
  1 ≤ s_duration_min s ≤ 1440
  ∧ 0 ≤ s_focused_min s ≤ s_duration_min s
  ∧ 0 ≤ s_pause_count s.

Definition day_ok (day : Day) : Prop :=
  weekday_of day ∈ WEEK_ORDER ∧ sessions day ≠ [] ∧ Forall session_ok (sessions day).

Definition store_ok (store : Store) : Prop :=
  map_Forall (λ _ day, day_ok day) (days store).

(** Stores the page can hold after [init_store] and any number of saved
    sessions and deletions.  The save handler calls [add_session] only
    for inputs whose times parsed. *)
Inductive reachable : Store → Prop :=
  | reach_init : reachable init_store
  | reach_add store d subject start end_ pause focused h now store' :
      reachable store →
      add_session d subject start end_ pause focused h now store = Returned store' →
      reachable store'
  | reach_delete store session_id :
      reachable store → reachable (delete_session session_id store).

(** *** The save button

    One entry of [inputs]: the fields of a session form, with the hash
    and the clock reading its [add_session] call would see.  [dur_val]
    is what the form computed when it was drawn: [minutes_between], or
    [None] when that raised. *)
Record SessionInput := {
  in_subject : string;
  in_start : string;
  in_end : string;
  in_pause : Z;
  in_focused : Z;
  in_hash : Z;
  in_now : string
}.

Definition dur_val (i : SessionInput) : option Z :=
  minutes_between (in_start i) (in_end i).

(** What the handler holds after the loop: the store, [saved], and the
    session numbers (from 1) of the messages in [errors]. *)
Record Saved := { sv_store : Store; sv_saved : Z; sv_errors : list Z }.

(** The loop over [enumerate(inputs, start=1)], from number [i] on.  An
    exception of [add_session] would leave the loop ([inr], with the
    store as it is then). *)
Fixpoint save_loop (d : date) (i : Z) (inputs : list SessionInput) (acc : Saved)
    : Saved + Store :=
  match inputs with
  | [] => inl acc
  | x :: rest =>
      match dur_val x with
      | None =>
          save_loop d (i + 1) rest
            {| sv_store := sv_store acc; sv_saved := sv_saved acc;
               sv_errors := sv_errors acc ++ [i] |}
      | Some _ =>
          match add_session d (in_subject x) (in_start x) (in_end x) (in_pause x)
                  (in_focused x) (in_hash x) (in_now x) (sv_store acc) with
          | Returned store' =>
              save_loop d (i + 1) rest
                {| sv_store := store'; sv_saved := sv_saved acc + 1;
                   sv_errors := sv_errors acc |}
          | Raised store' => inr store'
          end
      end
  end.

Definition save_sessions (d : date) (inputs : list SessionInput) (store : Store)
    : Saved + Store :=
  save_loop d 1 inputs {| sv_store := store; sv_saved := 0; sv_errors := [] |}.

End SessionStore.

Export SessionStore.

(** ** KPI engine, weekday aggregation, date-range filter *)

Module Dashboard.

(** [Series.sum()] of an integer column. *)
Definition col_sum (l : list Z) : Z := foldr Z.add 0 l.

(** The summary [compute_kpis] returns. *)
Record KPI := {
  total : Z;
  focused : Z;
  pause : Z;
  ratio : Q;
  avg_focus : Q;
  pause_rate : Q;
  session_count : Z
}.

(** The row function of both [df.apply(..., axis=1)] calls. *)
Definition focused_clamped (r : Row) : Z :=
  clamp (r_focused_min r) 0 (r_duration_min r).

(** [compute_kpis]; [None] is Python's [None]. *)
Definition compute_kpis (df : list Row) : option KPI :=
  match df with
  | [] => None
  | _ =>
      let total := col_sum (r_duration_min <$> df) in
      let focused := col_sum (focused_clamped <$> df) in
      let pause := col_sum (r_pause_count <$> df) in
      let ratio := (if 0 <? total then inject_Z focused / inject_Z total else 0)%Q in
      let avg_focus := (ratio * 5)%Q in
      let pause_rate :=
        (if 0 <? total then inject_Z pause / (inject_Z total / 60) else 0)%Q in
      Some {| total := total; focused := focused; pause := pause;
              ratio := ratio; avg_focus := avg_focus; pause_rate := pause_rate;
              session_count := Z.of_nat (length df) |}
  end.

(** A row for worked examples: only the weekday and the three numbers
    matter to the engine. *)
Definition sample_row (wd : string) (duration focused pause : Z) : Row :=
  {| r_id := "x"; r_date := "2024-03-04"; r_weekday := wd; r_subject := "공부";
     r_start := "10:00"; r_end := "11:00"; r_duration_min := duration;
     r_focused_min := focused; r_pause_count := pause;
     r_created_at := "2024-03-04 11:00" |}.

(** [fdf.groupby(key)[col].sum()]: one sum per key that occurs. *)
Definition groupby_sum (key : Row → string) (col : Row → Z) (df : list Row) : gmap string Z :=
  foldl (λ acc r, <[key r := default 0 (acc !! key r) + col r]> acc) ∅ df.

(** [series.reindex(index, fill_value=fill)]: the labels of [index] in
    that order; labels of the series outside [index] are dropped. *)
Definition reindex (index : list string) (fill : Z) (series : gmap string Z)
    : list (string * Z) :=
  (λ label, (label, default fill (series !! label))) <$> index.

(** The sums per weekday:
    [fdf.groupby("weekday")["focused_clamped"].sum().reindex(WEEK_ORDER, fill_value=0)]. *)
Definition weekday_sums (fdf : list Row) : list (string * Z) :=
  reindex WEEK_ORDER 0 (groupby_sum r_weekday focused_clamped fdf).

(** The table [by_w] behind the weekday chart.  The page builds it in
    the [else] branch of [if fdf.empty]: for an empty selection it shows
    a message and there is no table ([None]). *)
Definition by_w (fdf : list Row) : option (list (string * Z)) :=
  match fdf with
  | [] => None
  | _ => Some (weekday_sums fdf)
  end.

(** The frame after [df["date_obj"] = pd.to_datetime(df["date"])]: each
    row with the calendar date of its [date_obj]. *)
Definition frame := list (Row * date).

Definition mask (start_date end_date : date) (r : Row * date) : bool :=
  date_le start_date r.2 && date_le r.2 end_date.

(** The page stops ([None]) when the end date is before the start date;
    otherwise [fdf = df.loc[mask]]. *)
Definition select_range (df : frame) (start_date end_date : date) : option frame :=
  if date_lt end_date start_date then None
  else Some (filter (λ r, mask start_date end_date r = true) df).

(** [df["date_obj"].min().date()] and [.max().date()], the bounds the
    two date inputs start from; the page has stopped before them when
    the frame is empty ([None]). *)
Definition date_min (a b : date) : date := if date_le a b then a else b.
Definition date_max (a b : date) : date := if date_le a b then b else a.

Definition min_d (df : frame) : option date :=
  match df with
  | [] => None
  | r :: rest => Some (foldl (λ acc r, date_min acc r.2) r.2 rest)
  end.

Definition max_d (df : frame) : option date :=
  match df with
  | [] => None
  | r :: rest => Some (foldl (λ acc r, date_max acc r.2) r.2 rest)
  end.

End Dashboard.

Export Dashboard.

(** ** Export and import of the store *)

Module Snapshot.

(** A JSON document, as [json.loads] builds it and [json.dumps] reads
    it: Python's [None], [bool], [int], [float], [str], [list] and [dict]
    with string keys in insertion order.  A [float] is kept as the
    literal it was read from; the store of this model holds none. *)
#[warnings="-register-all"]
Inductive json :=
  | JNull
  | JBool (b : bool)
  | JInt (z : Z)
  | JFloat (lit : string)
  | JStr (s : string)
  | JList (l : list json)
  | JDict (kvs : list (string * json)).

(** The store as the Python object it is, which [json.dumps] walks: the
    [dict] of [init_store] with the buckets and the session [dict]s that
    [add_session] writes, their keys in the order of the source. *)
Definition session_doc (s : Session) : json :=
  JDict [("id", JStr (s_id s)); ("subject", JStr (s_subject s));
         ("start", JStr (s_start s)); ("end", JStr (s_end s));
         ("duration_min", JInt (s_duration_min s));
         ("focused_min", JInt (s_focused_min s));
         ("pause_count", JInt (s_pause_count s));
         ("created_at", JStr (s_created_at s))].

Definition day_doc (day : Day) : json :=
  JDict [("weekday", JStr (weekday_of day));
         ("sessions", JList (session_doc <$> sessions day))].

(** The buckets come in the order of [map_to_list]; the order in which
    the dates were inserted, which the comparison of two [dict]s
    ignores, is not kept in this model. *)
Definition days_doc (m : gmap string Day) : json :=
  JDict (map_to_list (day_doc <$> m)).

Definition store_doc (store : Store) : json := JDict [("days", days_doc (days store))].

(** A parsed object as a [dict]: a repeated key keeps its last value. *)
Definition as_dict (kvs : list (string * json)) : gmap string json :=
  list_to_map (reverse kvs).

Definition as_str (j : json) : option string := if j is JStr s then Some s else None.
Definition as_int (j : json) : option Z := if j is JInt z then Some z else None.

(** Reading a document back as a typed store.  [None]: the document is
    not of the shape [add_session] writes (a key missing or extra, a
    value of another type); the program installs it all the same, and
    such a store is outside this model. *)
Definition session_keys : gset string :=
  list_to_set ["id"; "subject"; "start"; "end"; "duration_min"; "focused_min";
               "pause_count"; "created_at"].

Definition session_of_doc (j : json) : option Session :=
  match j with
  | JDict kvs =>
      let d := as_dict kvs in
      guard (dom d = session_keys);;
      i ← d !! "id" ≫= as_str;
      su ← d !! "subject" ≫= as_str;
      st ← d !! "start" ≫= as_str;
      en ← d !! "end" ≫= as_str;
      du ← d !! "duration_min" ≫= as_int;
      fo ← d !! "focused_min" ≫= as_int;
      pa ← d !! "pause_count" ≫= as_int;
      cr ← d !! "created_at" ≫= as_str;
      Some {| s_id := i; s_subject := su; s_start := st; s_end := en;
              s_duration_min := du; s_focused_min := fo; s_pause_count := pa;
              s_created_at := cr |}
  | _ => None
  end.

Definition day_of_doc (j : json) : option Day :=
  match j with
  | JDict kvs =>
      let d := as_dict kvs in
      guard (dom d = {["weekday"; "sessions"]});;
      wd ← d !! "weekday" ≫= as_str;
      ss ← d !! "sessions" ≫= (λ j, if j is JList l then mapM session_of_doc l else None);
      Some {| weekday_of := wd; sessions := ss |}
  | _ => None
  end.

Definition days_of_doc (j : json) : option (gmap string Day) :=
  match j with
  | JDict kvs =>
      let read := day_of_doc <$> as_dict kvs in
      guard (map_Forall (λ _ o, is_Some o) read);;
      Some (omap id read)
  | _ => None
  end.

(** The two handlers, over a text layer: [dumps] stands for
    [json.dumps(..., ensure_ascii=False, indent=2).encode("utf-8")] and
    [loads] for [json.loads(up.read().decode("utf-8"))], [None] being
    its exception.  The text layer of the [json] module follows them. *)
Section Handlers.
Context {text : Type} (dumps : json → text) (loads : text → option json).

(** The bytes behind the download button. *)
Definition export_store (store : Store) : text := dumps (store_doc store).

(** The upload handler: the store it leaves.  A file that does not
    parse, or has no [days] key, leaves the store as it was. *)
Definition import_store (up : text) (store : Store) : option Store :=
  match loads up with
  | Some (JDict kvs) =>
      match as_dict kvs !! "days" with
      | Some d => m ← days_of_doc d; Some {| days := m |}
      | None => Some store
      end
  | _ => Some store
  end.

End Handlers.

(** The document the upload handler installs, before it is read as a
    typed store: [{"days": obj["days"]}] when the file holds an object
    with a [days] key, the document in place otherwise. *)
Definition import_doc (loaded : option json) (current : json) : json :=
  match loaded with
  | Some (JDict kvs) =>
      match as_dict kvs !! "days" with
      | Some d => JDict [("days", d)]
      | None => current
      end
  | _ => current
  end.

(** *** The text layer: [json.dumps] and [json.loads]

    A text is a [str], held as its UTF-8 bytes, so that [encode("utf-8")]
    and [decode("utf-8")] change nothing; bytes that are not UTF-8 stand
    for no text (an upload of such bytes raises in [decode]). *)

Definition byte (z : Z) : ascii := Ascii.ascii_of_N (Z.to_N z).

Definition quote : ascii := "034"%char.
Definition backslash : ascii := "092"%char.
Definition newline : ascii := "010"%char.

(** [int.__repr__]: the decimal digits, after a minus sign for a
    negative number.  (The interpreter's limit on the length of such a
    conversion, 4300 digits unless set otherwise, is not modelled; the
    form enters numbers below 5001.) *)
Fixpoint digits_of (fuel : nat) (z : Z) : list ascii :=
  match fuel with
  | O => []
  | S fuel => if z <? 10 then [digit_char z] else digits_of fuel (z `div` 10) ++ [digit_char z]
  end.

Definition int_repr (z : Z) : list ascii :=
  if z <? 0 then "-"%char :: digits_of (S (Z.to_nat (Z.log2 (- z) + 1))) (- z)
  else digits_of (S (Z.to_nat (Z.log2 z + 1))) z.

Definition hex_char (k : Z) : ascii :=
  if k <? 10 then byte (48 + k) else byte (87 + k).

(** [ESCAPE_DCT] of [json.encoder], used for [ensure_ascii=False]: the
    quote, the backslash and the control characters below U+0020 are
    escaped, every other character is written as it is. *)
Definition escape (c : ascii) : list ascii :=
  if Ascii.eqb c quote then [backslash; quote]
  else if Ascii.eqb c backslash then [backslash; backslash]
  else if code c =? 8 then [backslash; "b"%char]
  else if code c =? 12 then [backslash; "f"%char]
  else if code c =? 10 then [backslash; "n"%char]
  else if code c =? 13 then [backslash; "r"%char]
  else if code c =? 9 then [backslash; "t"%char]
  else if code c <? 32
       then [backslash; "u"%char; "0"%char; "0"%char;
             hex_char (code c `div` 16); hex_char (code c `mod` 16)]
  else [c].

Definition encode_basestring (s : string) : list ascii :=
  quote :: flat_map escape (list_ascii_of_string s) ++ [quote].

(** With [indent=2] every item of a non-empty [list] or [dict] starts
    on a line of its own, two spaces deeper than its container. *)
Definition newline_indent (level : nat) : list ascii :=
  newline :: replicate (2 * level) " "%char.

Fixpoint join (sep : list ascii) (items : list (list ascii)) : list ascii :=
  match items with
  | [] => []
  | x :: rest =>
      match rest with
      | [] => x
      | _ => x ++ sep ++ join sep rest
      end
  end.

(** [_iterencode] at a nesting level: the item separator is [","] and
    the key separator [": "].  A [float] is written as the literal it
    was read from. *)
Fixpoint encode (level : nat) (j : json) {struct j} : list ascii :=
  match j with
  | JNull => list_ascii_of_string "null"
  | JBool true => list_ascii_of_string "true"
  | JBool false => list_ascii_of_string "false"
  | JInt z => int_repr z
  | JFloat lit => list_ascii_of_string lit
  | JStr s => encode_basestring s
  | JList l =>
      match l with
      | [] => list_ascii_of_string "[]"
      | _ =>
          "["%char :: newline_indent (S level)
          ++ join (","%char :: newline_indent (S level)) (map (encode (S level)) l)
          ++ newline_indent level ++ ["]"%char]
      end
  | JDict kvs =>
      match kvs with
      | [] => list_ascii_of_string "{}"
      | _ =>
          "{"%char :: newline_indent (S level)
          ++ join (","%char :: newline_indent (S level))
               (map (λ kv, let '(k, v) := kv in
                           encode_basestring k ++ ":"%char :: " "%char :: encode (S level) v)
                    kvs)
          ++ newline_indent level ++ ["}"%char]
      end
  end.

(** One member of an object: the key, a colon and a space, the value. *)
Definition encode_item (level : nat) (kv : string * json) : list ascii :=
  let '(k, v) := kv in encode_basestring k ++ ":"%char :: " "%char :: encode level v.

(** [json.dumps(obj, ensure_ascii=False, indent=2)]. *)
Definition dumps (j : json) : string := string_of_list_ascii (encode 0 j).

(** The scanner of [json.decoder].  Whitespace is the space, the tab,
    the line feed and the carriage return. *)
Definition is_ws (c : ascii) : bool :=
  Ascii.eqb c " " || Ascii.eqb c "009" || Ascii.eqb c "010" || Ascii.eqb c "013".

Fixpoint skip_ws (l : list ascii) : list ascii :=
  match l with
  | c :: r => if is_ws c then skip_ws r else l
  | [] => []
  end.

Definition is_dec (c : ascii) : bool := (48 <=? code c) && (code c <=? 57).

(** The longest run of ASCII digits, and what follows it. *)
Fixpoint span_digits (l : list ascii) : list ascii * list ascii :=
  match l with
  | c :: r =>
      if is_dec c then let '(ds, rest) := span_digits r in (c :: ds, rest) else ([], l)
  | [] => ([], [])
  end.

Definition int_of_digits (ds : list ascii) : Z :=
  foldl (λ acc c, 10 * acc + (code c - 48)) 0 ds.

(** A fraction: a point and at least one digit, or nothing. *)
Definition match_frac (l : list ascii) : list ascii * list ascii :=
  match l with
  | p :: r =>
      if Ascii.eqb p "." then
        match span_digits r with
        | (d :: ds, rest) => (p :: d :: ds, rest)
        | _ => ([], l)
        end
      else ([], l)
  | [] => ([], l)
  end.

(** An exponent: [e] or [E], a sign if there is one, and at least one
    digit, or nothing. *)
Definition match_exp (l : list ascii) : list ascii * list ascii :=
  match l with
  | e :: r =>
      if Ascii.eqb e "e" || Ascii.eqb e "E" then
        let '(sg, r1) :=
          match r with
          | s :: r1 => if Ascii.eqb s "+" || Ascii.eqb s "-" then ([s], r1) else ([], r)
          | [] => ([], r)
          end in
        match span_digits r1 with
        | (d :: ds, rest) => (e :: sg ++ d :: ds, rest)
        | _ => ([], l)
        end
      else ([], l)
  | [] => ([], l)
  end.

(** The digits of a number, after its sign: [0] or a run of digits that
    does not start with [0]; an [int] when neither a fraction nor an
    exponent follows, a [float] otherwise. *)
Definition match_digits (neg : bool) (l : list ascii) : option (json * list ascii) :=
  match l with
  | c :: r =>
      if is_dec c then
        let '(int_part, l2) :=
          if Ascii.eqb c "0" then ([c], r)
          else let '(ds, rest) := span_digits r in (c :: ds, rest) in
        let '(frac, l3) := match_frac l2 in
        let '(exp, l4) := match_exp l3 in
        match frac, exp with
        | [], [] =>
            Some (JInt (if neg then - int_of_digits int_part else int_of_digits int_part), l4)
        | _, _ =>
            Some (JFloat (string_of_list_ascii
                            ((if neg then ["-"%char] else []) ++ int_part ++ frac ++ exp)), l4)
        end
      else None
  | [] => None
  end.

Definition match_number (l : list ascii) : option (json * list ascii) :=
  match l with
  | s :: r => if Ascii.eqb s "-" then match_digits true r else match_digits false l
  | [] => None
  end.

Fixpoint drop_prefix (p l : list ascii) : option (list ascii) :=
  match p, l with
  | [], _ => Some l
  | a :: p', b :: l' => if Ascii.eqb a b then drop_prefix p' l' else None
  | _ :: _, [] => None
  end.

(** The named constants, tried before a number is. *)
Definition constants : list (string * json) :=
  [("null", JNull); ("true", JBool true); ("false", JBool false);
   ("NaN", JFloat "NaN"); ("Infinity", JFloat "Infinity"); ("-Infinity", JFloat "-Infinity")].

Fixpoint match_constant (cs : list (string * json)) (l : list ascii)
    : option (json * list ascii) :=
  match cs with
  | [] => None
  | (name, v) :: cs' =>
      match drop_prefix (list_ascii_of_string name) l with
      | Some rest => Some (v, rest)
      | None => match_constant cs' l
      end
  end.

Definition hex_val (c : ascii) : option Z :=
  if (48 <=? code c) && (code c <=? 57) then Some (code c - 48)
  else if (97 <=? code c) && (code c <=? 102) then Some (code c - 87)
  else if (65 <=? code c) && (code c <=? 70) then Some (code c - 55)
  else None.

Definition hex4 (a b c d : ascii) : option Z :=
  match hex_val a, hex_val b, hex_val c, hex_val d with
  | Some x, Some y, Some z, Some w => Some (((x * 16 + y) * 16 + z) * 16 + w)
  | _, _, _, _ => None
  end.

(** The bytes of a code point. *)
Definition utf8 (cp : Z) : list ascii :=
  if cp <? 128 then [byte cp]
  else if cp <? 2048 then [byte (192 + cp `div` 64); byte (128 + cp `mod` 64)]
  else if cp <? 65536
       then [byte (224 + cp `div` 4096); byte (128 + (cp `div` 64) `mod` 64);
             byte (128 + cp `mod` 64)]
  else [byte (240 + cp `div` 262144); byte (128 + (cp `div` 4096) `mod` 64);
        byte (128 + (cp `div` 64) `mod` 64); byte (128 + cp `mod` 64)].

Definition is_high (u : Z) : bool := (55296 <=? u) && (u <=? 56319).
Definition is_low (u : Z) : bool := (56320 <=? u) && (u <=? 57343).

(** [BACKSLASH] of [json.decoder]. *)
Definition unescape (e : ascii) : option ascii :=
  if Ascii.eqb e quote then Some quote
  else if Ascii.eqb e backslash then Some backslash
  else if Ascii.eqb e "/" then Some "/"%char
  else if Ascii.eqb e "b" then Some "008"%char
  else if Ascii.eqb e "f" then Some "012"%char
  else if Ascii.eqb e "n" then Some "010"%char
  else if Ascii.eqb e "r" then Some "013"%char
  else if Ascii.eqb e "t" then Some "009"%char
  else None.

Definition cons_result (s : list ascii) (res : option (list ascii * list ascii))
    : option (list ascii * list ascii) :=
  match res with
  | Some (s', rest) => Some (s ++ s', rest)
  | None => None
  end.

(** [scanstring], from after the opening quote: the content of the
    string and the text after its closing quote.  A control character
    below U+0020 is refused; an escape [\uXXXX] of a high surrogate
    followed by one of a low surrogate gives one character. *)
Fixpoint scanstring (l : list ascii) : option (list ascii * list ascii) :=
  match l with
  | [] => None
  | c :: r =>
      if Ascii.eqb c quote then Some ([], r)
      else if Ascii.eqb c backslash then
        match r with
        | [] => None
        | e :: r1 =>
            if Ascii.eqb e "u" then
              match r1 with
              | h1 :: h2 :: h3 :: h4 :: r2 =>
                  match hex4 h1 h2 h3 h4 with
                  | None => None
                  | Some u =>
                      let single := cons_result (utf8 u) (scanstring r2) in
                      if is_high u then
                        match r2 with
                        | b :: v :: g1 :: g2 :: g3 :: g4 :: r3 =>
                            if Ascii.eqb b backslash && Ascii.eqb v "u" then
                              match hex4 g1 g2 g3 g4 with
                              | None => None
                              | Some u2 =>
                                  if is_low u2
                                  then cons_result
                                         (utf8 (65536 + (u - 55296) * 1024 + (u2 - 56320)))
                                         (scanstring r3)
                                  else single
                              end
                            else single
                        | _ => single
                        end
                      else single
                  end
              | _ => None
              end
            else
              match unescape e with
              | Some x => cons_result [x] (scanstring r1)
              | None => None
              end
        end
      else if code c <? 32 then None
      else cons_result [c] (scanstring r)
  end.

(** [scan_once]: the value at the start of the text, and the text after
    it; [elems] and [members] are the loops of [_parse_array] and
    [_parse_object] over the items of a container that is not empty.
    The functions recurse on [n], which [loads] takes above twice the
    length of the text; from there on the result does not depend on it.
    (The recursion limit of the interpreter is not modelled.) *)
Fixpoint scan_once (n : nat) (l : list ascii) {struct n} : option (json * list ascii) :=
  match n with
  | O => None
  | S n =>
      match l with
      | [] => None
      | c :: r =>
          if Ascii.eqb c quote then
            match scanstring r with
            | Some (s, rest) => Some (JStr (string_of_list_ascii s), rest)
            | None => None
            end
          else if Ascii.eqb c "{" then
            match skip_ws r with
            | c' :: r' =>
                if Ascii.eqb c' "}" then Some (JDict [], r')
                else match members n (c' :: r') with
                     | Some (kvs, rest) => Some (JDict kvs, rest)
                     | None => None
                     end
            | [] => None
            end
          else if Ascii.eqb c "[" then
            match skip_ws r with
            | c' :: r' =>
                if Ascii.eqb c' "]" then Some (JList [], r')
                else match elems n (c' :: r') with
                     | Some (vs, rest) => Some (JList vs, rest)
                     | None => None
                     end
            | [] => None
            end
          else
            match match_constant constants l with
            | Some res => Some res
            | None => match_number l
            end
      end
  end
with elems (n : nat) (l : list ascii) {struct n} : option (list json * list ascii) :=
  match n with
  | O => None
  | S n =>
      match scan_once n l with
      | Some (v, l1) =>
          match skip_ws l1 with
          | c :: r =>
              if Ascii.eqb c "]" then Some ([v], r)
              else if Ascii.eqb c "," then
                match elems n (skip_ws r) with
                | Some (vs, rest) => Some (v :: vs, rest)
                | None => None
                end
              else None
          | [] => None
          end
      | None => None
      end
  end
with members (n : nat) (l : list ascii) {struct n}
    : option (list (string * json) * list ascii) :=
  match n with
  | O => None
  | S n =>
      match l with
      | q :: r =>
          if Ascii.eqb q quote then
            match scanstring r with
            | Some (k, l1) =>
                match skip_ws l1 with
                | c :: l2 =>
                    if Ascii.eqb c ":" then
                      match scan_once n (skip_ws l2) with
                      | Some (v, l3) =>
                          match skip_ws l3 with
                          | c' :: l4 =>
                              if Ascii.eqb c' "}" then Some ([(string_of_list_ascii k, v)], l4)
                              else if Ascii.eqb c' "," then
                                match members n (skip_ws l4) with
                                | Some (kvs, rest) =>
                                    Some ((string_of_list_ascii k, v) :: kvs, rest)
                                | None => None
                                end
                              else None
                          | [] => None
                          end
                      | None => None
                      end
                    else None
                | [] => None
                end
            | None => None
            end
          else None
      | [] => None
      end
  end.

(** [json.loads(text)]: one value between whitespace, and nothing
    after it; [None] is [JSONDecodeError]. *)
Definition loads (s : string) : option json :=
  let l := list_ascii_of_string s in
  match scan_once (S (2 * length l)) (skip_ws l) with
  | Some (v, rest) =>
      match skip_ws rest with
      | [] => Some v
      | _ => None
      end
  | None => None
  end.

(** A document without a [float]. *)
Fixpoint plain (j : json) : bool :=
  match j with
  | JFloat _ => false
  | JList l => forallb plain l
  | JDict kvs => forallb (λ kv, plain kv.2) kvs
  | _ => true
  end.

(** What may follow a number that is read to its end. *)
Definition ends_number (rest : list ascii) : Prop :=
  ∀ c, head rest = Some c →
    is_dec c = false ∧ Ascii.eqb c "." = false
    ∧ Ascii.eqb c "e" = false ∧ Ascii.eqb c "E" = false.

(** A value is read back from the text [encode] writes for it, at any
    nesting level and before any text that ends a number. *)
Definition reads_back (v : json) : Prop :=
  plain v = true →
  ∀ level n rest,
    (2 * length (encode level v) < n)%nat → ends_number rest →
    scan_once n (encode level v ++ rest) = Some (v, rest).

End Snapshot.

Export Snapshot.

(** * Properties *)

(** ** Clamping and characters *)

Lemma clamp_lower (v hi : Z) : 0 ≤ clamp v 0 hi.
Proof. unfold clamp. lia. Qed.

Lemma clamp_upper (v lo hi : Z) : lo ≤ hi → clamp v lo hi ≤ hi.
Proof. unfold clamp. lia. Qed.

Lemma clamp_upper_max (v hi : Z) : clamp v 0 hi ≤ Z.max 0 hi.
Proof. unfold clamp. lia. Qed.

Lemma clamp_id (v lo hi : Z) : lo ≤ v ≤ hi → clamp v lo hi = v.
Proof. unfold clamp. lia. Qed.

Lemma is_digit_val (g : char) : is_digit g = true → 0 ≤ digit_val g ≤ 9.
Proof.
  unfold is_digit, digit_val, digit. destruct (codepoint g) as [cp|]; [|done]. simpl.
  unfold decimal. destruct (find _ _) as [z|] eqn:E; [|done]. intros _.
  apply find_some in E as [_ [H1 H2]%andb_prop]. apply Z.leb_le in H1, H2. simpl. lia.
Qed.

Lemma in_range_val (lo hi : Z) (g : char) :
  0 ≤ lo → hi ≤ 9 → in_range lo hi g = true →
  is_digit g = true ∧ lo ≤ digit_val g ≤ hi.
Proof.
  intros Hlo Hhi. destruct g as [|c [|? ?]]; try done. cbn [in_range].
  intros [H1 H2]%andb_prop. apply Z.leb_le in H1, H2.
  unfold is_digit, digit_val, digit. cbn [codepoint].
  destruct (Z.ltb_spec (code c) 128); [|lia]. cbn [mbind option_bind].
  unfold decimal, DECIMAL_ZEROS. cbn [find].
  destruct (Z.leb_spec 48 (code c)); [|lia].
  destruct (Z.leb_spec (code c) (48 + 9)); [|lia]. simpl. split; [done|lia].
Qed.

(** ** Time arithmetic *)

(** One alternative of the expression: a guarded singleton. *)
Ltac alternative H :=
  match type of H with
  | _ ∈ (if ?b then _ else _) =>
      let E := fresh "E" in
      destruct b eqn:E; [|by apply not_elem_of_nil in H];
      apply list_elem_of_singleton in H; injection H as -> _;
      repeat match goal with
             | G : _ && _ = true |- _ => apply andb_prop in G as [? ?]
             end;
      repeat match goal with
             | G : in_range _ _ _ = true |- _ =>
                 apply in_range_val in G as [? ?]; [|lia|lia]
             | G : is_digit _ = true |- _ => apply is_digit_val in G
             end;
      lia
  end.

Lemma re_H_bounds (l r : list char) (h : Z) : (h, r) ∈ re_H l → 0 ≤ h ≤ 23.
Proof.
  destruct l as [|a [|b l]]; cbn [re_H].
  - intros H. by apply not_elem_of_nil in H.
  - intros H. alternative H.
  - rewrite !elem_of_app. intros [H|[H|H]]; alternative H.
Qed.

Lemma re_M_bounds (l r : list char) (m : Z) : (m, r) ∈ re_M l → 0 ≤ m ≤ 59.
Proof.
  destruct l as [|a [|b l]]; cbn [re_M].
  - intros H. by apply not_elem_of_nil in H.
  - intros H. alternative H.
  - rewrite !elem_of_app. intros [H|H]; alternative H.
Qed.

Lemma re_HM_bounds (l rest : list char) (h m : Z) :
  (h, m, rest) ∈ re_HM l → 0 ≤ h ≤ 23 ∧ 0 ≤ m ≤ 59.
Proof.
  unfold re_HM. rewrite list_elem_of_bind. intros ([h' r] & Hin & Hh).
  apply re_H_bounds in Hh.
  destruct r as [|c r]; [inversion Hin|].
  destruct (is_char ":" c); [|inversion Hin].
  apply list_elem_of_bind in Hin as ([m' r'] & Hin & Hm).
  apply re_M_bounds in Hm.
  apply list_elem_of_singleton in Hin. injection Hin as -> -> ->. lia.
Qed.

Lemma time_of_day_bounds (t : string) (h m : Z) :
  time_of_day t = Some (h, m) → 0 ≤ h ≤ 23 ∧ 0 ≤ m ≤ 59.
Proof.
  unfold time_of_day, strptime_HM.
  destruct (head _) as [[[h' m'] [|]]|] eqn:E; try discriminate.
  intros [= -> ->]. apply head_Some_elem_of in E. by apply re_HM_bounds in E.
Qed.

Lemma parse_time_hhmm_Some (t : string) (s : Z) :
  parse_time_hhmm t = Some s ↔
  ∃ h m, time_of_day t = Some (h, m) ∧ s = 3600 * h + 60 * m.
Proof.
  unfold parse_time_hhmm. destruct (time_of_day t) as [[h m]|]; simpl; split.
  - intros [= <-]. eauto.
  - intros (h' & m' & [= <- <-] & ->). done.
  - discriminate.
  - intros (? & ? & ? & _). discriminate.
Qed.

(** [minutes_between] in terms of the minutes since midnight of both
    times. *)
Lemma minutes_between_minutes (start end_ : string) (h1 m1 h2 m2 : Z) :
  time_of_day start = Some (h1, m1) → time_of_day end_ = Some (h2, m2) →
  minutes_between start end_ =
    Some (if 60 * h2 + m2 <=? 60 * h1 + m1
          then 60 * h2 + m2 + 1440 - (60 * h1 + m1)
          else 60 * h2 + m2 - (60 * h1 + m1)).
Proof.
  intros H1 H2. unfold minutes_between, parse_time_hhmm. rewrite H1, H2. simpl.
  unfold one_day. f_equal.
  destruct (Z.leb_spec (3600 * h2 + 60 * m2) (3600 * h1 + 60 * m1));
    destruct (Z.leb_spec (60 * h2 + m2) (60 * h1 + m1)); try lia.
  - replace (_ - _) with ((60 * h2 + m2 + 1440 - (60 * h1 + m1)) * 60) by lia.
    by rewrite Z.div_mul.
  - replace (_ - _) with ((60 * h2 + m2 - (60 * h1 + m1)) * 60) by lia.
    by rewrite Z.div_mul.
Qed.

(** Every two-digit [HH:MM] text of a time of day parses to that time:
    checked on the 1440 texts. *)
Lemma time_of_day_hhmm (h m : Z) :
  0 ≤ h ≤ 23 → 0 ≤ m ≤ 59 → time_of_day (hhmm h m) = Some (h, m).
Proof.
  intros Hh Hm.
  assert (Hall : forallb (λ h, forallb (λ m,
            bool_decide (time_of_day (hhmm h m) = Some (h, m))) (seqZ 0 60)) (seqZ 0 24)
          = true) by (vm_compute; reflexivity).
  rewrite forallb_forall in Hall.
  assert (Hh' : In h (seqZ 0 24)) by (apply list_elem_of_In, elem_of_seqZ; lia).
  specialize (Hall h Hh'). rewrite forallb_forall in Hall.
  assert (Hm' : In m (seqZ 0 60)) by (apply list_elem_of_In, elem_of_seqZ; lia).
  specialize (Hall m Hm'). by apply bool_decide_eq_true in Hall.
Qed.

(** C5. For two parseable times, [minutes_between] is the difference of
    the minutes since midnight when the end is strictly later in the day
    than the start, and that difference after adding 24 hours to the end
    otherwise; ["10:00"] to ["11:30"] is 90 and ["23:30"] to ["00:15"] is
    45. *)
Theorem minutes_between_elapsed (start end_ : string) (h1 m1 h2 m2 : Z) :
  time_of_day start = Some (h1, m1) →
  time_of_day end_ = Some (h2, m2) →
  (60 * h1 + m1 < 60 * h2 + m2 →
     minutes_between start end_ = Some (60 * h2 + m2 - (60 * h1 + m1)))
  ∧ (60 * h2 + m2 ≤ 60 * h1 + m1 →
     minutes_between start end_ = Some (60 * h2 + m2 + 24 * 60 - (60 * h1 + m1)))
  ∧ minutes_between "10:00" "11:30" = Some 90
  ∧ minutes_between "23:30" "00:15" = Some 45.
Proof.
  intros H1 H2. rewrite (minutes_between_minutes _ _ _ _ _ _ H1 H2).
  repeat split; try reflexivity.
  - intros Hlt. destruct (Z.leb_spec (60 * h2 + m2) (60 * h1 + m1)); [lia|done].
  - intros Hle. destruct (Z.leb_spec (60 * h2 + m2) (60 * h1 + m1)); [done|lia].
Qed.

Lemma minutes_between_elapsed_witness :
  time_of_day "08:15" = Some (8, 15) ∧ time_of_day " 9:5 " = Some (9, 5)
  ∧ minutes_between "08:15" " 9:5 " = Some 50.
Proof.
  split; [reflexivity|]. split; [reflexivity|].
  apply (minutes_between_elapsed "08:15" " 9:5 " 8 15 9 5); [reflexivity|reflexivity|lia].
Defined.

(** ** KPI engine *)

Lemma col_sum_app (l1 l2 : list Z) : col_sum (l1 ++ l2) = col_sum l1 + col_sum l2.
Proof. induction l1; simpl; lia. Qed.

Lemma col_sum_nonneg (l : list Z) : Forall (λ z, 0 ≤ z) l → 0 ≤ col_sum l.
Proof. induction 1; simpl; lia. Qed.

Lemma col_sum_pos (l : list Z) : l ≠ [] → Forall (λ z, 1 ≤ z) l → 0 < col_sum l.
Proof.
  intros Hne Hall. destruct Hall as [|z l Hz Hall]; [done|].
  simpl. assert (0 ≤ col_sum l); [|lia].
  apply col_sum_nonneg. eapply Forall_impl; [exact Hall|]. simpl. lia.
Qed.

Lemma focused_sum_nonneg (df : list Row) : 0 ≤ col_sum (focused_clamped <$> df).
Proof.
  apply col_sum_nonneg, Forall_fmap, Forall_forall. intros r _. apply clamp_lower.
Qed.

Lemma focused_sum_le_total (df : list Row) :
  Forall (λ r, 0 ≤ r_duration_min r) df →
  col_sum (focused_clamped <$> df) ≤ col_sum (r_duration_min <$> df).
Proof.
  induction 1 as [|r df Hr _ IH]; [done|].
  rewrite !fmap_cons. unfold col_sum in *. cbn [foldr].
  pose proof (clamp_upper (r_focused_min r) 0 (r_duration_min r) Hr).
  unfold focused_clamped at 1. lia.
Qed.

Lemma compute_kpis_Some (df : list Row) (k : KPI) :
  compute_kpis df = Some k →
  df ≠ []
  ∧ total k = col_sum (r_duration_min <$> df)
  ∧ focused k = col_sum (focused_clamped <$> df)
  ∧ pause k = col_sum (r_pause_count <$> df)
  ∧ ratio k = (if 0 <? total k then inject_Z (focused k) / inject_Z (total k) else 0)%Q
  ∧ avg_focus k = (ratio k * 5)%Q
  ∧ pause_rate k =
      (if 0 <? total k then inject_Z (pause k) / (inject_Z (total k) / 60) else 0)%Q
  ∧ session_count k = Z.of_nat (length df).
Proof.
  destruct df as [|r df]; [discriminate|].
  unfold compute_kpis. intros [= <-]. simpl. done.
Qed.

Lemma compute_kpis_nonempty (df : list Row) : df ≠ [] → is_Some (compute_kpis df).
Proof. destruct df; [done|]. intros _. unfold compute_kpis. eauto. Qed.




Lemma Qdiv_bounds (a b : Z) :
  0 ≤ a ≤ b → 0 < b → (0 <= inject_Z a / inject_Z b)%Q ∧ (inject_Z a / inject_Z b <= 1)%Q.
Proof.
  intros Hab Hb.
  assert (Hb' : (0 < inject_Z b)%Q) by (unfold Qlt; simpl; lia).
  split.
  - apply Qle_shift_div_l; [exact Hb'|]. rewrite Qmult_0_l.
    unfold Qle; simpl; lia.
  - apply Qle_shift_div_r; [exact Hb'|]. rewrite Qmult_1_l.
    unfold Qle; simpl; lia.
Qed.

(** The ratio is never negative, whatever the records hold. *)
Lemma ratio_nonneg (df : list Row) (k : KPI) :
  compute_kpis df = Some k → (0 <= ratio k)%Q.
Proof.
  intros Hk. destruct (compute_kpis_Some df k Hk) as (_ & Ht & Hf & _ & Hr & _).
  rewrite Hr. destruct (Z.ltb_spec 0 (total k)) as [Hpos|]; [|apply Qle_refl].
  assert (Hpos' : (0 < inject_Z (total k))%Q) by (unfold Qlt; simpl; lia).
  apply Qle_shift_div_l; [exact Hpos'|]. rewrite Qmult_0_l.
  pose proof (focused_sum_nonneg df). rewrite <- Hf in *.
  unfold Qle; simpl; lia.
Qed.

(** C3, as the code has it. When every record has [duration_min >= 0],
    the ratio lies in [0, 1] and the score, the ratio times 5 with no
    further clamp, in [0, 5]. *)
Theorem ratio_in_unit_interval (df : list Row) (k : KPI) :
  Forall (λ r, 0 ≤ r_duration_min r) df →
  compute_kpis df = Some k →
  (0 <= ratio k)%Q ∧ (ratio k <= 1)%Q
  ∧ (avg_focus k == ratio k * 5)%Q
  ∧ (0 <= avg_focus k)%Q ∧ (avg_focus k <= 5)%Q.
Proof.
  intros Hdur Hk.
  destruct (compute_kpis_Some df k Hk) as (_ & Ht & Hf & _ & Hr & Ha & _).
  assert (Hratio : (0 <= ratio k)%Q ∧ (ratio k <= 1)%Q).
  { split; [by eapply ratio_nonneg|].
    rewrite Hr. destruct (Z.ltb_spec 0 (total k)) as [Hpos|]; [|done].
    apply Qdiv_bounds; [|done]. rewrite Hf, Ht. split.
    - apply focused_sum_nonneg.
    - by apply focused_sum_le_total. }
  destruct Hratio as [H0 H1]. rewrite Ha.
  repeat split; try done.
  - apply Qmult_le_0_compat; done.
  - change 5%Q with (1 * 5)%Q at 2. apply Qmult_le_compat_r; done.
Qed.

Lemma ratio_in_unit_interval_witness :
  ∃ k, compute_kpis [sample_row "월" 60 30 2; sample_row "화" 30 30 1] = Some k
     ∧ (0 <= ratio k)%Q ∧ (ratio k <= 1)%Q ∧ (avg_focus k <= 5)%Q.
Proof.
  eexists. split; [reflexivity|].
  destruct (ratio_in_unit_interval
              [sample_row "월" 60 30 2; sample_row "화" 30 30 1] _
              ltac:(repeat constructor; simpl; lia) eq_refl)
    as (H0 & H1 & _ & _ & H5).
  repeat split; assumption.
Defined.

(** C3, as the specification states it, fails: a record with a negative
    duration (an imported snapshot is not validated) lowers the total
    below the clamped focus of the other records. *)
Lemma ratio_above_one :
  ∃ k, compute_kpis [sample_row "월" 10 10 0; sample_row "화" (-5) 0 0] = Some k
     ∧ total k = 5 ∧ focused k = 10
     ∧ (ratio k == 2)%Q ∧ ¬ (ratio k <= 1)%Q
     ∧ (avg_focus k == 10)%Q ∧ ¬ (avg_focus k <= 5)%Q.
Proof.
  eexists. split; [reflexivity|]. simpl.
  repeat split; try reflexivity; intros H; apply Qle_bool_iff in H; discriminate H.
Qed.

(** ** Weekday aggregation *)

Lemma filter_all {A} (P : A → Prop) `{!∀ x, Decision (P x)} (l : list A) :
  Forall P l → filter P l = l.
Proof.
  induction 1 as [|x l Hx _ IH]; [done|]. by rewrite filter_cons_True, IH.
Qed.

Lemma filter_none {A} (P : A → Prop) `{!∀ x, Decision (P x)} (l : list A) :
  Forall (λ x, ¬ P x) l → filter P l = [].
Proof.
  induction 1 as [|x l Hx _ IH]; [done|]. by rewrite filter_cons_False.
Qed.

Lemma groupby_sum_acc (key : Row → string) (col : Row → Z) (df : list Row)
    (acc : gmap string Z) (w : string) :
  default 0 (foldl (λ acc r, <[key r := default 0 (acc !! key r) + col r]> acc) acc df !! w)
  = default 0 (acc !! w) + col_sum (col <$> filter (λ r, key r = w) df).
Proof.
  revert acc. induction df as [|r df IH]; intros acc; simpl.
  - lia.
  - rewrite IH. rewrite filter_cons. destruct (decide (key r = w)) as [->|Hne].
    + rewrite lookup_insert_eq. rewrite fmap_cons. simpl. lia.
    + by rewrite lookup_insert_ne.
Qed.

(** The sum of a group is the sum over the rows with that key; a key
    that does not occur has no group. *)
Lemma groupby_sum_lookup (key : Row → string) (col : Row → Z) (df : list Row) (w : string) :
  default 0 (groupby_sum key col df !! w) = col_sum (col <$> filter (λ r, key r = w) df).
Proof. unfold groupby_sum. rewrite groupby_sum_acc. by rewrite lookup_empty. Qed.

Lemma weekday_sums_entries (fdf : list Row) :
  weekday_sums fdf =
  (λ w, (w, col_sum (focused_clamped <$> filter (λ r, r_weekday r = w) fdf))) <$> WEEK_ORDER.
Proof.
  unfold weekday_sums, reindex. apply list_fmap_ext. intros _ w _.
  by rewrite groupby_sum_lookup.
Qed.

Lemma by_w_Some (fdf : list Row) : fdf ≠ [] → by_w fdf = Some (weekday_sums fdf).
Proof. by destruct fdf. Qed.

Lemma col_sum_indicator (k : string) (c : Z) (index : list string) :
  NoDup index →
  col_sum ((λ w, if decide (k = w) then c else 0) <$> index)
  = if decide (k ∈ index) then c else 0.
Proof.
  induction 1 as [|w index Hw _ IH]; [done|].
  rewrite fmap_cons. unfold col_sum in *. cbn [foldr]. rewrite IH.
  destruct (decide (k = w)) as [->|Hne].
  - rewrite (decide_False (P := w ∈ index)) by done.
    rewrite (decide_True (P := w ∈ w :: index)) by apply list_elem_of_here. lia.
  - destruct (decide (k ∈ index)) as [Hin|Hnin].
    + rewrite (decide_True (P := k ∈ w :: index)) by (by apply list_elem_of_further). lia.
    + rewrite (decide_False (P := k ∈ w :: index)); [lia|].
      intros [?|?]%elem_of_cons; done.
Qed.

Lemma col_sum_pointwise_add {A} (f g : A → Z) (l : list A) :
  col_sum ((λ x, f x + g x) <$> l) = col_sum (f <$> l) + col_sum (g <$> l).
Proof.
  induction l as [|x l IH]; [done|].
  rewrite !fmap_cons. unfold col_sum in *. cbn [foldr]. lia.
Qed.

(** The group sums over an index without repetition add up to the sum
    over the rows whose key is in the index. *)
Lemma group_sums_total (key : Row → string) (col : Row → Z) (index : list string)
    (df : list Row) :
  NoDup index →
  col_sum ((λ w, col_sum (col <$> filter (λ r, key r = w) df)) <$> index)
  = col_sum (col <$> filter (λ r, key r ∈ index) df).
Proof.
  intros Hnd. induction df as [|r df IH].
  - simpl. induction index; [done|]. rewrite fmap_cons.
    unfold col_sum in *. cbn [foldr]. simpl in *.
    rewrite IHindex; [done|]. by apply NoDup_cons_1_2 in Hnd.
  - rewrite (list_fmap_ext _
      (λ w, (if decide (key r = w) then col r else 0)
            + col_sum (col <$> filter (λ r, key r = w) df)) index).
    2:{ intros _ w _. rewrite filter_cons. destruct (decide (key r = w)); [|lia].
        by rewrite fmap_cons. }
    rewrite col_sum_pointwise_add, IH, col_sum_indicator by done.
    rewrite filter_cons. destruct (decide (key r ∈ index)); [|lia].
    by rewrite fmap_cons.
Qed.

Lemma WEEK_ORDER_NoDup : NoDup WEEK_ORDER.
Proof. compute_done. Qed.

(** The entries of the table add up to the clamped focus of the rows
    whose weekday is one of the seven labels. *)
Lemma weekday_sums_total (fdf : list Row) :
  col_sum (weekday_sums fdf).*2
  = col_sum (focused_clamped <$> filter (λ r, r_weekday r ∈ WEEK_ORDER) fdf).
Proof.
  rewrite weekday_sums_entries, <- list_fmap_compose.
  change (col_sum ((λ w, col_sum (focused_clamped <$> filter (λ r, r_weekday r = w) fdf))
                     <$> WEEK_ORDER)
          = col_sum (focused_clamped <$> filter (λ r, r_weekday r ∈ WEEK_ORDER) fdf)).
  apply group_sums_total, WEEK_ORDER_NoDup.
Qed.

(** C4, as the code has it. For an empty selection the page builds no
    table.  For every non-empty selection the table has the seven labels
    of [WEEK_ORDER] in that order, each with the sum of the clamped focus
    of the rows of that weekday (0 when there is none); the seven entries
    add up to the clamped focus of the rows whose weekday is one of the
    seven labels, which is that of the whole input when every row's
    weekday is one of them. *)
Theorem by_w_table (fdf : list Row) :
  (by_w fdf = None ↔ fdf = [])
  ∧ (fdf ≠ [] →
     ∃ t, by_w fdf = Some t
       ∧ length t = 7%nat
       ∧ t.*1 = WEEK_ORDER
       ∧ t = (λ w, (w, col_sum ((λ r, clamp (r_focused_min r) 0 (r_duration_min r))
                                  <$> filter (λ r, r_weekday r = w) fdf))) <$> WEEK_ORDER
       ∧ (∀ w, w ∈ WEEK_ORDER → Forall (λ r, r_weekday r ≠ w) fdf → (w, 0) ∈ t)
       ∧ col_sum t.*2
         = col_sum ((λ r, clamp (r_focused_min r) 0 (r_duration_min r))
                      <$> filter (λ r, r_weekday r ∈ WEEK_ORDER) fdf)
       ∧ (Forall (λ r, r_weekday r ∈ WEEK_ORDER) fdf →
          col_sum t.*2
          = col_sum ((λ r, clamp (r_focused_min r) 0 (r_duration_min r)) <$> fdf))).
Proof.
  split; [destruct fdf; done|].
  intros Hne. exists (weekday_sums fdf). split; [by apply by_w_Some|].
  pose proof (weekday_sums_total fdf) as Htotal.
  rewrite weekday_sums_entries in *.
  split; [done|]. split.
  { rewrite <- list_fmap_compose. by rewrite list_fmap_id. }
  split; [done|]. split; [|split].
  - intros w Hw Hnone. apply list_elem_of_fmap. exists w. split; [|done].
    f_equal. rewrite filter_none; [done|].
    eapply Forall_impl; [exact Hnone|]. naive_solver.
  - exact Htotal.
  - intros Hwd. rewrite Htotal. by rewrite filter_all.
Qed.

Lemma by_w_table_witness :
  by_w [sample_row "수" 60 45 1; sample_row "월" 30 40 0; sample_row "수" 20 5 0]
  = Some [("월", 30); ("화", 0); ("수", 50); ("목", 0); ("금", 0); ("토", 0); ("일", 0)]
  ∧ ∃ t, by_w [sample_row "수" 60 45 1; sample_row "월" 30 40 0; sample_row "수" 20 5 0]
         = Some t ∧ col_sum t.*2 = 80.
Proof.
  destruct (proj2 (by_w_table
              [sample_row "수" 60 45 1; sample_row "월" 30 40 0; sample_row "수" 20 5 0]))
    as (t & Ht & _ & _ & _ & _ & _ & Hsum); [discriminate|].
  split; [reflexivity|]. exists t. split; [exact Ht|].
  rewrite Hsum; [reflexivity|]. repeat constructor; compute_done.
Defined.

(** C4, as the specification states it, fails.  A row whose weekday is
    not one of the seven labels (here the label of an imported snapshot
    in another language) is dropped by [reindex], and the entries no
    longer add up to the total; and for the empty selection there is no
    table of seven entries. *)
Lemma by_w_drops_unknown_weekday :
  (∃ t, by_w [sample_row "Mon" 60 30 0; sample_row "월" 30 10 0] = Some t
     ∧ t = [("월", 10); ("화", 0); ("수", 0); ("목", 0); ("금", 0); ("토", 0); ("일", 0)]
     ∧ col_sum t.*2 = 10
     ∧ col_sum ((λ r, clamp (r_focused_min r) 0 (r_duration_min r))
                  <$> [sample_row "Mon" 60 30 0; sample_row "월" 30 10 0]) = 40)
  ∧ by_w [] = None.
Proof. split; [|reflexivity]. eexists. split; [reflexivity|]. repeat split; reflexivity. Qed.

(** ** Calendar order

    The order of dates as [(year, month, day)] is the order of their
    ordinals, so that the day before and the day after a date are the
    dates whose ordinal is one less and one more. *)

Lemma days_before_year_mono y y' : y ≤ y' → days_before_year y ≤ days_before_year y'.
Proof. unfold days_before_year. intros. Z.div_mod_to_equations. lia. Qed.

Lemma days_before_year_succ y : days_before_year (y + 1) = days_before_year y + (if is_leap y then 366 else 365).
Proof.
  unfold days_before_year, is_leap.
  replace (y + 1 - 1) with y by lia.
  destruct (Z.eqb_spec (y `mod` 4) 0), (Z.eqb_spec (y `mod` 100) 0), (Z.eqb_spec (y `mod` 400) 0); simpl;
  Z.div_mod_to_equations; lia.
Qed.

Lemma days_before_month_succ y m : 1 ≤ m ≤ 11 → days_before_month y (m + 1) = days_before_month y m + days_in_month y m.
Proof.
  intros Hm. unfold days_before_month, days_in_month.
  assert (m = 1 ∨ m = 2 ∨ m = 3 ∨ m = 4 ∨ m = 5 ∨ m = 6 ∨ m = 7 ∨ m = 8 ∨ m = 9 ∨ m = 10 ∨ m = 11) as H by lia.
  destruct (is_leap y); repeat (destruct H as [->|H]; [reflexivity|]); subst; reflexivity.
Qed.
Lemma days_before_month_mono y m m' : 1 ≤ m → m ≤ m' → m' ≤ 12 → days_before_month y m ≤ days_before_month y m'.
Proof.
  intros H1 H2 H3.
  assert (∃ n : nat, m' = m + Z.of_nat n) as [n ->] by (exists (Z.to_nat (m' - m)); lia).
  clear H2. induction n as [|n IH]; [replace (m + Z.of_nat 0) with m by lia; lia|].
  replace (m + Z.of_nat (S n)) with (m + Z.of_nat n + 1) in * by lia.
  rewrite days_before_month_succ by lia. specialize (IH ltac:(lia)).
  assert (0 ≤ days_in_month y (m + Z.of_nat n)); [|lia].
  unfold days_in_month. 
  assert (1 ≤ m + Z.of_nat n ≤ 11) as H by lia. revert H. generalize (m + Z.of_nat n). intros k Hk.
  assert (k = 1 ∨ k = 2 ∨ k = 3 ∨ k = 4 ∨ k = 5 ∨ k = 6 ∨ k = 7 ∨ k = 8 ∨ k = 9 ∨ k = 10 ∨ k = 11) as H by lia.
  destruct (is_leap y); repeat (destruct H as [->|H]; [simpl; lia|]); subst; simpl; lia.
Qed.
Lemma days_before_month_12 y : days_before_month y 12 + days_in_month y 12 = if is_leap y then 366 else 365.
Proof. unfold days_before_month, days_in_month. destruct (is_leap y); reflexivity. Qed.

Lemma toordinal_lt_month y m1 d1 m2 d2 :
  1 ≤ m1 → m1 < m2 → m2 ≤ 12 → d1 ≤ days_in_month y m1 → 1 ≤ d2 →
  days_before_month y m1 + d1 < days_before_month y m2 + d2.
Proof.
  intros. pose proof (days_before_month_succ y m1 ltac:(lia)).
  pose proof (days_before_month_mono y (m1 + 1) m2 ltac:(lia) ltac:(lia) ltac:(lia)). lia.
Qed.

Lemma toordinal_in_year y m d :
  1 ≤ m ≤ 12 → 1 ≤ d ≤ days_in_month y m →
  1 ≤ days_before_month y m + d ≤ if is_leap y then 366 else 365.
Proof.
  intros Hm Hd. pose proof (days_before_month_12 y). pose proof (days_before_month_mono y 1 m ltac:(lia) ltac:(lia) ltac:(lia)).
  assert (days_before_month y 1 = 0) by (unfold days_before_month; simpl; destruct (is_leap y); reflexivity).
  split; [lia|].
  destruct (decide (m = 12)) as [->|]; [lia|].
  pose proof (toordinal_lt_month y m d 12 1 ltac:(lia) ltac:(lia) ltac:(lia) ltac:(lia) ltac:(lia)).
  assert (1 ≤ days_in_month y 12) by (unfold days_in_month; simpl; lia). lia.
Qed.

Lemma toordinal_lt_year (a b : date) :
  valid_date a → valid_date b → year a < year b → toordinal a < toordinal b.
Proof.
  intros (Hy1 & Hm1 & Hd1) (Hy2 & Hm2 & Hd2) Hlt. unfold toordinal.
  pose proof (toordinal_in_year _ _ _ Hm1 Hd1).
  pose proof (toordinal_in_year _ _ _ Hm2 Hd2).
  pose proof (days_before_year_succ (year a)).
  pose proof (days_before_year_mono (year a + 1) (year b) ltac:(lia)).
  lia.
Qed.

Lemma date_cmp_toordinal (a b : date) :
  valid_date a → valid_date b → date_cmp a b = (toordinal a ?= toordinal b).
Proof.
  intros Ha Hb. unfold date_cmp.
  destruct (Z.compare_spec (year a) (year b)) as [Hy|Hy|Hy].
  - destruct Ha as (_ & Hm1 & Hd1), Hb as (_ & Hm2 & Hd2). unfold toordinal. rewrite <- Hy in *.
    destruct (Z.compare_spec (month a) (month b)) as [Hm|Hm|Hm].
    + rewrite <- Hm. destruct (Z.compare_spec (day a) (day b)); symmetry;
        [apply Z.compare_eq_iff|apply Z.compare_lt_iff|apply Z.compare_gt_iff]; lia.
    + symmetry. apply Z.compare_lt_iff.
      pose proof (toordinal_lt_month (year a) (month a) (day a) (month b) (day b)). lia.
    + symmetry. apply Z.compare_gt_iff.
      pose proof (toordinal_lt_month (year a) (month b) (day b) (month a) (day a)). lia.
  - symmetry. apply Z.compare_lt_iff. by apply toordinal_lt_year.
  - symmetry. apply Z.compare_gt_iff. by apply toordinal_lt_year.
Qed.

Lemma date_cmp_refl (a : date) : date_cmp a a = Eq.
Proof. unfold date_cmp. by rewrite !Z.compare_refl. Qed.

Lemma date_le_refl (a : date) : date_le a a = true.
Proof. unfold date_le. by rewrite date_cmp_refl. Qed.

Lemma date_cmp_antisym (a b : date) : date_cmp b a = CompOpp (date_cmp a b).
Proof.
  unfold date_cmp.
  rewrite (Z.compare_antisym (year a) (year b)), (Z.compare_antisym (month a) (month b)),
    (Z.compare_antisym (day a) (day b)).
  destruct (year a ?= year b), (month a ?= month b), (day a ?= day b); reflexivity.
Qed.

Lemma date_lt_not_le (a b : date) : date_lt a b = negb (date_le b a).
Proof.
  unfold date_lt, date_le. rewrite (date_cmp_antisym a b).
  by destruct (date_cmp a b).
Qed.

Lemma date_le_toordinal (a b : date) :
  valid_date a → valid_date b → date_le a b = true ↔ toordinal a ≤ toordinal b.
Proof.
  intros Ha Hb. unfold date_le. rewrite (date_cmp_toordinal a b Ha Hb).
  destruct (Z.compare_spec (toordinal a) (toordinal b)); split; (done || lia).
Qed.

(** ** Date-range filter *)

Lemma select_range_Some (df : frame) (start_date end_date : date) :
  date_le start_date end_date = true →
  select_range df start_date end_date
  = Some (filter (λ r, mask start_date end_date r = true) df).
Proof.
  intros Hle. unfold select_range. rewrite date_lt_not_le, Hle. done.
Qed.

(** C9. With [start_date <= end_date] the filter keeps, in their order,
    exactly the rows whose calendar date lies between the two bounds,
    both included: a row dated on either bound is kept, a row dated one
    day before the start or one day after the end is not. *)
Theorem select_range_inclusive (df : frame) (start_date end_date : date) :
  date_le start_date end_date = true →
  ∃ fdf, select_range df start_date end_date = Some fdf
    ∧ fdf `sublist_of` df
    ∧ (∀ r, r ∈ fdf ↔
            r ∈ df ∧ date_le start_date r.2 = true ∧ date_le r.2 end_date = true)
    ∧ (∀ r, r ∈ df → r.2 = start_date ∨ r.2 = end_date → r ∈ fdf)
    ∧ (∀ r, valid_date r.2 → valid_date start_date → valid_date end_date →
            toordinal r.2 = toordinal start_date - 1
            ∨ toordinal r.2 = toordinal end_date + 1 →
            r ∉ fdf).
Proof.
  intros Hle. eexists. split; [by apply select_range_Some|].
  assert (Hin : ∀ r, r ∈ filter (λ r, mask start_date end_date r = true) df ↔
            r ∈ df ∧ date_le start_date r.2 = true ∧ date_le r.2 end_date = true).
  { intros r. rewrite list_elem_of_filter. unfold mask.
    rewrite andb_true_iff. tauto. }
  split; [apply sublist_filter|]. split; [exact Hin|]. split.
  - intros r Hr [Heq|Heq]; apply Hin; rewrite Heq; auto using date_le_refl.
  - intros r Hvr Hvs Hve Hord [_ [H1 H2]]%Hin.
    apply date_le_toordinal in H1, H2; try done. 
    apply date_le_toordinal in Hle; try done. lia.
Qed.

Lemma select_range_inclusive_witness :
  ∃ fdf,
    select_range [(sample_row "목" 60 30 0, Date 2024 2 29);
                  (sample_row "금" 60 30 0, Date 2024 3 1);
                  (sample_row "일" 60 30 0, Date 2024 3 31);
                  (sample_row "월" 60 30 0, Date 2024 4 1)]
                 (Date 2024 3 1) (Date 2024 3 31) = Some fdf
    ∧ (sample_row "금" 60 30 0, Date 2024 3 1) ∈ fdf
    ∧ (sample_row "목" 60 30 0, Date 2024 2 29) ∉ fdf.
Proof.
  destruct (select_range_inclusive
              [(sample_row "목" 60 30 0, Date 2024 2 29);
               (sample_row "금" 60 30 0, Date 2024 3 1);
               (sample_row "일" 60 30 0, Date 2024 3 31);
               (sample_row "월" 60 30 0, Date 2024 4 1)]
              (Date 2024 3 1) (Date 2024 3 31) eq_refl)
    as (fdf & Hsel & _ & _ & Hin & Hout).
  exists fdf. split; [exact Hsel|]. split.
  - apply Hin; [|left; reflexivity]. apply list_elem_of_further, list_elem_of_here.
  - apply Hout; [| | |left; reflexivity]; repeat split; by vm_compute.
Defined.

(** ** Session store *)

Lemma minutes_between_bounds (start end_ : string) (dur : Z) :
  minutes_between start end_ = Some dur → 1 ≤ dur ≤ 1440.
Proof.
  intros H.
  destruct (parse_time_hhmm start) as [s|] eqn:Hs;
    [|unfold minutes_between in H; rewrite Hs in H; discriminate].
  destruct (parse_time_hhmm end_) as [e|] eqn:He;
    [|unfold minutes_between in H; rewrite Hs, He in H; discriminate].
  apply parse_time_hhmm_Some in Hs as (h1 & m1 & H1 & _).
  apply parse_time_hhmm_Some in He as (h2 & m2 & H2 & _).
  rewrite (minutes_between_minutes _ _ _ _ _ _ H1 H2) in H.
  apply time_of_day_bounds in H1, H2. injection H as <-.
  destruct (Z.leb_spec (60 * h2 + m2) (60 * h1 + m1)); lia.
Qed.

Lemma minutes_between_same (start end_ : string) (t : Z) :
  parse_time_hhmm start = Some t → parse_time_hhmm end_ = Some t →
  minutes_between start end_ = Some 1440.
Proof.
  intros Hs He. unfold minutes_between. rewrite Hs, He. simpl.
  rewrite Z.leb_refl. unfold one_day. f_equal.
  replace (t + 86400 - t) with (1440 * 60) by lia. by rewrite Z.div_mul.
Qed.

Lemma new_session_ok (ds subject start end_ : string) (dur pause focused h : Z) (now : string) :
  1 ≤ dur ≤ 1440 → session_ok (new_session ds subject start end_ dur pause focused h now).
Proof.
  intros Hdur. unfold session_ok, new_session. simpl.
  pose proof (clamp_lower focused dur).
  pose proof (clamp_upper focused 0 dur). lia.
Qed.

Lemma weekday_range (d : date) : 0 ≤ weekday d ≤ 6.
Proof. unfold weekday. pose proof (Z.mod_pos_bound (toordinal d + 6) 7). lia. Qed.

Lemma weekday_kr_canonical (d : date) :
  WEEKDAY_MAP !! weekday d = Some (weekday_kr d) ∧ weekday_kr d ∈ WEEK_ORDER.
Proof.
  unfold weekday_kr. pose proof (weekday_range d) as Hr.
  assert (Hc : weekday d = 0 ∨ weekday d = 1 ∨ weekday d = 2 ∨ weekday d = 3
               ∨ weekday d = 4 ∨ weekday d = 5 ∨ weekday d = 6) by lia.
  destruct Hc as [->|[->|[->|[->|[->|[->| ->]]]]]]; (split; [reflexivity|compute_done]).
Qed.

(** What a call of [add_session] with parseable times leaves in the
    store. *)
Lemma add_session_Returned (d : date) (subject start end_ : string) (pause focused h : Z)
    (now : string) (store : Store) (dur : Z) :
  minutes_between start end_ = Some dur →
  let ds := strftime_ymd d in
  let sess := new_session ds subject start end_ dur pause focused h now in
  let old := default {| weekday_of := weekday_kr d; sessions := [] |} (days store !! ds) in
  add_session d subject start end_ pause focused h now store
  = Returned {| days := <[ds := set_sessions (sessions old ++ [sess]) old]> (days store) |}.
Proof.
  intros Hdur ds sess old. unfold add_session. rewrite Hdur. fold ds sess.
  f_equal. f_equal. apply map_eq. intros k. subst old.
  destruct (decide (ds = k)) as [<-|Hne].
  - rewrite lookup_insert_eq, lookup_alter_eq.
    destruct (days store !! ds) as [day|] eqn:E.
    + rewrite decide_True by eauto. by rewrite E.
    + rewrite decide_False by (intros [? ?]; done). by rewrite lookup_insert_eq.
  - rewrite lookup_insert_ne, lookup_alter_ne by done.
    destruct (decide (is_Some (days store !! ds))); [done|].
    by rewrite lookup_insert_ne.
Qed.

(** C8. A call of [add_session] with parseable times returns, having
    appended to the bucket of the date one record whose [focused_min] is
    [clamp(focused, 0, duration_min)] and whose [pause_count] is
    [max(0, pause)]; so the record has [0 <= focused_min <= duration_min]
    and [pause_count >= 0].  With a duration of 60, 500 focused minutes
    are stored as 60 and -10 as 0. *)
Theorem add_session_clamps (d : date) (subject start end_ : string) (pause focused h : Z)
    (now : string) (store : Store) (dur : Z) :
  minutes_between start end_ = Some dur →
  (∃ store' sess,
      add_session d subject start end_ pause focused h now store = Returned store'
      ∧ sessions <$> days store' !! strftime_ymd d
        = Some (default [] (sessions <$> days store !! strftime_ymd d) ++ [sess])
      ∧ s_duration_min sess = dur
      ∧ s_focused_min sess = clamp focused 0 dur
      ∧ s_pause_count sess = Z.max 0 pause
      ∧ 0 ≤ s_focused_min sess ≤ s_duration_min sess
      ∧ 0 ≤ s_pause_count sess)
  ∧ (minutes_between "10:00" "11:00" = Some 60
     ∧ ∀ raw, ∃ store',
         add_session d subject "10:00" "11:00" pause raw h now init_store = Returned store'
         ∧ (raw = 500 →
              (λ day, s_focused_min <$> sessions day) <$> days store' !! strftime_ymd d
              = Some [60])
         ∧ (raw = -10 →
              (λ day, s_focused_min <$> sessions day) <$> days store' !! strftime_ymd d
              = Some [0])).
Proof.
  intros Hdur.
  pose proof (add_session_Returned d subject start end_ pause focused h now store dur Hdur)
    as Hadd.
  pose proof (add_session_Returned d subject "10:00" "11:00" pause) as Hex.
  cbv zeta in Hadd, Hex. revert Hadd Hex. generalize (strftime_ymd d). intros ds Hadd Hex.
  split.
  - eexists _, (new_session ds subject start end_ dur pause focused h now).
    split; [exact Hadd|].
    pose proof (minutes_between_bounds _ _ _ Hdur) as Hb.
    cbn [days]. rewrite lookup_insert_eq. cbn.
    split.
    { f_equal. f_equal. by destruct (days store !! ds). }
    pose proof (clamp_lower focused dur). pose proof (clamp_upper focused 0 dur).
    repeat split; try done; lia.
  - split; [reflexivity|]. intros raw. eexists.
    split; [by apply (Hex raw h now init_store 60)|].
    cbn [days]. rewrite lookup_insert_eq. cbn.
    split; intros ->; reflexivity.
Qed.

Lemma add_session_clamps_witness :
  ∃ store' sess,
    add_session (Date 2024 3 4) " 수학 " "23:30" "00:15" (-2) 50 7 "2024-03-04 23:30" init_store
    = Returned store'
    ∧ sessions <$> days store' !! "2024-03-04" = Some [sess]
    ∧ s_duration_min sess = 45 ∧ s_focused_min sess = 45 ∧ s_pause_count sess = 0.
Proof.
  destruct (add_session_clamps (Date 2024 3 4) " 수학 " "23:30" "00:15" (-2) 50 7
              "2024-03-04 23:30" init_store 45 eq_refl)
    as [(store' & sess & Hadd & Hss & Hd & Hf & Hp & _) _].
  exists store', sess. repeat split; assumption.
Defined.

(** *** Deletion *)

Lemma lookup_foldr_delete {A} (m : gmap string A) (ks : list string) (k : string) :
  foldr delete m ks !! k = if decide (k ∈ ks) then None else m !! k.
Proof.
  induction ks as [|k' ks IH]; cbn [foldr].
  - destruct (decide (k ∈ [])) as [Hin|]; [|done]. by apply not_elem_of_nil in Hin.
  - destruct (decide (k' = k)) as [->|Hne].
    + rewrite lookup_delete_eq.
      destruct (decide (k ∈ k :: ks)) as [|Hn]; [done|]. destruct Hn. apply list_elem_of_here.
    + rewrite lookup_delete_ne by done. rewrite IH.
      destruct (decide (k ∈ ks)) as [Hin|Hnin];
        destruct (decide (k ∈ k' :: ks)) as [Hin'|Hnin']; try done.
      * destruct Hnin'. by apply list_elem_of_further.
      * apply elem_of_cons in Hin' as [?|?]; done.
Qed.

(** The bucket of each date after [delete_session]. *)
Lemma delete_session_lookup (session_id : string) (store : Store) (ds : string) :
  days (delete_session session_id store) !! ds =
  day ← days store !! ds;
  if emptied session_id day then None else Some (sweep session_id day).
Proof.
  unfold delete_session. cbn [days]. rewrite lookup_foldr_delete.
  destruct (days store !! ds) as [day|] eqn:E; simpl.
  - destruct (emptied session_id day) eqn:Hem.
    + rewrite decide_True; [done|].
      apply list_elem_of_fmap. exists (ds, day). split; [done|].
      apply elem_of_map_to_list. by apply map_lookup_filter_Some.
    + rewrite decide_False.
      * by rewrite lookup_fmap, E.
      * intros [[k day'] [-> Hin]]%list_elem_of_fmap.
        apply elem_of_map_to_list, map_lookup_filter_Some in Hin as [Hl Hp].
        simpl in *. rewrite E in Hl. injection Hl as <-. congruence.
  - destruct (decide _) as [Hin|]; [|by rewrite lookup_fmap, E].
    done.
Qed.

Lemma emptied_spec (session_id : string) (day : Day) :
  emptied session_id day = true ↔
  sessions day ≠ [] ∧ Forall (λ s, s_id s = session_id) (sessions day).
Proof.
  unfold emptied, sweep. cbn [sessions set_sessions].
  rewrite andb_true_iff, negb_true_iff, Nat.eqb_neq, Nat.eqb_eq. split.
  - intros [Hne H0]. apply length_zero_iff_nil in H0. split.
    + intros Hnil. rewrite Hnil in Hne. simpl in Hne. done.
    + apply Forall_forall. intros s Hs.
      destruct (decide (s_id s = session_id)) as [|Hn]; [done|].
      assert (s ∈ filter (λ s, s_id s ≠ session_id) (sessions day))
        by (by apply list_elem_of_filter).
      rewrite H0 in *. by apply not_elem_of_nil in H.
  - intros [Hne Hall].
    rewrite (filter_none (λ s, s_id s ≠ session_id)).
    + split; [|done]. simpl. destruct (sessions day); [done|]. simpl. lia.
    + eapply Forall_impl; [exact Hall|]. naive_solver.
Qed.

(** *** Stores the page can reach *)

Lemma add_session_ok (d : date) (subject start end_ : string) (pause focused h : Z)
    (now : string) (store store' : Store) :
  store_ok store →
  add_session d subject start end_ pause focused h now store = Returned store' →
  store_ok store'.
Proof.
  intros Hok Hadd.
  destruct (minutes_between start end_) as [dur|] eqn:Hdur;
    [|unfold add_session in Hadd; rewrite Hdur in Hadd; discriminate].
  rewrite (add_session_Returned _ _ _ _ _ _ _ _ _ _ Hdur) in Hadd.
  injection Hadd as <-. unfold store_ok. cbn [days].
  apply map_Forall_insert_2; [|exact Hok].
  pose proof (minutes_between_bounds _ _ _ Hdur) as Hb.
  destruct (days store !! strftime_ymd d) as [day|] eqn:E; cbn.
  - destruct (Hok _ _ E) as (Hw & _ & Hall). split; [done|]. split.
    + by destruct (sessions day).
    + apply Forall_app. split; [done|]. constructor; [|constructor].
      by apply new_session_ok.
  - split; [apply weekday_kr_canonical|]. split; [done|].
    constructor; [|constructor]. by apply new_session_ok.
Qed.

Lemma delete_session_ok (session_id : string) (store : Store) :
  store_ok store → store_ok (delete_session session_id store).
Proof.
  intros Hok ds day' Hl. rewrite delete_session_lookup in Hl.
  destruct (days store !! ds) as [day|] eqn:E; [|discriminate]. simpl in Hl.
  destruct (emptied session_id day) eqn:Hem; [discriminate|]. injection Hl as <-.
  destruct (Hok _ _ E) as (Hw & Hne & Hall). split; [done|]. split.
  - unfold sweep. cbn. intros Hnil.
    assert (emptied session_id day = true); [|congruence].
    apply emptied_spec. split; [done|]. apply Forall_forall. intros s Hs.
    destruct (decide (s_id s = session_id)) as [|Hn]; [done|].
    assert (Hin : s ∈ filter (λ s, s_id s ≠ session_id) (sessions day))
      by (by apply list_elem_of_filter).
    rewrite Hnil in Hin. by apply not_elem_of_nil in Hin.
  - unfold sweep. cbn. apply Forall_forall. intros s [_ Hs]%list_elem_of_filter.
    by eapply Forall_forall in Hall.
Qed.

Lemma reachable_ok (store : Store) : reachable store → store_ok store.
Proof.
  induction 1 as [|store d subject start end_ pause focused h now store' _ IH Hadd
                  |store session_id _ IH].
  - apply map_Forall_empty.
  - by eapply add_session_ok.
  - by apply delete_session_ok.
Qed.

Lemma store_eq (s1 s2 : Store) : days s1 = days s2 → s1 = s2.
Proof. destruct s1, s2. simpl. by intros ->. Qed.

(** C6. Deleting an id that no record has leaves the store equal to
    what it was; a bucket that loses records and keeps none is removed
    from the store, a bucket that keeps some stays with the records it
    keeps; a bucket that is empty after the call was empty before it,
    and in a store the page can reach no bucket is empty after the
    call. *)
Theorem delete_session_spec (session_id : string) (store : Store) :
  ((∀ ds day, days store !! ds = Some day →
              Forall (λ s, s_id s ≠ session_id) (sessions day)) →
     delete_session session_id store = store)
  ∧ (∀ ds day, days store !! ds = Some day →
       sessions day ≠ [] →
       filter (λ s, s_id s ≠ session_id) (sessions day) = [] →
       days (delete_session session_id store) !! ds = None)
  ∧ (∀ ds day, days store !! ds = Some day →
       filter (λ s, s_id s ≠ session_id) (sessions day) ≠ [] →
       days (delete_session session_id store) !! ds
       = Some {| weekday_of := weekday_of day;
                 sessions := filter (λ s, s_id s ≠ session_id) (sessions day) |})
  ∧ (∀ ds day', days (delete_session session_id store) !! ds = Some day' →
       sessions day' = [] →
       days store !! ds = Some day')
  ∧ (reachable store →
       ∀ ds day', days (delete_session session_id store) !! ds = Some day' →
                  sessions day' ≠ []).
Proof.
  split; [|split; [|split; [|split]]].
  - intros Hnone. apply store_eq, map_eq. intros ds.
    rewrite delete_session_lookup.
    destruct (days store !! ds) as [day|] eqn:E; [|done]. simpl.
    specialize (Hnone _ _ E).
    assert (Hsw : sweep session_id day = day).
    { unfold sweep, set_sessions. rewrite filter_all by done. by destruct day. }
    destruct (emptied session_id day) eqn:Hem; [|by rewrite Hsw].
    apply emptied_spec in Hem as [Hne Hall].
    destruct (sessions day) as [|s l]; [done|].
    apply Forall_inv in Hnone, Hall. done.
  - intros ds day E Hne Hnil. rewrite delete_session_lookup, E. simpl.
    assert (Hem : emptied session_id day = true); [|by rewrite Hem].
    unfold emptied, sweep. cbn. rewrite Hnil. simpl.
    destruct (sessions day); [done|]. reflexivity.
  - intros ds day E Hne. rewrite delete_session_lookup, E. simpl.
    destruct (emptied session_id day) eqn:Hem; [|done].
    unfold emptied, sweep in Hem. cbn in Hem.
    apply andb_prop in Hem as [_ H0]. apply Nat.eqb_eq, length_zero_iff_nil in H0. done.
  - intros ds day' Hl Hnil. rewrite delete_session_lookup in Hl.
    destruct (days store !! ds) as [day|] eqn:E; [|discriminate]. simpl in Hl.
    destruct (emptied session_id day) eqn:Hem; [discriminate|]. injection Hl as <-.
    unfold sweep in Hnil. cbn in Hnil.
    destruct (sessions day) as [|s l] eqn:Hs.
    + f_equal. unfold sweep, set_sessions. rewrite Hs. simpl. destruct day. simpl in *.
      by subst.
    + unfold emptied, sweep in Hem. cbn in Hem. rewrite Hs, Hnil in Hem. discriminate.
  - intros Hreach ds day' Hl.
    apply reachable_ok, (delete_session_ok session_id) in Hreach.
    by destruct (Hreach _ _ Hl) as (_ & Hne & _).
Qed.

Lemma delete_session_spec_witness :
  days (delete_session "a" sample_store) !! "2024-03-04" = None
  ∧ days (delete_session "b" sample_store) !! "2024-03-05"
    = Some {| weekday_of := "화"; sessions := [sample_session "c" 45 10 0] |}.
Proof.
  destruct (delete_session_spec "a" sample_store) as (_ & Hprune & _).
  destruct (delete_session_spec "b" sample_store) as (_ & _ & Hkeep & _).
  split.
  - apply (Hprune "2024-03-04" {| weekday_of := "월";
                                   sessions := [sample_session "a" 60 30 2] |});
      [reflexivity|discriminate|reflexivity].
  - apply (Hkeep "2024-03-05" {| weekday_of := "화";
                                  sessions := [sample_session "b" 30 30 1;
                                               sample_session "c" 45 10 0] |});
      [reflexivity|discriminate].
Defined.

(** *** Flat rows *)

Lemma elem_of_sorted_keys (m : gmap string Day) (ds : string) :
  ds ∈ sorted_keys m ↔ is_Some (m !! ds).
Proof.
  unfold sorted_keys. rewrite merge_sort_Permutation, elem_of_elements.
  apply elem_of_dom.
Qed.

Lemma elem_of_store_to_flat_rows (store : Store) (r : Row) :
  r ∈ store_to_flat_rows store ↔
  ∃ ds day s, days store !! ds = Some day ∧ s ∈ sessions day
              ∧ r = flat_row ds (weekday_of day) s.
Proof.
  unfold store_to_flat_rows. rewrite list_elem_of_bind. split.
  - intros (ds & Hr & [day Hday]%elem_of_sorted_keys).
    unfold rows_of_day in Hr. rewrite Hday in Hr.
    apply list_elem_of_fmap in Hr as (s & -> & Hs). eauto 10.
  - intros (ds & day & s & Hday & Hs & ->). exists ds. split.
    + unfold rows_of_day. rewrite Hday. apply list_elem_of_fmap. eauto.
    + apply elem_of_sorted_keys. eauto.
Qed.

Lemma reachable_rows_ok (store : Store) (r : Row) :
  reachable store → r ∈ store_to_flat_rows store →
  r_weekday r ∈ WEEK_ORDER
  ∧ 1 ≤ r_duration_min r ≤ 1440
  ∧ 0 ≤ r_focused_min r ≤ r_duration_min r
  ∧ 0 ≤ r_pause_count r.
Proof.
  intros Hreach Hr.
  apply elem_of_store_to_flat_rows in Hr as (ds & day & s & Hday & Hs & ->).
  destruct (reachable_ok _ Hreach _ _ Hday) as (Hw & _ & Hall).
  eapply Forall_forall in Hall; [|exact Hs]. by split.
Qed.

(** C10. [minutes_between] of two parseable times lies in [1, 1440],
    and is 1440 when both are the same time of day; so every record
    [add_session] appends has [duration_min >= 1], every row of a store
    the page can reach has, and on a non-empty collection of such rows
    the total is positive and both quotients are taken. *)
Theorem duration_at_least_one :
  (∀ start end_ dur, minutes_between start end_ = Some dur → 1 ≤ dur ≤ 1440)
  ∧ (∀ start end_ t,
       parse_time_hhmm start = Some t → parse_time_hhmm end_ = Some t →
       minutes_between start end_ = Some 1440)
  ∧ (∀ d subject start end_ pause focused h now store store',
       add_session d subject start end_ pause focused h now store = Returned store' →
       ∃ sess,
         sessions <$> days store' !! strftime_ymd d
         = Some (default [] (sessions <$> days store !! strftime_ymd d) ++ [sess])
         ∧ 1 ≤ s_duration_min sess)
  ∧ (∀ store r, reachable store → r ∈ store_to_flat_rows store → 1 ≤ r_duration_min r)
  ∧ (∀ store df,
       reachable store → df ≠ [] → df ⊆ store_to_flat_rows store →
       ∃ k, compute_kpis df = Some k
         ∧ 0 < total k
         ∧ (ratio k == inject_Z (focused k) / inject_Z (total k))%Q
         ∧ (pause_rate k == inject_Z (pause k) / (inject_Z (total k) / 60))%Q).
Proof.
  split; [exact minutes_between_bounds|]. split; [exact minutes_between_same|].
  split; [|split].
  - intros d subject start end_ pause focused h now store store' Hadd.
    destruct (minutes_between start end_) as [dur|] eqn:Hdur;
      [|unfold add_session in Hadd; rewrite Hdur in Hadd; discriminate].
    rewrite (add_session_Returned _ _ _ _ _ _ _ _ _ _ Hdur) in Hadd. injection Hadd as <-.
    eexists (new_session _ subject start end_ dur pause focused h now).
    cbn [days]. rewrite lookup_insert_eq. split.
    + cbn [fmap option_fmap option_map sessions set_sessions]. f_equal. f_equal.
      by destruct (days store !! strftime_ymd d).
    + pose proof (minutes_between_bounds _ _ _ Hdur). cbn. lia.
  - intros store r Hreach Hr.
    by destruct (reachable_rows_ok store r Hreach Hr) as (_ & [? _] & _).
  - intros store df Hreach Hne Hsub.
    destruct (compute_kpis_nonempty df Hne) as [k Hk]. exists k. split; [exact Hk|].
    destruct (compute_kpis_Some df k Hk) as (_ & Ht & _ & _ & Hr & _ & Hpr & _).
    assert (Hpos : 0 < total k).
    { rewrite Ht. apply col_sum_pos.
      - by destruct df.
      - apply Forall_fmap, Forall_forall. intros r Hr'. simpl.
        by destruct (reachable_rows_ok store r Hreach (Hsub _ Hr')) as (_ & [? _] & _). }
    split; [exact Hpos|]. rewrite Hr, Hpr. apply Z.ltb_lt in Hpos. by rewrite Hpos.
Qed.

Lemma duration_at_least_one_witness :
  minutes_between "07:00" " 7:00" = Some 1440
  ∧ (minutes_between "23:59" "00:00" = Some 1 → 1 ≤ 1 ≤ 1440).
Proof.
  split.
  - exact (proj1 (proj2 duration_at_least_one) "07:00" " 7:00" 25200 eq_refl eq_refl).
  - exact (proj1 duration_at_least_one "23:59" "00:00" 1).
Defined.

(** ** Export and import *)

Lemma session_of_doc_session_doc (s : Session) : session_of_doc (session_doc s) = Some s.
Proof. destruct s. reflexivity. Qed.

Lemma mapM_session_of_doc (l : list Session) :
  mapM session_of_doc (session_doc <$> l) = Some l.
Proof.
  apply mapM_Some, Forall2_fmap_l, Forall_Forall2_diag, Forall_forall.
  intros s _. apply session_of_doc_session_doc.
Qed.

Lemma day_of_doc_day_doc (day : Day) : day_of_doc (day_doc day) = Some day.
Proof.
  destruct day as [wd ss]. unfold day_of_doc, day_doc. cbn [weekday_of sessions].
  change (as_dict [("weekday", JStr wd); ("sessions", JList (session_doc <$> ss))])
    with (<["weekday" := JStr wd]> (<["sessions" := JList (session_doc <$> ss)]> ∅)
          : gmap string json).
  rewrite option_guard_True.
  - rewrite lookup_insert_eq. cbn. rewrite lookup_insert_ne by done.
    rewrite lookup_insert_eq. cbn. by rewrite mapM_session_of_doc.
  - rewrite !dom_insert_L, dom_empty_L. set_solver.
Qed.

Lemma as_dict_map_to_list (m : gmap string json) : as_dict (map_to_list m) = m.
Proof.
  unfold as_dict. rewrite <- (list_to_map_to_list m) at 2.
  apply list_to_map_proper.
  - rewrite fmap_reverse, reverse_Permutation. apply NoDup_fst_map_to_list.
  - apply reverse_Permutation.
Qed.

Lemma days_of_doc_days_doc (m : gmap string Day) : days_of_doc (days_doc m) = Some m.
Proof.
  unfold days_of_doc, days_doc. rewrite as_dict_map_to_list.
  assert (Hread : day_of_doc <$> (day_doc <$> m) = Some <$> m).
  { apply map_eq. intros ds. rewrite !lookup_fmap.
    destruct (m !! ds) as [day|]; [|done].
    change (Some (day_of_doc (day_doc day)) = Some (Some day)).
    by rewrite day_of_doc_day_doc. }
  rewrite Hread. rewrite option_guard_True.
  - simpl. f_equal. apply map_eq. intros ds.
    rewrite lookup_omap, lookup_fmap. by destruct (m !! ds).
  - intros ds o. rewrite lookup_fmap. destruct (m !! ds); [|done].
    intros [= <-]. eauto.
Qed.

Lemma store_doc_days (store : Store) :
  ∃ kvs, store_doc store = JDict kvs ∧ as_dict kvs !! "days" = Some (days_doc (days store)).
Proof. eexists. split; reflexivity. Qed.

(** *** The text layer *)

(** Induction on documents, with the items of a container. *)
Lemma json_ind' (P : json → Prop) :
  P JNull → (∀ b, P (JBool b)) → (∀ z, P (JInt z)) → (∀ lit, P (JFloat lit)) →
  (∀ s, P (JStr s)) →
  (∀ l, Forall P l → P (JList l)) →
  (∀ kvs, Forall (λ kv, P kv.2) kvs → P (JDict kvs)) →
  ∀ j, P j.
Proof.
  intros Hnull Hbool Hint Hfloat Hstr Hlist Hdict. fix IH 1.
  intros [|b|z|lit|s|l|kvs]; [done|done|done|done|done| |].
  - apply Hlist. induction l as [|x l IHl]; constructor; [apply IH|exact IHl].
  - apply Hdict. induction kvs as [|[k v] kvs IHl]; constructor; [apply IH|exact IHl].
Qed.

Lemma skip_ws_indent (k : nat) (l : list ascii) :
  skip_ws (replicate k " "%char ++ l) = skip_ws l.
Proof. induction k as [|k IH]; [done|]. simpl. exact IH. Qed.

Lemma skip_ws_newline_indent (level : nat) (l : list ascii) :
  skip_ws (newline_indent level ++ l) = skip_ws l.
Proof. unfold newline_indent. simpl. apply skip_ws_indent. Qed.

Lemma skip_ws_id (l : list ascii) :
  (∀ c, head l = Some c → is_ws c = false) → skip_ws l = l.
Proof. destruct l as [|c l]; [done|]. intros H. simpl. by rewrite (H c). Qed.

(** Strings: every character is read back from its escape. *)
Lemma scanstring_escape (c : ascii) (l : list ascii) :
  scanstring (escape c ++ l) = cons_result [c] (scanstring l).
Proof. destruct c as [[] [] [] [] [] [] [] []]; reflexivity. Qed.

Lemma scanstring_escaped (s : list ascii) (rest : list ascii) :
  scanstring (flat_map escape s ++ quote :: rest) = Some (s, rest).
Proof.
  induction s as [|c s IH]; [done|].
  cbn [flat_map]. rewrite <- app_assoc, scanstring_escape, IH. done.
Qed.

(** Numbers: an [int] is read back from its digits. *)
Lemma is_dec_digit_char (k : Z) : is_dec (digit_char k) = true.
Proof.
  unfold is_dec, digit_char, code. pose proof (Z.mod_pos_bound k 10).
  rewrite N_ascii_embedding by lia. rewrite Z2N.id by lia.
  apply andb_true_intro. split; apply Z.leb_le; lia.
Qed.

Lemma code_digit_char (k : Z) : code (digit_char k) = 48 + k `mod` 10.
Proof.
  unfold digit_char, code. pose proof (Z.mod_pos_bound k 10).
  rewrite N_ascii_embedding by lia. rewrite Z2N.id by lia. done.
Qed.

Lemma int_of_digits_snoc (ds : list ascii) (c : ascii) :
  int_of_digits (ds ++ [c]) = 10 * int_of_digits ds + (code c - 48).
Proof. unfold int_of_digits. by rewrite foldl_app. Qed.

Lemma digits_of_spec (fuel : nat) (z : Z) :
  0 ≤ z < 2 ^ Z.of_nat fuel →
  Forall (λ c, is_dec c = true) (digits_of (S fuel) z)
  ∧ int_of_digits (digits_of (S fuel) z) = z
  ∧ ∃ c ds, digits_of (S fuel) z = c :: ds ∧ (code c = 48 → z = 0 ∧ ds = []).
Proof.
  revert z. induction fuel as [|fuel IH]; intros z Hz.
  - assert (z = 0) as -> by (simpl in Hz; lia).
    split; [repeat constructor|]. split; [done|]. eexists _, _. done.
  - remember (S fuel) as f eqn:Hf. cbn [digits_of].
    destruct (Z.ltb_spec z 10) as [Hlt|Hge].
    + split; [repeat constructor; apply is_dec_digit_char|]. split.
      * unfold int_of_digits. cbn [foldl]. rewrite code_digit_char, Z.mod_small by lia. ring.
      * eexists _, _. split; [done|]. rewrite code_digit_char, Z.mod_small by lia.
        intros ?. split; [lia|done].
    + assert (Hz' : 0 ≤ z `div` 10 < 2 ^ Z.of_nat fuel).
      { subst f. rewrite Nat2Z.inj_succ, Z.pow_succ_r in Hz by lia.
        split; [apply Z.div_pos; lia|].
        apply Z.div_lt_upper_bound; lia. }
      subst f. destruct (IH _ Hz') as (Hall & Hval & c & ds & Hd & Hc).
      split; [|split].
      * apply Forall_app. split; [done|]. repeat constructor. apply is_dec_digit_char.
      * rewrite int_of_digits_snoc, Hval, code_digit_char.
        pose proof (Z.div_mod z 10 ltac:(lia)). lia.
      * rewrite Hd. eexists _, _. split; [done|]. intros H0.
        destruct (Hc H0) as [Hq _]. exfalso.
        assert (1 ≤ z `div` 10) by (apply Z.div_le_lower_bound; lia). lia.
Qed.

Lemma log2_fuel (z : Z) : 0 ≤ z → 0 ≤ z < 2 ^ Z.of_nat (Z.to_nat (Z.log2 z + 1)).
Proof.
  intros Hz. split; [done|].
  pose proof (Z.log2_nonneg z). rewrite Z2Nat.id by lia.
  destruct (Z.eq_dec z 0) as [->|Hne]; [done|].
  replace (Z.log2 z + 1) with (Z.succ (Z.log2 z)) by lia. apply Z.log2_spec. lia.
Qed.

Lemma span_digits_app (ds rest : list ascii) :
  Forall (λ c, is_dec c = true) ds →
  (∀ c, head rest = Some c → is_dec c = false) →
  span_digits (ds ++ rest) = (ds, rest).
Proof.
  intros Hds Hrest. induction Hds as [|c ds Hc _ IH].
  - destruct rest as [|c rest]; [done|]. simpl. by rewrite (Hrest c).
  - simpl. by rewrite Hc, IH.
Qed.

Lemma match_frac_none (rest : list ascii) : ends_number rest → match_frac rest = ([], rest).
Proof.
  intros H. destruct rest as [|c rest]; [done|].
  destruct (H c eq_refl) as (_ & Hp & _). simpl. by rewrite Hp.
Qed.

Lemma match_exp_none (rest : list ascii) : ends_number rest → match_exp rest = ([], rest).
Proof.
  intros H. destruct rest as [|c rest]; [done|].
  destruct (H c eq_refl) as (_ & _ & He & HE). simpl. by rewrite He, HE.
Qed.

Lemma match_digits_digits (neg : bool) (z : Z) (rest : list ascii) :
  0 ≤ z → ends_number rest →
  match_digits neg (digits_of (S (Z.to_nat (Z.log2 z + 1))) z ++ rest)
  = Some (JInt (if neg then - z else z), rest).
Proof.
  intros Hz Hrest.
  destruct (digits_of_spec _ z (log2_fuel z Hz)) as (Hall & Hval & c & ds & Hd & Hc).
  rewrite Hd in *. apply Forall_cons in Hall as [Hc1 Hds].
  unfold match_digits. cbn [app]. rewrite Hc1.
  destruct (Ascii.eqb_spec c "0") as [->|Hne].
  - destruct (Hc eq_refl) as [-> ->]. cbn [app].
    rewrite match_frac_none, match_exp_none by done. by destruct neg.
  - rewrite span_digits_app by (try done; intros x Hx; by destruct (Hrest x Hx)).
    rewrite match_frac_none, match_exp_none by done.
    rewrite Hval. done.
Qed.

Lemma digits_of_head (z : Z) :
  0 ≤ z → ∃ c ds, digits_of (S (Z.to_nat (Z.log2 z + 1))) z = c :: ds ∧ is_dec c = true.
Proof.
  intros Hz.
  destruct (digits_of_spec _ z (log2_fuel z Hz)) as (Hall & _ & c & ds & Hd & _).
  rewrite Hd in Hall. apply Forall_cons in Hall as [Hc _]. eauto.
Qed.

Lemma match_number_int_repr (z : Z) (rest : list ascii) :
  ends_number rest → match_number (int_repr z ++ rest) = Some (JInt z, rest).
Proof.
  intros Hrest. unfold int_repr. destruct (Z.ltb_spec z 0).
  - cbn [app match_number]. change (Ascii.eqb "-" "-") with true. cbv iota.
    rewrite match_digits_digits by (done || lia). by rewrite Z.opp_involutive.
  - destruct (digits_of_head z) as (c & ds & Hd & Hc); [done|].
    pose proof (match_digits_digits false z rest ltac:(done) Hrest) as H'.
    rewrite Hd in *. cbn [app match_number] in *.
    destruct (Ascii.eqb_spec c "-") as [->|]; [discriminate Hc|done].
Qed.

Lemma scan_once_string (n : nat) (s : string) (rest : list ascii) :
  scan_once (S n) (encode_basestring s ++ rest) = Some (JStr s, rest).
Proof.
  unfold encode_basestring. cbn [app scan_once].
  change (Ascii.eqb quote quote) with true. cbv iota.
  rewrite <- app_assoc. cbn [app]. rewrite scanstring_escaped.
  by rewrite string_of_list_ascii_of_string.
Qed.

Lemma scan_once_digit (n : nat) (c : ascii) (r : list ascii) :
  is_dec c = true → scan_once (S n) (c :: r) = match_number (c :: r).
Proof.
  intros Hc. destruct c as [[] [] [] [] [] [] [] []]; try discriminate Hc; reflexivity.
Qed.

Lemma scan_once_minus (n : nat) (c : ascii) (r : list ascii) :
  is_dec c = true → scan_once (S n) ("-"%char :: c :: r) = match_number ("-"%char :: c :: r).
Proof.
  intros Hc. destruct c as [[] [] [] [] [] [] [] []]; try discriminate Hc; reflexivity.
Qed.

Lemma scan_once_int (n : nat) (z : Z) (rest : list ascii) :
  ends_number rest → scan_once (S n) (int_repr z ++ rest) = Some (JInt z, rest).
Proof.
  intros Hrest. rewrite <- (match_number_int_repr z rest Hrest).
  unfold int_repr. destruct (Z.ltb_spec z 0).
  - destruct (digits_of_head (- z)) as (c & ds & -> & Hc); [lia|].
    cbn [app]. by apply scan_once_minus.
  - destruct (digits_of_head z) as (c & ds & -> & Hc); [lia|].
    cbn [app]. by apply scan_once_digit.
Qed.

Lemma is_dec_not_ws (c : ascii) : is_dec c = true → is_ws c = false.
Proof. intros Hc. destruct c as [[] [] [] [] [] [] [] []]; try discriminate Hc; reflexivity. Qed.

Lemma is_dec_not_close (c : ascii) : is_dec c = true → Ascii.eqb c "]" = false.
Proof. intros Hc. destruct c as [[] [] [] [] [] [] [] []]; try discriminate Hc; reflexivity. Qed.

(** A document starts with no whitespace and no closing bracket. *)
Lemma encode_head (level : nat) (v : json) :
  plain v = true →
  ∃ c r, encode level v = c :: r ∧ is_ws c = false ∧ Ascii.eqb c "]" = false.
Proof.
  destruct v as [|[]|z|lit|s|[|x l]|[|kv kvs]]; try discriminate;
    intros _; try (by eexists _, _).
  cbn [encode]. unfold int_repr. destruct (Z.ltb_spec z 0).
  - by eexists _, _.
  - destruct (digits_of_head z) as (c & ds & -> & Hc); [lia|].
    eexists _, _. split; [done|]. split; [by apply is_dec_not_ws|by apply is_dec_not_close].
Qed.

Lemma skip_ws_encode (level : nat) (v : json) (rest : list ascii) :
  plain v = true → skip_ws (encode level v ++ rest) = encode level v ++ rest.
Proof.
  intros Hv. destruct (encode_head level v Hv) as (c & r & -> & Hc & _).
  cbn [app skip_ws]. by rewrite Hc.
Qed.

Lemma ends_number_cons (c : ascii) (rest : list ascii) :
  is_dec c = false → Ascii.eqb c "." = false → Ascii.eqb c "e" = false →
  Ascii.eqb c "E" = false → ends_number (c :: rest).
Proof. intros ? ? ? ? x [= <-]. done. Qed.

Lemma ends_number_newline_indent (level : nat) (rest : list ascii) :
  ends_number (newline_indent level ++ rest).
Proof. by apply ends_number_cons. Qed.

Lemma join_cons2 (sep x y : list ascii) (items : list (list ascii)) :
  join sep (x :: y :: items) = x ++ sep ++ join sep (y :: items).
Proof. reflexivity. Qed.

Lemma join_head (sep : list ascii) (x : list ascii) (items : list (list ascii)) (c : ascii)
    (r : list ascii) :
  x = c :: r → ∃ r', join sep (x :: items) = c :: r'.
Proof. intros ->. destruct items; eexists; reflexivity. Qed.

Lemma elems_join (l : list json) (level level' : nat) (n : nat) (rest : list ascii) :
  l ≠ [] → Forall reads_back l → forallb plain l = true →
  (2 * length (join (","%char :: newline_indent level) (map (encode level) l)) + 1 < n)%nat →
  elems n (join (","%char :: newline_indent level) (map (encode level) l)
           ++ newline_indent level' ++ "]"%char :: rest)
  = Some (l, rest).
Proof.
  intros Hne Hall. revert n Hne.
  induction Hall as [|v l Hv Hall IH]; intros n Hne Hplain Hn; [done|].
  cbn [forallb] in Hplain. apply andb_prop in Hplain as [Hpv Hpl].
  destruct n as [|n]; [lia|]. cbn [elems].
  destruct l as [|v2 l'].
  - cbn [map join] in *.
    rewrite (Hv Hpv level n) by (lia || apply ends_number_newline_indent).
    rewrite skip_ws_newline_indent. reflexivity.
  - rewrite !map_cons in *. rewrite join_cons2 in *.
    rewrite <- map_cons in *.
    set (tail := join _ (map (encode level) (v2 :: l'))) in *.
    rewrite length_app in Hn. cbn [length app] in Hn. rewrite length_app in Hn.
    rewrite <- !app_assoc.
    rewrite (Hv Hpv level n) by (lia || by apply ends_number_cons).
    cbn [app skip_ws]. change (is_ws ",") with false. cbv iota.
    change (Ascii.eqb "," "]") with false. change (Ascii.eqb "," ",") with true. cbv iota.
    rewrite skip_ws_newline_indent.
    assert (Htail : ∃ c r, tail = c :: r ∧ is_ws c = false).
    { subst tail. cbn [forallb] in Hpl. apply andb_prop in Hpl as [Hp2 _].
      destruct (encode_head level v2 Hp2) as (c & r & Hc & Hw & _).
      rewrite map_cons. destruct (join_head (","%char :: newline_indent level) _
                                    (map (encode level) l') c r Hc) as [r' ->].
      eauto. }
    destruct Htail as (c & r & Htail & Hc).
    rewrite (skip_ws_id (tail ++ _)) by (rewrite Htail; intros x [= <-]; done).
    subst tail. rewrite IH; [done|done|done|]. lia.
Qed.

Lemma encode_item_head (level : nat) (kv : string * json) :
  ∃ r, encode_item level kv = quote :: r.
Proof. destruct kv as [k v]. eexists. reflexivity. Qed.

Lemma members_join (kvs : list (string * json)) (level level' : nat) (n : nat)
    (rest : list ascii) :
  kvs ≠ [] → Forall (λ kv, reads_back kv.2) kvs → forallb (λ kv, plain kv.2) kvs = true →
  (2 * length (join (","%char :: newline_indent level) (map (encode_item level) kvs)) + 1
   < n)%nat →
  members n (join (","%char :: newline_indent level) (map (encode_item level) kvs)
             ++ newline_indent level' ++ "}"%char :: rest)
  = Some (kvs, rest).
Proof.
  intros Hne Hall. revert n Hne.
  induction Hall as [|[k v] l Hv Hall IH]; intros n Hne Hplain Hn; [done|].
  cbn [forallb snd] in Hplain, Hv. apply andb_prop in Hplain as [Hpv Hpl].
  destruct n as [|n]; [lia|].
  assert (Hitem : ∀ tail, ends_number tail →
     (2 * length (encode_item level (k, v)) < S n)%nat →
     members (S n) (encode_item level (k, v) ++ tail)
     = match skip_ws tail with
       | c' :: l4 =>
           if Ascii.eqb c' "}" then Some ([(k, v)], l4)
           else if Ascii.eqb c' "," then
             match members n (skip_ws l4) with
             | Some (kvs, rest) => Some ((k, v) :: kvs, rest)
             | None => None
             end
           else None
       | [] => None
       end).
  { intros tail Htail Hlen. unfold encode_item, encode_basestring in *.
    cbn [app members]. change (Ascii.eqb quote quote) with true. cbv iota.
    rewrite <- !app_assoc. cbn [app]. rewrite scanstring_escaped.
    cbn [skip_ws]. change (is_ws ":") with false. cbv iota.
    change (Ascii.eqb ":" ":") with true. cbv iota.
    change (skip_ws (" "%char :: encode level v ++ tail))
      with (skip_ws (encode level v ++ tail)).
    rewrite skip_ws_encode by done.
    rewrite (Hv Hpv level n); [|cbn [length] in Hlen; rewrite !length_app in Hlen;
                                 cbn [length] in Hlen; lia|done].
    by rewrite string_of_list_ascii_of_string. }
  destruct l as [|kv2 l'].
  - cbn [map join] in *.
    rewrite Hitem by (lia || apply ends_number_newline_indent).
    rewrite skip_ws_newline_indent. reflexivity.
  - rewrite !map_cons in *. rewrite join_cons2 in *.
    rewrite <- map_cons in *.
    set (tail := join _ (map (encode_item level) (kv2 :: l'))) in *.
    rewrite length_app in Hn. cbn [length app] in Hn. rewrite length_app in Hn.
    rewrite <- !app_assoc.
    rewrite Hitem by (lia || by apply ends_number_cons).
    cbn [app skip_ws]. change (is_ws ",") with false. cbv iota.
    change (Ascii.eqb "," "}") with false. change (Ascii.eqb "," ",") with true. cbv iota.
    rewrite skip_ws_newline_indent.
    assert (Htail : ∃ r, tail = quote :: r).
    { subst tail. rewrite map_cons.
      destruct (encode_item_head level kv2) as [r Hr].
      by apply (join_head _ _ _ quote r). }
    destruct Htail as (r & Htail).
    rewrite (skip_ws_id (tail ++ _)) by (rewrite Htail; intros x [= <-]; done).
    subst tail. rewrite IH; [done|done|done|]. lia.
Qed.

Lemma encode_JList (level : nat) (x : json) (l : list json) :
  encode level (JList (x :: l))
  = "["%char :: newline_indent (S level)
    ++ join (","%char :: newline_indent (S level)) (map (encode (S level)) (x :: l))
    ++ newline_indent level ++ ["]"%char].
Proof. reflexivity. Qed.

Lemma encode_JDict (level : nat) (kv : string * json) (kvs : list (string * json)) :
  encode level (JDict (kv :: kvs))
  = "{"%char :: newline_indent (S level)
    ++ join (","%char :: newline_indent (S level)) (map (encode_item (S level)) (kv :: kvs))
    ++ newline_indent level ++ ["}"%char].
Proof. reflexivity. Qed.

(** Every document without a float is read back from what [encode]
    writes for it. *)
Lemma scan_once_encode (v : json) : reads_back v.
Proof.
  induction v as [|b|z|lit|s|l IH|kvs IH] using json_ind'; intros Hp level n rest Hn Hrest.
  - destruct n as [|n]; [lia|]. reflexivity.
  - destruct n as [|n]; [lia|]. by destruct b.
  - destruct n as [|n]; [lia|]. by apply scan_once_int.
  - done.
  - destruct n as [|n]; [lia|]. apply scan_once_string.
  - destruct n as [|n]; [lia|]. destruct l as [|x l]; [reflexivity|].
    rewrite encode_JList in *. cbn [plain] in Hp.
    set (body := join _ _) in *.
    assert (Hbody : ∃ c r, body = c :: r ∧ is_ws c = false ∧ Ascii.eqb c "]" = false).
    { subst body. cbn [forallb] in Hp. apply andb_prop in Hp as [Hpx _].
      destruct (encode_head (S level) x Hpx) as (c & r & Hc & Hw & Hcl).
      rewrite map_cons.
      destruct (join_head (","%char :: newline_indent (S level)) _
                  (map (encode (S level)) l) c r Hc) as [r' ->].
      eauto. }
    destruct Hbody as (c & r & Hbody & Hw & Hcl).
    cbn [app scan_once]. change (Ascii.eqb "[" quote) with false.
    change (Ascii.eqb "[" "{") with false. change (Ascii.eqb "[" "[") with true. cbv iota.
    rewrite <- !app_assoc, skip_ws_newline_indent.
    rewrite (skip_ws_id (body ++ _)) by (rewrite Hbody; intros y [= <-]; done).
    cbn [length] in Hn. rewrite !length_app in Hn.
    pose proof (elems_join (x :: l) (S level) level n rest ltac:(done) IH Hp) as He.
    fold body in He. cbn [app] in He |- *.
    rewrite Hbody in He |- *. cbn [app] in He |- *. rewrite Hcl.
    rewrite He; [done|]. rewrite <- Hbody. lia.
  - destruct n as [|n]; [lia|]. destruct kvs as [|kv kvs]; [reflexivity|].
    rewrite encode_JDict in *. cbn [plain] in Hp.
    set (body := join _ _) in *.
    assert (Hbody : ∃ r, body = quote :: r).
    { subst body. rewrite map_cons.
      destruct (encode_item_head (S level) kv) as [r Hr].
      by apply (join_head _ _ _ quote r). }
    destruct Hbody as (r & Hbody).
    cbn [app scan_once]. change (Ascii.eqb "{" quote) with false.
    change (Ascii.eqb "{" "{") with true. cbv iota.
    rewrite <- !app_assoc, skip_ws_newline_indent.
    rewrite (skip_ws_id (body ++ _)) by (rewrite Hbody; intros y [= <-]; done).
    cbn [length] in Hn. rewrite !length_app in Hn.
    pose proof (members_join (kv :: kvs) (S level) level n rest ltac:(done) IH Hp) as He.
    fold body in He. cbn [app] in He |- *.
    rewrite Hbody in He |- *. cbn [app] in He |- *.
    change (Ascii.eqb quote "}") with false. cbv iota.
    rewrite He; [done|]. rewrite <- Hbody. lia.
Qed.

(** [json.loads] reads back what [json.dumps] wrote. *)
Lemma loads_dumps (v : json) : plain v = true → loads (dumps v) = Some v.
Proof.
  intros Hp. unfold loads, dumps. rewrite list_ascii_of_string_of_list_ascii.
  rewrite <- (app_nil_r (encode 0 v)) at 2. rewrite skip_ws_encode by done.
  rewrite (scan_once_encode v Hp 0%nat); [done|lia|done].
Qed.

(** The bound on the recursion of the scanner. *)

Lemma skip_ws_length (l : list ascii) : (length (skip_ws l) ≤ length l)%nat.
Proof.
  induction l as [|c l IH]; [done|]. simpl. destruct (is_ws c); simpl; lia.
Qed.

Lemma cons_result_Some (s : list ascii) (res : option (list ascii * list ascii))
    (x rest : list ascii) :
  cons_result s res = Some (x, rest) → ∃ s', res = Some (s', rest).
Proof. destruct res as [[s' r]|]; [|done]. intros [= _ <-]. eauto. Qed.

Lemma scanstring_length (l : list ascii) (s rest : list ascii) :
  scanstring l = Some (s, rest) → (length rest < length l)%nat.
Proof.
  revert s rest. induction l as [l IH] using (induction_ltof1 _ length). unfold ltof in IH.
  intros s rest.
  assert (Hrec : ∀ l' x s', (length l' < length l)%nat →
            cons_result x (scanstring l') = Some (s', rest) →
            (length rest < length l)%nat).
  { intros l' x s' Hl' [s'' H]%cons_result_Some.
    pose proof (IH l' Hl' s'' rest H). lia. }
  clear IH.
  destruct l as [|c r]; [done|]. cbn [scanstring].
  destruct (Ascii.eqb c quote); [intros [= _ <-]; simpl; lia|].
  destruct (Ascii.eqb c backslash).
  - destruct r as [|e r1]; [done|].
    destruct (Ascii.eqb e "u").
    + destruct r1 as [|h1 [|h2 [|h3 [|h4 r2]]]]; try done.
      destruct (hex4 h1 h2 h3 h4) as [u|]; [|done].
      assert (Hsingle : cons_result (utf8 u) (scanstring r2) = Some (s, rest) →
                (length rest < length (c :: e :: h1 :: h2 :: h3 :: h4 :: r2))%nat).
      { apply Hrec. simpl. lia. }
      destruct (is_high u); [|exact Hsingle].
      destruct r2 as [|b [|v [|g1 [|g2 [|g3 [|g4 r3]]]]]]; try exact Hsingle.
      destruct (_ && _); [|exact Hsingle].
      destruct (hex4 g1 g2 g3 g4) as [u2|]; [|done].
      destruct (is_low u2); [|exact Hsingle].
      apply Hrec. simpl. lia.
    + destruct (unescape e); [|done]. apply Hrec. simpl. lia.
  - destruct (code c <? 32); [done|]. apply Hrec. simpl. lia.
Qed.

Lemma span_digits_length (l : list ascii) :
  (length (span_digits l).2 ≤ length l)%nat.
Proof.
  induction l as [|c l IH]; [done|]. simpl.
  destruct (is_dec c); [|simpl; lia].
  destruct (span_digits l) as [ds rest]. simpl in *. lia.
Qed.

Lemma match_frac_length (l : list ascii) : (length (match_frac l).2 ≤ length l)%nat.
Proof.
  destruct l as [|p r]; [done|]. simpl. destruct (Ascii.eqb p "."); [|done].
  pose proof (span_digits_length r). destruct (span_digits r) as [[|d ds] rest]; simpl in *; lia.
Qed.

Lemma match_exp_length (l : list ascii) : (length (match_exp l).2 ≤ length l)%nat.
Proof.
  destruct l as [|e r]; [done|]. simpl. destruct (_ || _); [|done].
  destruct r as [|s r1].
  - simpl. done.
  - destruct (_ || _).
    + pose proof (span_digits_length r1).
      destruct (span_digits r1) as [[|d ds] rest]; simpl in *; lia.
    + pose proof (span_digits_length (s :: r1)).
      destruct (span_digits (s :: r1)) as [[|d ds] rest]; simpl in *; lia.
Qed.

Lemma match_digits_length (neg : bool) (l : list ascii) (v : json) (rest : list ascii) :
  match_digits neg l = Some (v, rest) → (length rest < length l)%nat.
Proof.
  destruct l as [|c r]; [done|]. unfold match_digits.
  destruct (is_dec c); [|done].
  set (p := if Ascii.eqb c "0" then _ else _).
  assert (Hp : (length p.2 ≤ length r)%nat).
  { subst p. destruct (Ascii.eqb c "0"); [done|].
    pose proof (span_digits_length r). destruct (span_digits r). done. }
  destruct p as [int_part l2]. simpl in Hp.
  pose proof (match_frac_length l2). destruct (match_frac l2) as [frac l3].
  pose proof (match_exp_length l3). destruct (match_exp l3) as [exp l4].
  simpl in *. destruct frac, exp; intros [= _ <-]; lia.
Qed.

Lemma match_number_length (l : list ascii) (v : json) (rest : list ascii) :
  match_number l = Some (v, rest) → (length rest < length l)%nat.
Proof.
  destruct l as [|s r]; [done|]. unfold match_number.
  destruct (Ascii.eqb s "-").
  - intros H%match_digits_length. simpl. lia.
  - apply match_digits_length.
Qed.

Lemma drop_prefix_length (p l rest : list ascii) :
  drop_prefix p l = Some rest → length l = (length p + length rest)%nat.
Proof.
  revert l. induction p as [|a p IH]; intros [|b l]; simpl; try done.
  - by intros [= <-].
  - by intros [= <-].
  - destruct (Ascii.eqb a b); [|done]. intros H%IH. lia.
Qed.

Lemma match_constant_length (cs : list (string * json)) (l : list ascii) (v : json)
    (rest : list ascii) :
  Forall (λ c, c.1 ≠ ""%string) cs →
  match_constant cs l = Some (v, rest) → (length rest < length l)%nat.
Proof.
  induction 1 as [|[name w] cs Hn _ IH]; [done|]. simpl.
  destruct (drop_prefix _ l) as [r|] eqn:E; [|exact IH].
  intros [= _ <-]. apply drop_prefix_length in E. destruct name; [done|]. simpl in E. lia.
Qed.

Lemma constants_names : Forall (λ c : string * json, c.1 ≠ ""%string) constants.
Proof. repeat constructor; done. Qed.

(** What a reading leaves is shorter than what it was given. *)
Lemma scan_once_length (n : nat) :
  (∀ l v rest, scan_once n l = Some (v, rest) → (length rest < length l)%nat)
  ∧ (∀ l vs rest, elems n l = Some (vs, rest) → (length rest < length l)%nat)
  ∧ (∀ l kvs rest, members n l = Some (kvs, rest) → (length rest < length l)%nat).
Proof.
  induction n as [|n (IHs & IHe & IHm)]; [done|]. split; [|split].
  - intros [|c r] v rest; [done|]. cbn [scan_once].
    destruct (Ascii.eqb c quote).
    { destruct (scanstring r) as [[s rest']|] eqn:E; [|done].
      intros [= _ <-]. apply scanstring_length in E. simpl. lia. }
    destruct (Ascii.eqb c "{").
    { pose proof (skip_ws_length r). destruct (skip_ws r) as [|c' r']; [done|].
      destruct (Ascii.eqb c' "}"); [intros [= _ <-]; simpl in *; lia|].
      destruct (members n (c' :: r')) as [[kvs rest']|] eqn:E; [|done].
      intros [= _ <-]. apply IHm in E. simpl in *. lia. }
    destruct (Ascii.eqb c "[").
    { pose proof (skip_ws_length r). destruct (skip_ws r) as [|c' r']; [done|].
      destruct (Ascii.eqb c' "]"); [intros [= _ <-]; simpl in *; lia|].
      destruct (elems n (c' :: r')) as [[vs rest']|] eqn:E; [|done].
      intros [= _ <-]. apply IHe in E. simpl in *. lia. }
    destruct (match_constant constants (c :: r)) as [[w rest']|] eqn:E.
    { intros [= _ <-]. by apply (match_constant_length _ _ _ _ constants_names) in E. }
    apply match_number_length.
  - intros l vs rest. cbn [elems].
    destruct (scan_once n l) as [[v l1]|] eqn:E; [|done]. apply IHs in E.
    pose proof (skip_ws_length l1). destruct (skip_ws l1) as [|c r]; [done|].
    destruct (Ascii.eqb c "]"); [intros [= _ <-]; simpl in *; lia|].
    destruct (Ascii.eqb c ","); [|done].
    pose proof (skip_ws_length r).
    destruct (elems n (skip_ws r)) as [[vs' rest']|] eqn:E'; [|done].
    intros [= _ <-]. apply IHe in E'. simpl in *. lia.
  - intros [|q r] kvs rest; [done|]. cbn [members].
    destruct (Ascii.eqb q quote); [|done].
    destruct (scanstring r) as [[k l1]|] eqn:Ek; [|done]. apply scanstring_length in Ek.
    pose proof (skip_ws_length l1). destruct (skip_ws l1) as [|c l2]; [done|].
    destruct (Ascii.eqb c ":"); [|done].
    pose proof (skip_ws_length l2).
    destruct (scan_once n (skip_ws l2)) as [[v l3]|] eqn:E; [|done]. apply IHs in E.
    pose proof (skip_ws_length l3). destruct (skip_ws l3) as [|c' l4]; [done|].
    destruct (Ascii.eqb c' "}"); [intros [= _ <-]; simpl in *; lia|].
    destruct (Ascii.eqb c' ","); [|done].
    pose proof (skip_ws_length l4).
    destruct (members n (skip_ws l4)) as [[kvs' rest']|] eqn:E'; [|done].
    intros [= _ <-]. apply IHm in E'. simpl in *. lia.
Qed.

(** The reading does not depend on the bound on the recursion, once the
    bound is above twice the length of the text. *)
Lemma scan_once_bound (k : nat) :
  (∀ l n m, (2 * length l ≤ k)%nat → (2 * length l < n)%nat → (2 * length l < m)%nat →
     scan_once n l = scan_once m l)
  ∧ (∀ l n m, (2 * length l + 1 ≤ k)%nat → (2 * length l + 1 < n)%nat →
       (2 * length l + 1 < m)%nat → elems n l = elems m l)
  ∧ (∀ l n m, (2 * length l + 1 ≤ k)%nat → (2 * length l + 1 < n)%nat →
       (2 * length l + 1 < m)%nat → members n l = members m l).
Proof.
  induction k as [|k (IHs & IHe & IHm)].
  { split; [|split; intros; lia].
    intros [|c r] [|n] [|m] Hk Hn Hm; simpl in *; try lia. done. }
  split; [|split].
  - intros [|c r] [|n] [|m] Hk Hn Hm; try (simpl in *; lia); [done|].
    cbn [scan_once]. cbn [length] in Hk, Hn, Hm.
    destruct (Ascii.eqb c quote); [done|].
    destruct (Ascii.eqb c "{").
    { pose proof (skip_ws_length r). destruct (skip_ws r) as [|c' r']; [done|].
      destruct (Ascii.eqb c' "}"); [done|].
      rewrite (IHm (c' :: r') n m) by (simpl in *; lia). done. }
    destruct (Ascii.eqb c "[").
    { pose proof (skip_ws_length r). destruct (skip_ws r) as [|c' r']; [done|].
      destruct (Ascii.eqb c' "]"); [done|].
      rewrite (IHe (c' :: r') n m) by (simpl in *; lia). done. }
    done.
  - intros l [|n] [|m] Hk Hn Hm; try lia. cbn [elems].
    rewrite (IHs l n m) by lia.
    destruct (scan_once m l) as [[v l1]|] eqn:E; [|done].
    apply (proj1 (scan_once_length m)) in E.
    pose proof (skip_ws_length l1). destruct (skip_ws l1) as [|c r]; [done|].
    destruct (Ascii.eqb c "]"); [done|]. destruct (Ascii.eqb c ","); [|done].
    pose proof (skip_ws_length r).
    rewrite (IHe (skip_ws r) n m) by (simpl in *; lia). done.
  - intros [|q r] [|n] [|m] Hk Hn Hm; try (simpl in *; lia); [done|]. cbn [members].
    cbn [length] in Hk, Hn, Hm.
    destruct (Ascii.eqb q quote); [|done].
    destruct (scanstring r) as [[key l1]|] eqn:Ek; [|done]. apply scanstring_length in Ek.
    pose proof (skip_ws_length l1). destruct (skip_ws l1) as [|c l2]; [done|].
    destruct (Ascii.eqb c ":"); [|done].
    pose proof (skip_ws_length l2).
    rewrite (IHs (skip_ws l2) n m) by (simpl in *; lia).
    destruct (scan_once m (skip_ws l2)) as [[v l3]|] eqn:E; [|done].
    apply (proj1 (scan_once_length m)) in E.
    pose proof (skip_ws_length l3). destruct (skip_ws l3) as [|c' l4]; [done|].
    destruct (Ascii.eqb c' "}"); [done|]. destruct (Ascii.eqb c' ","); [|done].
    pose proof (skip_ws_length l4).
    rewrite (IHm (skip_ws l4) n m) by (simpl in *; lia). done.
Qed.

(** [loads] gives what the scanner gives under any larger bound: a text
    it refuses is refused for what it holds. *)
Lemma loads_bound (s : string) (n : nat) :
  (2 * length (list_ascii_of_string s) < n)%nat →
  loads s =
  match scan_once n (skip_ws (list_ascii_of_string s)) with
  | Some (v, rest) => match skip_ws rest with [] => Some v | _ => None end
  | None => None
  end.
Proof.
  intros Hn. unfold loads. pose proof (skip_ws_length (list_ascii_of_string s)).
  rewrite (proj1 (scan_once_bound _) _ _ n (Nat.le_refl _)) by lia. done.
Qed.

(** The document of a store holds no [float]. *)
Lemma store_doc_plain (store : Store) : plain (store_doc store) = true.
Proof.
  unfold store_doc, days_doc. cbn [plain forallb snd]. rewrite andb_true_r.
  apply forallb_forall. intros [ds j] Hin.
  apply list_elem_of_In, elem_of_map_to_list in Hin.
  rewrite lookup_fmap in Hin. destruct (days store !! ds) as [day|]; [|done].
  injection Hin as <-. cbn [plain forallb snd day_doc]. rewrite andb_true_r.
  apply forallb_forall. intros x [s [-> _]]%list_elem_of_In%list_elem_of_fmap. done.
Qed.

(** The exported text of a store is read back as the document of the
    store. *)
Lemma loads_export (store : Store) :
  loads (export_store dumps store) = Some (store_doc store).
Proof. apply loads_dumps, store_doc_plain. Qed.

(** C7. For a store reached from the empty store by additions and
    deletions, [json.loads] reads from the exported text the document
    that [json.dumps] wrote, and the upload handler given that text
    installs a store equal to the exported one, whatever store it
    replaces.  (Every store of this model has the shape [add_session]
    writes, so the round trip holds of each of them, the reachable ones
    included.) *)
Theorem import_export_roundtrip (store prior : Store) :
  reachable store →
  loads (export_store dumps store) = Some (store_doc store)
  ∧ import_doc (loads (export_store dumps store)) (store_doc prior) = store_doc store
  ∧ import_store loads (export_store dumps store) prior = Some store.
Proof.
  intros _. pose proof (loads_export store) as Hl.
  split; [exact Hl|]. unfold import_store, import_doc. rewrite Hl.
  destruct (store_doc_days store) as (kvs & Hk & Hd). rewrite Hk, Hd.
  split; [by rewrite <- Hk|].
  rewrite days_of_doc_days_doc. simpl. by destruct store.
Qed.

Lemma import_export_roundtrip_witness :
  ∃ store,
    add_session (Date 2024 3 4) "수학" "10:00" "11:30" 1 50 7 "2024-03-04 11:30" init_store
    = Returned store
    ∧ import_store loads (export_store dumps store) init_store = Some store.
Proof.
  eexists. split.
  - exact (add_session_Returned (Date 2024 3 4) "수학" "10:00" "11:30" 1 50 7
             "2024-03-04 11:30" init_store 90 eq_refl).
  - apply (import_export_roundtrip _ init_store).
    eapply reach_add; [apply reach_init|].
    exact (add_session_Returned (Date 2024 3 4) "수학" "10:00" "11:30" 1 50 7
             "2024-03-04 11:30" init_store 90 eq_refl).
Defined.

(** * Further properties of the program *)

(** ** Characters and stripping *)

Lemma chars_step (a : ascii) (r : list ascii) :
  ∃ g r', a :: r = g ++ r' ∧ chars (a :: r) = g :: chars r'
          ∧ (g = [a] ∨ is_Some (codepoint g)).
Proof.
  cbn [chars]. destruct (trail a) as [|[|[|[|n]]]] eqn:Ht.
  - exists [a], r. eauto.
  - destruct r as [|b r]; [exists [a], []; eauto|].
    destruct (is_cont b) eqn:Hb; [|exists [a], (b :: r); eauto].
    exists [a; b], r. split; [done|]. split; [done|]. right.
    cbn [codepoint]. rewrite Ht, Hb. eauto.
  - destruct r as [|b [|c r]]; [exists [a], []; eauto|exists [a], [b]; eauto|].
    destruct (is_cont b && is_cont c) eqn:Hb; [|exists [a], (b :: c :: r); eauto].
    exists [a; b; c], r. split; [done|]. split; [done|]. right.
    cbn [codepoint]. rewrite Ht. cbn. rewrite Hb. eauto.
  - destruct r as [|b [|c [|d r]]];
      [exists [a], []; eauto|exists [a], [b]; eauto|exists [a], [b; c]; eauto|].
    destruct (is_cont b && is_cont c && is_cont d) eqn:Hb;
      [|exists [a], (b :: c :: d :: r); eauto].
    exists [a; b; c; d], r. split; [done|]. split; [done|]. right.
    cbn [codepoint]. rewrite Ht. cbn. rewrite Hb. eauto.
  - exists [a], r. split; [done|]. split; [|eauto].
    destruct r as [|b [|c [|d r]]]; done.
Qed.

Lemma chars_ind (P : list ascii → Prop) :
  P [] →
  (∀ g r, g ≠ [] → chars (g ++ r) = g :: chars r → P r → P (g ++ r)) →
  ∀ l, P l.
Proof.
  intros Hnil Hstep l.
  remember (length l) as n eqn:Hn. revert l Hn.
  induction n as [n IH] using lt_wf_ind. intros [|a r] Hn; [done|].
  destruct (chars_step a r) as (g & r' & Heq & Hc & Hg).
  rewrite Heq. apply Hstep.
  - destruct Hg as [->|[cp Hcp]]; [done|]. by destruct g.
  - by rewrite <- Heq.
  - apply (IH (length r')); [|done]. subst n.
    apply (f_equal length) in Heq. rewrite length_app in Heq. simpl in Heq.
    destruct g; [|simpl in *; lia].
    destruct Hg as [?|[cp Hcp]]; done.
Qed.

(** The characters of a text, put together again, are the text. *)
Lemma concat_chars (l : list ascii) : concat (chars l) = l.
Proof.
  induction l as [|g r Hg Hc IH] using chars_ind; [done|].
  rewrite Hc. simpl. by rewrite IH.
Qed.

Lemma trail_lead (a : ascii) : trail a ≠ 0%nat → is_cont a = false.
Proof.
  unfold trail, is_cont. intros H.
  destruct (Z.leb_spec 128 (code a)), (Z.leb_spec (code a) 191); try done.
  exfalso. apply H.
  destruct (Z.leb_spec 194 (code a)); [lia|]. simpl.
  destruct (Z.leb_spec 224 (code a)); [lia|]. simpl.
  destruct (Z.leb_spec 240 (code a)); [lia|]. done.
Qed.

(** A character starts with no continuation byte. *)
Lemma codepoint_lead (g : char) (a : ascii) :
  is_Some (codepoint g) → head g = Some a → is_cont a = false.
Proof.
  intros [cp Hcp] Hh. destruct g as [|x g]; [done|]. injection Hh as ->.
  destruct g as [|b [|c [|d [|e g]]]]; cbn [codepoint] in Hcp; [| | | |done].
  - unfold is_cont. destruct (Z.ltb_spec (code a) 128); [|done].
    destruct (Z.leb_spec 128 (code a)); [lia|done].
  - destruct (Nat.eqb_spec (trail a) 1) as [Ht|]; [|done]. apply trail_lead. lia.
  - destruct (Nat.eqb_spec (trail a) 2) as [Ht|]; [|done]. apply trail_lead. lia.
  - destruct (Nat.eqb_spec (trail a) 3) as [Ht|]; [|done]. apply trail_lead. lia.
Qed.

(** A character in front of a text is split off as it is. *)
Lemma chars_cons_char (g : char) (l : list ascii) :
  is_Some (codepoint g) → chars (g ++ l) = g :: chars l.
Proof.
  intros [cp Hcp].
  destruct g as [|a [|b [|c [|d [|e g]]]]]; cbn [codepoint] in Hcp; [done| | | | |done].
  - destruct (Z.ltb_spec (code a) 128) as [Ha|]; [|done].
    cbn [app chars]. replace (trail a) with 0%nat; [done|].
    unfold trail.
    destruct (Z.leb_spec 194 (code a)); [lia|]. simpl.
    destruct (Z.leb_spec 224 (code a)); [lia|]. simpl.
    destruct (Z.leb_spec 240 (code a)); [lia|]. done.
  - destruct (Nat.eqb_spec (trail a) 1) as [Ht|]; [|done]. simpl in Hcp.
    destruct (is_cont b) eqn:Hb; [|done].
    cbn [app chars]. by rewrite Ht, Hb.
  - destruct (Nat.eqb_spec (trail a) 2) as [Ht|]; [|done]. simpl in Hcp.
    destruct (is_cont b && is_cont c) eqn:Hb; [|done].
    cbn [app chars]. by rewrite Ht, Hb.
  - destruct (Nat.eqb_spec (trail a) 3) as [Ht|]; [|done]. simpl in Hcp.
    destruct (is_cont b && is_cont c && is_cont d) eqn:Hb; [|done].
    cbn [app chars]. by rewrite Ht, Hb.
Qed.

Lemma chars_concat_app (gs : list char) (l : list ascii) :
  Forall (λ g, is_Some (codepoint g)) gs → chars (concat gs ++ l) = gs ++ chars l.
Proof.
  induction 1 as [|g gs Hg _ IH]; [done|]. simpl.
  by rewrite <- app_assoc, chars_cons_char, IH.
Qed.

Lemma chars_single_app (a : ascii) (r w : list ascii) :
  (∀ c, head w = Some c → is_cont c = false) →
  chars (a :: r) = [a] :: chars r →
  chars (a :: r ++ w) = [a] :: chars (r ++ w).
Proof.
  intros Hw. cbn [chars].
  assert (Hw' : ∀ x w', w = x :: w' → is_cont x = false) by (intros x w' ->; by apply Hw).
  destruct (trail a) as [|[|[|[|n]]]]; [done| | | |].
  - destruct r as [|b r]; cbn [app].
    + intros _. destruct w as [|x w']; [done|]. by rewrite (Hw' x w').
    + by destruct (is_cont b).
  - destruct r as [|b [|c r]]; cbn [app].
    + intros _. destruct w as [|x [|y w']]; [done|done|]. by rewrite (Hw' x (y :: w')).
    + intros _. destruct w as [|x w']; [done|]. rewrite (Hw' x w') by done.
      by rewrite andb_false_r.
    + by destruct (is_cont b && is_cont c).
  - destruct r as [|b [|c [|d r]]]; cbn [app].
    + intros _. destruct w as [|x [|y [|z w']]]; [done|done|done|].
      by rewrite (Hw' x (y :: z :: w')).
    + intros _. destruct w as [|x [|y w']]; [done|done|].
      rewrite (Hw' x (y :: w')) by done. by rewrite andb_false_r.
    + intros _. destruct w as [|x w']; [done|]. rewrite (Hw' x w') by done.
      by rewrite andb_false_r.
    + by destruct (is_cont b && is_cont c && is_cont d).
  - intros _. by destruct (r ++ w) as [|? [|? [|? ?]]].
Qed.

(** A text that starts with no continuation byte does not change the
    characters before it. *)
Lemma chars_app (l w : list ascii) :
  (∀ c, head w = Some c → is_cont c = false) → chars (l ++ w) = chars l ++ chars w.
Proof.
  intros Hw. remember (length l) as n eqn:Hn. revert l Hn.
  induction n as [n IH] using lt_wf_ind. intros [|a r] Hn; [done|].
  destruct (chars_step a r) as (g & r' & Heq & Hc & Hg).
  assert (Hlen : (length r' < n)%nat).
  { subst n. apply (f_equal length) in Heq. rewrite length_app in Heq. simpl in Heq.
    destruct g; [|simpl in *; lia]. destruct Hg as [?|[cp Hcp]]; done. }
  rewrite Hc. cbn [app]. rewrite <- (IH _ Hlen r' eq_refl).
  destruct Hg as [->|Hg].
  - injection Heq as ->. apply chars_single_app; [done|]. exact Hc.
  - change (chars ((a :: r) ++ w) = g :: chars (r' ++ w)).
    rewrite Heq, <- app_assoc. by apply chars_cons_char.
Qed.

Lemma is_space_codepoint (g : char) : is_space g = true → is_Some (codepoint g).
Proof. unfold is_space. destruct (codepoint g); [eauto|done]. Qed.

Lemma spaces_codepoint (gs : list char) :
  Forall (λ g, is_space g = true) gs → Forall (λ g, is_Some (codepoint g)) gs.
Proof. intros H. eapply Forall_impl; [exact H|]. exact is_space_codepoint. Qed.

(** A run of whitespace characters is a blank text, and starts with no
    continuation byte. *)
Lemma blank_concat (gs : list char) :
  Forall (λ g, is_space g = true) gs → blank (concat gs).
Proof.
  intros H. unfold blank. rewrite <- (app_nil_r (concat gs)).
  rewrite chars_concat_app by (by apply spaces_codepoint). by rewrite app_nil_r.
Qed.

Lemma blank_chars (ws l : list ascii) : blank ws → chars (ws ++ l) = chars ws ++ chars l.
Proof.
  intros H. rewrite <- (concat_chars ws) at 1.
  apply chars_concat_app. by apply spaces_codepoint.
Qed.

Lemma blank_lead (ws : list ascii) (c : ascii) :
  blank ws → head ws = Some c → is_cont c = false.
Proof.
  intros H Hh. rewrite <- (concat_chars ws) in Hh. unfold blank in H.
  destruct (chars ws) as [|g gs]; [done|]. apply Forall_cons in H as [Hg _].
  apply is_space_codepoint in Hg. apply (codepoint_lead g); [done|].
  destruct g as [|x g]; [by destruct Hg|]. done.
Qed.

Lemma lstrip_split (l : list char) :
  ∃ ws, Forall (λ g, is_space g = true) ws ∧ l = ws ++ lstrip l.
Proof.
  induction l as [|c l (ws & Hws & IH)]; [exists []; split; [constructor|done]|].
  simpl. destruct (is_space c) eqn:Hc.
  - exists (c :: ws). split; [by constructor|]. simpl. by f_equal.
  - exists []. split; [constructor|done].
Qed.

Lemma lstrip_head (l : list char) (c : char) :
  head (lstrip l) = Some c → is_space c = false.
Proof.
  induction l as [|a l IH]; [done|]. simpl.
  destruct (is_space a) eqn:Ha; [done|]. by intros [= <-].
Qed.

Lemma lstrip_blank (ws l : list char) :
  Forall (λ g, is_space g = true) ws → lstrip (ws ++ l) = lstrip l.
Proof. induction 1 as [|c ws Hc _ IH]; [done|]. simpl. by rewrite Hc. Qed.

Lemma lstrip_id (l : list char) :
  (∀ c, head l = Some c → is_space c = false) → lstrip l = l.
Proof. destruct l as [|c l]; [done|]. intros H. simpl. by rewrite (H c). Qed.

Lemma head_rev {A} (l : list A) : head (rev l) = last l.
Proof.
  induction l as [|x l IH] using rev_ind; [done|].
  rewrite rev_app_distr, last_snoc. done.
Qed.

Lemma last_rev {A} (l : list A) : last (rev l) = head l.
Proof. rewrite <- head_rev. by rewrite rev_involutive. Qed.

Lemma Forall_rev {A} (P : A → Prop) (l : list A) : Forall P l → Forall P (rev l).
Proof.
  rewrite !Forall_forall. intros H c Hc. apply H.
  apply list_elem_of_In. apply list_elem_of_In, in_rev in Hc. done.
Qed.

(** Stripping takes the whitespace off the ends and nothing else. *)
Lemma strip_chars_core (ws1 core ws2 : list char) :
  Forall (λ g, is_space g = true) ws1 → Forall (λ g, is_space g = true) ws2 →
  (∀ g, head core = Some g → is_space g = false) →
  (∀ g, last core = Some g → is_space g = false) →
  strip_chars (ws1 ++ core ++ ws2) = core.
Proof.
  intros H1 H2 Hh Hl. unfold strip_chars. rewrite lstrip_blank by done.
  destruct core as [|c core].
  - simpl. rewrite <- (app_nil_r ws2), lstrip_blank by done. done.
  - rewrite (lstrip_id ((c :: core) ++ ws2)) by (simpl; intros ? [= <-]; by apply Hh).
    rewrite rev_app_distr, lstrip_blank by (by apply Forall_rev).
    rewrite lstrip_id; [apply rev_involutive|].
    intros a. rewrite head_rev. apply Hl.
Qed.

Lemma lstrip_last (l : list char) (c : char) :
  last (lstrip l) = Some c → last l = Some c.
Proof.
  destruct (lstrip_split l) as (ws & _ & Hl). intros H. rewrite Hl.
  destruct (lstrip l) as [|a r]; [done|]. by rewrite last_app, H.
Qed.

Lemma strip_chars_split (l : list char) :
  ∃ ws1 ws2, Forall (λ g, is_space g = true) ws1 ∧ Forall (λ g, is_space g = true) ws2
             ∧ l = ws1 ++ strip_chars l ++ ws2
             ∧ (∀ g, head (strip_chars l) = Some g → is_space g = false)
             ∧ (∀ g, last (strip_chars l) = Some g → is_space g = false).
Proof.
  destruct (lstrip_split l) as (ws1 & H1 & Hl).
  destruct (lstrip_split (rev (lstrip l))) as (ws2 & H2 & Hr).
  exists ws1, (rev ws2). split; [done|]. split; [by apply Forall_rev|]. split.
  - unfold strip_chars. rewrite <- rev_app_distr, <- Hr, rev_involutive. done.
  - unfold strip_chars. split; intros c.
    + rewrite head_rev. intros Hc. apply lstrip_last in Hc.
      rewrite last_rev in Hc. by apply lstrip_head in Hc.
    + rewrite last_rev. apply lstrip_head.
Qed.

Lemma list_ascii_of_string_app (a b : string) :
  list_ascii_of_string (a +:+ b) = list_ascii_of_string a ++ list_ascii_of_string b.
Proof. induction a as [|c a IH]; [done|]. simpl. by rewrite IH. Qed.

(** The characters of a stripped text are the characters that stripping
    kept. *)
Lemma chars_strip (l : list ascii) :
  ∃ ws1 ws2, blank ws1 ∧ blank ws2
    ∧ l = ws1 ++ concat (strip_chars (chars l)) ++ ws2
    ∧ chars (concat (strip_chars (chars l))) = strip_chars (chars l).
Proof.
  destruct (strip_chars_split (chars l)) as (g1 & g2 & H1 & H2 & Hs & _).
  exists (concat g1), (concat g2).
  split; [by apply blank_concat|]. split; [by apply blank_concat|].
  assert (Hl : l = concat g1 ++ concat (strip_chars (chars l)) ++ concat g2).
  { rewrite <- (concat_chars l) at 1. rewrite Hs at 1. by rewrite !concat_app. }
  split; [exact Hl|].
  pose proof (f_equal chars Hl) as Hc.
  rewrite chars_concat_app in Hc by (by apply spaces_codepoint).
  rewrite chars_app in Hc by (intros c; apply blank_lead; by apply blank_concat).
  rewrite <- (app_nil_r (concat g2)) in Hc at 1.
  rewrite chars_concat_app in Hc by (by apply spaces_codepoint).
  rewrite app_nil_r in Hc. rewrite Hs in Hc at 1.
  apply app_inv_head in Hc. by apply app_inv_tail in Hc.
Qed.

(** [strip] removes whitespace from both ends and only there: the
    result has none at either end, the text is the result between two
    blank runs, padding a text with whitespace does not change the
    result, and stripping twice is stripping once. *)
Lemma strip_spec (s : string) :
  trimmed (list_ascii_of_string (strip s))
  ∧ (∃ ws1 ws2, blank (list_ascii_of_string ws1) ∧ blank (list_ascii_of_string ws2)
                ∧ s = ws1 +:+ strip s +:+ ws2)
  ∧ (∀ ws1 ws2, blank (list_ascii_of_string ws1) → blank (list_ascii_of_string ws2) →
                strip (ws1 +:+ s +:+ ws2) = strip s)
  ∧ strip (strip s) = strip s.
Proof.
  destruct (chars_strip (list_ascii_of_string s)) as (w1 & w2 & H1 & H2 & Hs & Hc).
  destruct (strip_chars_split (chars (list_ascii_of_string s)))
    as (g1 & g2 & G1 & G2 & Hg & Hh & Hl).
  assert (Hpad : ∀ ws1 ws2, blank (list_ascii_of_string ws1) →
            blank (list_ascii_of_string ws2) → strip (ws1 +:+ s +:+ ws2) = strip s).
  { intros ws1 ws2 B1 B2. unfold strip. f_equal. f_equal.
    rewrite !list_ascii_of_string_app.
    rewrite blank_chars by done.
    rewrite chars_app by (intros c; by apply blank_lead).
    rewrite Hg at 1.
    replace (chars (list_ascii_of_string ws1)
             ++ (g1 ++ strip_chars (chars (list_ascii_of_string s)) ++ g2)
             ++ chars (list_ascii_of_string ws2))
      with ((chars (list_ascii_of_string ws1) ++ g1)
            ++ strip_chars (chars (list_ascii_of_string s))
            ++ (g2 ++ chars (list_ascii_of_string ws2)))
      by (by rewrite <- !app_assoc).
    apply strip_chars_core; [by apply Forall_app|by apply Forall_app|done|done]. }
  split; [|split; [|split]].
  - unfold strip, trimmed. rewrite list_ascii_of_string_of_list_ascii, Hc. done.
  - exists (string_of_list_ascii w1), (string_of_list_ascii w2).
    rewrite !list_ascii_of_string_of_list_ascii. split; [done|]. split; [done|].
    rewrite <- (string_of_list_ascii_of_string s) at 1.
    rewrite <- (string_of_list_ascii_of_string (_ +:+ _)).
    f_equal. rewrite !list_ascii_of_string_app, !list_ascii_of_string_of_list_ascii.
    unfold strip. by rewrite list_ascii_of_string_of_list_ascii.
  - exact Hpad.
  - assert (Hcore : strip_chars (strip_chars (chars (list_ascii_of_string s)))
                    = strip_chars (chars (list_ascii_of_string s))).
    { rewrite <- (app_nil_r (strip_chars (chars (list_ascii_of_string s)))) at 1.
      rewrite <- (app_nil_l (strip_chars (chars (list_ascii_of_string s)) ++ [])).
      by apply strip_chars_core. }
    unfold strip at 1. unfold strip at 1.
    rewrite list_ascii_of_string_of_list_ascii, Hc, Hcore. done.
Qed.

(** ** Reading a time *)

(** A time that parses is a whole minute of one day: its hour is in
    0..23, its minute in 0..59, and [parse_time_hhmm] gives the seconds
    since midnight, at most 23:59. *)
Theorem parse_time_hhmm_range (t : string) (s : Z) :
  parse_time_hhmm t = Some s →
  ∃ h m, time_of_day t = Some (h, m)
    ∧ 0 ≤ h ≤ 23 ∧ 0 ≤ m ≤ 59
    ∧ s = 3600 * h + 60 * m ∧ 0 ≤ s ≤ 86340 ∧ s `mod` 60 = 0.
Proof.
  intros (h & m & Ht & ->)%parse_time_hhmm_Some.
  pose proof (time_of_day_bounds t h m Ht) as [Hh Hm].
  exists h, m. repeat split; try done; try lia.
  replace (3600 * h + 60 * m) with ((60 * h + m) * 60) by lia.
  apply Z_mod_mult.
Qed.

Lemma parse_time_hhmm_range_witness :
  ∃ h m, time_of_day "23:59" = Some (h, m) ∧ 3600 * h + 60 * m = 86340.
Proof.
  destruct (parse_time_hhmm_range "23:59" 86340 eq_refl)
    as (h & m & Ht & _ & _ & Hs & _).
  exists h, m. split; [exact Ht|]. symmetry. exact Hs.
Defined.

(** Every hour 0..23 and minute 0..59 is read back from its text, with
    two digits or, below ten, with one: ["09:05"], ["9:05"], ["09:5"]
    and ["9:5"] are the same time. *)
Theorem time_of_day_spellings (h m : Z) :
  0 ≤ h ≤ 23 → 0 ≤ m ≤ 59 →
  time_of_day (string_of_list_ascii (dec2 h ++ ":"%char :: dec2 m)) = Some (h, m)
  ∧ (h ≤ 9 →
     time_of_day (string_of_list_ascii (digit_char h :: ":"%char :: dec2 m)) = Some (h, m))
  ∧ (m ≤ 9 →
     time_of_day (string_of_list_ascii (dec2 h ++ [":"%char; digit_char m])) = Some (h, m))
  ∧ (h ≤ 9 → m ≤ 9 →
     time_of_day (string_of_list_ascii [digit_char h; ":"%char; digit_char m]) = Some (h, m)).
Proof.
  intros Hh Hm.
  assert (Hall : forallb (λ h, forallb (λ m,
      bool_decide (time_of_day (string_of_list_ascii (dec2 h ++ ":"%char :: dec2 m))
                   = Some (h, m))
      && ((9 <? h) || bool_decide
            (time_of_day (string_of_list_ascii (digit_char h :: ":"%char :: dec2 m))
             = Some (h, m)))
      && ((9 <? m) || bool_decide
            (time_of_day (string_of_list_ascii (dec2 h ++ [":"%char; digit_char m]))
             = Some (h, m)))
      && ((9 <? h) || (9 <? m) || bool_decide
            (time_of_day (string_of_list_ascii [digit_char h; ":"%char; digit_char m])
             = Some (h, m))))
      (seqZ 0 60)) (seqZ 0 24) = true) by (vm_compute; reflexivity).
  rewrite forallb_forall in Hall.
  assert (Hh' : In h (seqZ 0 24)) by (apply list_elem_of_In, elem_of_seqZ; lia).
  specialize (Hall h Hh'). rewrite forallb_forall in Hall.
  assert (Hm' : In m (seqZ 0 60)) by (apply list_elem_of_In, elem_of_seqZ; lia).
  specialize (Hall m Hm').
  apply andb_prop in Hall as [Hall H4]. apply andb_prop in Hall as [Hall H3].
  apply andb_prop in Hall as [H1 H2].
  split; [by apply bool_decide_eq_true in H1|]. split; [|split].
  - intros Hle. apply orb_prop in H2 as [H2|H2]; [apply Z.ltb_lt in H2; lia|].
    by apply bool_decide_eq_true in H2.
  - intros Hle. apply orb_prop in H3 as [H3|H3]; [apply Z.ltb_lt in H3; lia|].
    by apply bool_decide_eq_true in H3.
  - intros Hle1 Hle2. apply orb_prop in H4 as [H4|H4].
    + apply orb_prop in H4 as [H4|H4]; apply Z.ltb_lt in H4; lia.
    + by apply bool_decide_eq_true in H4.
Qed.

Lemma time_of_day_spellings_witness :
  time_of_day "07:03" = Some (7, 3) ∧ time_of_day "7:3" = Some (7, 3).
Proof.
  destruct (time_of_day_spellings 7 3) as (H1 & _ & _ & H4); [lia|lia|].
  split; [exact H1|]. apply H4; lia.
Defined.

Lemma is_char_eq (c : ascii) (g : char) : is_char c g = true → g = [c].
Proof. destruct g as [|x [|? ?]]; try done. simpl. by intros ->%Ascii.eqb_eq. Qed.

Lemma is_char_digit (g : char) :
  is_char "2" g = true → is_digit g = true ∧ digit_val g = 2.
Proof. intros ->%is_char_eq. done. Qed.

Lemma re_H_shape (l r : list char) (h : Z) :
  (h, r) ∈ re_H l → ∃ hs, l = hs ++ r ∧ spelled h hs.
Proof.
  destruct l as [|a [|b l]]; cbn [re_H].
  - intros H. by apply not_elem_of_nil in H.
  - destruct (is_digit a) eqn:Ha; intros H; [|by apply not_elem_of_nil in H].
    apply list_elem_of_singleton in H. injection H as -> ->.
    exists [a]. split; [done|]. left. eauto.
  - rewrite !elem_of_app. intros [H|[H|H]].
    + destruct (_ && _) eqn:E in H; [|by apply not_elem_of_nil in H].
      apply list_elem_of_singleton in H. injection H as -> ->.
      apply andb_prop in E as [[Ha Ha']%is_char_digit Eb].
      apply in_range_val in Eb as [Eb _]; [|lia|lia].
      exists [a; b]. split; [done|]. right. exists a, b. rewrite Ha'. done.
    + destruct (_ && _) eqn:E in H; [|by apply not_elem_of_nil in H].
      apply list_elem_of_singleton in H. injection H as -> ->.
      apply andb_prop in E as [Ea Eb].
      apply in_range_val in Ea as [Ea _]; [|lia|lia].
      exists [a; b]. split; [done|]. right. eauto 10.
    + destruct (is_digit a) eqn:Ha; [|by apply not_elem_of_nil in H].
      apply list_elem_of_singleton in H. injection H as -> ->.
      exists [a]. split; [done|]. left. eauto.
Qed.

Lemma re_M_shape (l r : list char) (m : Z) :
  (m, r) ∈ re_M l → ∃ ms, l = ms ++ r ∧ spelled m ms.
Proof.
  destruct l as [|a [|b l]]; cbn [re_M].
  - intros H. by apply not_elem_of_nil in H.
  - destruct (is_digit a) eqn:Ha; intros H; [|by apply not_elem_of_nil in H].
    apply list_elem_of_singleton in H. injection H as -> ->.
    exists [a]. split; [done|]. left. eauto.
  - rewrite !elem_of_app. intros [H|H].
    + destruct (_ && _) eqn:E in H; [|by apply not_elem_of_nil in H].
      apply list_elem_of_singleton in H. injection H as -> ->.
      apply andb_prop in E as [Ea Eb].
      apply in_range_val in Ea as [Ea _]; [|lia|lia].
      exists [a; b]. split; [done|]. right. eauto 10.
    + destruct (is_digit a) eqn:Ha; [|by apply not_elem_of_nil in H].
      apply list_elem_of_singleton in H. injection H as -> ->.
      exists [a]. split; [done|]. left. eauto.
Qed.

(** Nothing else is read as a time: a text that parses is, once
    stripped, one or two decimal digits, a colon, and one or two decimal
    digits, and nothing more; the digits, of whatever script, are read
    by their values, and give an hour 0..23 and a minute 0..59. *)
Theorem time_of_day_accepts (t : string) (h m : Z) :
  time_of_day t = Some (h, m) →
  ∃ hs ms, chars (list_ascii_of_string (strip t)) = hs ++ [":"%char] :: ms
    ∧ strip t = string_of_list_ascii (concat hs ++ ":"%char :: concat ms)
    ∧ 0 ≤ h ≤ 23 ∧ spelled h hs
    ∧ 0 ≤ m ≤ 59 ∧ spelled m ms.
Proof.
  intros Ht. pose proof (time_of_day_bounds t h m Ht) as [Hhb Hmb]. revert Ht.
  unfold time_of_day, strptime_HM.
  destruct (head _) as [[[h' m'] [|]]|] eqn:E; try discriminate.
  intros [= -> ->]. apply head_Some_elem_of in E.
  unfold re_HM in E. apply list_elem_of_bind in E as ([h' r] & Hin & Hh).
  apply re_H_shape in Hh as (hs & Hl & Hhs).
  destruct r as [|c r]; [by apply not_elem_of_nil in Hin|].
  destruct (is_char ":" c) eqn:Hc; [|by apply not_elem_of_nil in Hin].
  apply is_char_eq in Hc as ->.
  apply list_elem_of_bind in Hin as ([m' r'] & Hin & Hm).
  apply list_elem_of_singleton in Hin. injection Hin as Eh Em Er.
  subst h' m' r'.
  apply re_M_shape in Hm as (ms & Hr & Hms).
  exists hs, ms. rewrite app_nil_r in Hr. subst r.
  split; [done|]. split; [|done].
  rewrite <- (string_of_list_ascii_of_string (strip t)) at 1. f_equal.
  rewrite <- (concat_chars (list_ascii_of_string (strip t))), Hl.
  by rewrite concat_app.
Qed.

Lemma time_of_day_accepts_witness :
  ∃ hs ms, strip " 9:05 " = string_of_list_ascii (concat hs ++ ":"%char :: concat ms)
    ∧ spelled 9 hs ∧ spelled 5 ms.
Proof.
  destruct (time_of_day_accepts " 9:05 " 9 5 eq_refl)
    as (hs & ms & _ & Hs & _ & Hhs & _ & Hms).
  exists hs, ms. split; [exact Hs|]. split; [exact Hhs|exact Hms].
Defined.

(** ** Whitespace around a time *)

(** Whitespace around a time does not count: a text padded with
    whitespace on either side, and the stripped text that [add_session]
    stores, are read as the same time, and give the same minutes. *)
Theorem minutes_between_padding (start end_ p1 p2 p3 p4 : string) :
  blank (list_ascii_of_string p1) → blank (list_ascii_of_string p2) →
  blank (list_ascii_of_string p3) → blank (list_ascii_of_string p4) →
  parse_time_hhmm (p1 +:+ start +:+ p2) = parse_time_hhmm start
  ∧ parse_time_hhmm (strip start) = parse_time_hhmm start
  ∧ minutes_between (p1 +:+ start +:+ p2) (p3 +:+ end_ +:+ p4) = minutes_between start end_
  ∧ minutes_between (strip start) (strip end_) = minutes_between start end_.
Proof.
  intros B1 B2 B3 B4.
  destruct (strip_spec start) as (_ & _ & Hpad1 & Hid1).
  destruct (strip_spec end_) as (_ & _ & Hpad2 & Hid2).
  assert (H1 : parse_time_hhmm (p1 +:+ start +:+ p2) = parse_time_hhmm start)
    by (unfold parse_time_hhmm, time_of_day; by rewrite Hpad1).
  assert (H2 : parse_time_hhmm (p3 +:+ end_ +:+ p4) = parse_time_hhmm end_)
    by (unfold parse_time_hhmm, time_of_day; by rewrite Hpad2).
  assert (H3 : parse_time_hhmm (strip start) = parse_time_hhmm start)
    by (unfold parse_time_hhmm, time_of_day; by rewrite Hid1).
  assert (H4 : parse_time_hhmm (strip end_) = parse_time_hhmm end_)
    by (unfold parse_time_hhmm, time_of_day; by rewrite Hid2).
  repeat split; try done; unfold minutes_between.
  - by rewrite H1, H2.
  - by rewrite H3, H4.
Qed.

Lemma minutes_between_padding_witness :
  minutes_between ("  " +:+ "10:00" +:+ " ") ("" +:+ "11:30" +:+ "   ") = Some 90.
Proof.
  refine (eq_trans
    (proj1 (proj2 (proj2 (minutes_between_padding "10:00" "11:30" "  " " " "" "   "
                            _ _ _ _))))
    eq_refl); repeat constructor.
Defined.

(** The way there and the way back make a day: for two different times
    of day the minutes from the first to the second and from the second
    to the first add up to 1440; for the same time both are 1440. *)
Theorem minutes_between_complement (start end_ : string) (h1 m1 h2 m2 : Z) :
  time_of_day start = Some (h1, m1) →
  time_of_day end_ = Some (h2, m2) →
  ∃ a b, minutes_between start end_ = Some a
    ∧ minutes_between end_ start = Some b
    ∧ ((h1, m1) ≠ (h2, m2) → a + b = 1440)
    ∧ ((h1, m1) = (h2, m2) → a = 1440 ∧ b = 1440).
Proof.
  intros H1 H2.
  rewrite (minutes_between_minutes _ _ _ _ _ _ H1 H2),
    (minutes_between_minutes _ _ _ _ _ _ H2 H1).
  pose proof (time_of_day_bounds _ _ _ H1). pose proof (time_of_day_bounds _ _ _ H2).
  eexists _, _. split; [reflexivity|]. split; [reflexivity|]. split.
  - intros Hne.
    assert (60 * h1 + m1 ≠ 60 * h2 + m2).
    { intros Heq. apply Hne. f_equal; lia. }
    destruct (Z.leb_spec (60 * h2 + m2) (60 * h1 + m1));
      destruct (Z.leb_spec (60 * h1 + m1) (60 * h2 + m2)); lia.
  - intros [= -> ->]. rewrite Z.leb_refl. lia.
Qed.

Lemma minutes_between_complement_witness :
  ∃ a b, minutes_between "22:15" "6:45" = Some a ∧ minutes_between "6:45" "22:15" = Some b
    ∧ a + b = 1440.
Proof.
  destruct (minutes_between_complement "22:15" "6:45" 22 15 6 45 eq_refl eq_refl)
    as (a & b & Ha & Hb & Hsum & _).
  exists a, b. split; [exact Ha|]. split; [exact Hb|]. apply Hsum. discriminate.
Defined.

(** ** Weekdays and date keys *)

(** The two weekday tables agree: the label [weekday_kr] takes from
    [WEEKDAY_MAP] is never missing and is the entry of [WEEK_ORDER] at
    the weekday number, Monday first; the day after a date has the next
    label, the day a week later the same one. *)
Theorem weekday_kr_week_order (d : date) :
  0 ≤ weekday d ≤ 6
  ∧ WEEKDAY_MAP !! weekday d = Some (weekday_kr d)
  ∧ WEEK_ORDER !! Z.to_nat (weekday d) = Some (weekday_kr d)
  ∧ (∀ d', toordinal d' = toordinal d + 1 → weekday d' = (weekday d + 1) `mod` 7)
  ∧ (∀ d', toordinal d' = toordinal d + 7 → weekday_kr d' = weekday_kr d).
Proof.
  pose proof (weekday_range d) as Hr. split; [done|].
  split; [apply weekday_kr_canonical|]. split; [|split].
  - unfold weekday_kr.
    assert (Hc : weekday d = 0 ∨ weekday d = 1 ∨ weekday d = 2 ∨ weekday d = 3
                 ∨ weekday d = 4 ∨ weekday d = 5 ∨ weekday d = 6) by lia.
    destruct Hc as [->|[->|[->|[->|[->|[->| ->]]]]]]; reflexivity.
  - intros d' Hd'. unfold weekday. rewrite Hd'.
    replace (toordinal d + 1 + 6) with (toordinal d + 6 + 1) by lia.
    rewrite Z.add_mod_idemp_l by lia. done.
  - intros d' Hd'. unfold weekday_kr, weekday. rewrite Hd'.
    replace (toordinal d + 7 + 6) with (toordinal d + 6 + 1 * 7) by lia.
    by rewrite Z.mod_add by lia.
Qed.

Lemma compare_digit_char (a b : Z) :
  Ascii.compare (digit_char a) (digit_char b) = (a `mod` 10 ?= b `mod` 10).
Proof.
  unfold Ascii.compare, digit_char.
  pose proof (Z.mod_pos_bound a 10 ltac:(lia)). pose proof (Z.mod_pos_bound b 10 ltac:(lia)).
  rewrite !N_ascii_embedding by lia.
  rewrite Z2N.inj_compare by lia. by rewrite Z.add_compare_mono_l.
Qed.

Lemma compare_by_digit (a b : Z) :
  (a ?= b) = lexc (a `div` 10 ?= b `div` 10) (a `mod` 10 ?= b `mod` 10).
Proof.
  pose proof (Z.div_mod a 10 ltac:(lia)). pose proof (Z.div_mod b 10 ltac:(lia)).
  pose proof (Z.mod_pos_bound a 10 ltac:(lia)). pose proof (Z.mod_pos_bound b 10 ltac:(lia)).
  destruct (Z.compare_spec (a `div` 10) (b `div` 10)) as [Hq|Hq|Hq]; simpl.
  - destruct (Z.compare_spec (a `mod` 10) (b `mod` 10));
      [apply Z.compare_eq_iff|apply Z.compare_lt_iff|apply Z.compare_gt_iff]; lia.
  - apply Z.compare_lt_iff. lia.
  - apply Z.compare_gt_iff. lia.
Qed.

Lemma lexc_assoc (c1 c2 c3 : comparison) : lexc (lexc c1 c2) c3 = lexc c1 (lexc c2 c3).
Proof. by destruct c1. Qed.

Lemma compare_String (c1 c2 : ascii) (s1 s2 : string) :
  String.compare (String c1 s1) (String c2 s2)
  = lexc (Ascii.compare c1 c2) (String.compare s1 s2).
Proof. simpl. by destruct (Ascii.compare c1 c2). Qed.

Lemma compare_dec2 (a b : Z) (s1 s2 : string) :
  0 ≤ a < 100 → 0 ≤ b < 100 →
  String.compare (String (digit_char (a `div` 10)) (String (digit_char a) s1))
                 (String (digit_char (b `div` 10)) (String (digit_char b) s2))
  = lexc (a ?= b) (String.compare s1 s2).
Proof.
  intros Ha Hb. rewrite !compare_String, !compare_digit_char, <- lexc_assoc.
  rewrite (Z.mod_small (a `div` 10)), (Z.mod_small (b `div` 10))
    by (split; [apply Z.div_pos; lia|apply Z.div_lt_upper_bound; lia]).
  by rewrite <- compare_by_digit.
Qed.

Lemma compare_dec4 (a b : Z) (s1 s2 : string) :
  0 ≤ a < 10000 → 0 ≤ b < 10000 →
  String.compare
    (String (digit_char (a `div` 1000)) (String (digit_char (a `div` 100))
       (String (digit_char (a `div` 10)) (String (digit_char a) s1))))
    (String (digit_char (b `div` 1000)) (String (digit_char (b `div` 100))
       (String (digit_char (b `div` 10)) (String (digit_char b) s2))))
  = lexc (a ?= b) (String.compare s1 s2).
Proof.
  intros Ha Hb.
  replace (a `div` 1000) with ((a `div` 100) `div` 10) by (rewrite Z.div_div by lia; done).
  replace (b `div` 1000) with ((b `div` 100) `div` 10) by (rewrite Z.div_div by lia; done).
  rewrite (compare_dec2 (a `div` 100) (b `div` 100))
    by (split; [apply Z.div_pos; lia|apply Z.div_lt_upper_bound; lia]).
  rewrite !compare_String, !compare_digit_char.
  rewrite (compare_by_digit a b), (compare_by_digit (a `div` 10) (b `div` 10)).
  rewrite !Z.div_div by lia. change (10 * 10) with 100.
  by rewrite !lexc_assoc.
Qed.

Lemma days_in_month_le (y m : Z) : days_in_month y m ≤ 31.
Proof.
  unfold days_in_month. destruct (_ && _); [lia|].
  destruct (Z.to_nat m) as [|[|[|[|[|[|[|[|[|[|[|[|[|[|]]]]]]]]]]]]]]; simpl; lia.
Qed.

(** The keys of the store order as the dates do: for dates of a year
    with four digits, comparing the [%Y-%m-%d] texts is comparing the
    dates, so different dates have different keys and
    [sorted(days.keys())] is the order of the calendar. *)
Theorem strftime_ymd_order (a b : date) :
  valid_date a → valid_date b → 1000 ≤ year a → 1000 ≤ year b →
  String.compare (strftime_ymd a) (strftime_ymd b) = date_cmp a b
  ∧ (str_le (strftime_ymd a) (strftime_ymd b) ↔ date_le a b = true)
  ∧ (strftime_ymd a = strftime_ymd b → a = b).
Proof.
  intros (Hya & Hma & Hda) (Hyb & Hmb & Hdb) _ _.
  pose proof (days_in_month_le (year a) (month a)).
  pose proof (days_in_month_le (year b) (month b)).
  assert (Hcmp : String.compare (strftime_ymd a) (strftime_ymd b) = date_cmp a b).
  { unfold strftime_ymd, dec4, dec2. cbn [app string_of_list_ascii].
    rewrite compare_dec4 by lia. rewrite compare_String.
    rewrite compare_dec2 by lia. rewrite compare_String.
    rewrite compare_dec2 by lia.
    unfold date_cmp. cbn.
    destruct (year a ?= year b), (month a ?= month b), (day a ?= day b); reflexivity. }
  split; [exact Hcmp|]. split.
  - unfold str_le, String.leb, date_le. by rewrite Hcmp.
  - intros Heq. rewrite Heq in Hcmp.
    assert (Hrefl : ∀ s, String.compare s s = Eq).
    { intros s. induction s as [|c s IH]; [done|]. simpl.
      unfold Ascii.compare. by rewrite N.compare_refl. }
    rewrite Hrefl in Hcmp. symmetry in Hcmp. unfold date_cmp in Hcmp.
    destruct (Z.compare_spec (year a) (year b)) as [Hy|?|?]; try discriminate.
    destruct (Z.compare_spec (month a) (month b)) as [Hm|?|?]; try discriminate.
    apply Z.compare_eq in Hcmp. destruct a, b. simpl in *. by subst.
Qed.

Lemma strftime_ymd_order_witness :
  str_le (strftime_ymd (Date 2023 12 31)) (strftime_ymd (Date 2024 1 2)).
Proof.
  apply (strftime_ymd_order (Date 2023 12 31) (Date 2024 1 2));
    [repeat split; by vm_compute| repeat split; by vm_compute| by vm_compute
    | by vm_compute | reflexivity].
Defined.

(** ** The order of keys *)

Lemma str_le_trans (a b c : string) : str_le a b → str_le b c → str_le a c.
Proof.
  unfold str_le, String.leb. revert b c.
  induction a as [|x a IH]; intros [|y b] [|z c]; simpl; try done.
  unfold Ascii.compare.
  destruct (N.compare_spec (N_of_ascii x) (N_of_ascii y)) as [Hxy|Hxy|Hxy];
    destruct (N.compare_spec (N_of_ascii y) (N_of_ascii z)) as [Hyz|Hyz|Hyz];
    destruct (N.compare_spec (N_of_ascii x) (N_of_ascii z)) as [Hxz|Hxz|Hxz];
    try done; try lia.
  apply IH.
Qed.

#[local] Instance str_le_transitive : Transitive str_le.
Proof. intros a b c. apply str_le_trans. Qed.

#[local] Instance str_le_total : Total str_le.
Proof. intros a b. apply String.leb_total. Qed.

#[local] Instance str_le_antisymm : AntiSymm (=) str_le.
Proof. intros a b. apply String.leb_antisym. Qed.

Lemma sorted_keys_sorted (m : gmap string Day) : StronglySorted str_le (sorted_keys m).
Proof. unfold sorted_keys. apply StronglySorted_merge_sort; apply _. Qed.

Lemma sorted_keys_NoDup (m : gmap string Day) : NoDup (sorted_keys m).
Proof. unfold sorted_keys. rewrite merge_sort_Permutation. apply NoDup_elements. Qed.

Lemma StronglySorted_filter {A} (R : relation A) (P : A → Prop) `{!∀ x, Decision (P x)}
    (l : list A) :
  StronglySorted R l → StronglySorted R (filter P l).
Proof.
  induction 1 as [|x l _ IH Hx]; [constructor|].
  rewrite filter_cons. destruct (decide (P x)); [|done].
  constructor; [done|]. apply Forall_forall. intros y [_ Hy]%list_elem_of_filter.
  by eapply Forall_forall in Hx.
Qed.

(** The sorted keys of a map with fewer keys are the sorted keys of the
    larger map without the missing ones. *)
Lemma sorted_keys_subset (m m' : gmap string Day) :
  dom m' ⊆ dom m →
  sorted_keys m' = filter (λ k, k ∈ dom m') (sorted_keys m).
Proof.
  intros Hsub. apply (StronglySorted_unique str_le).
  - apply sorted_keys_sorted.
  - apply StronglySorted_filter, sorted_keys_sorted.
  - apply NoDup_Permutation.
    + apply sorted_keys_NoDup.
    + apply NoDup_filter, sorted_keys_NoDup.
    + intros k. rewrite list_elem_of_filter, !elem_of_sorted_keys, <- !elem_of_dom.
      split; [|tauto]. intros Hk. split; [done|]. by apply Hsub.
Qed.

Lemma bind_filter_nil {A B} (P : A → Prop) `{!∀ x, Decision (P x)} (f : A → list B)
    (l : list A) :
  (∀ x, x ∈ l → ¬ P x → f x = []) → filter P l ≫= f = l ≫= f.
Proof.
  induction l as [|x l IH]; intros Hnil; [done|].
  rewrite filter_cons, bind_cons. destruct (decide (P x)) as [|Hn].
  - rewrite bind_cons, IH; [done|]. intros y Hy. apply Hnil. by right.
  - rewrite (Hnil x) by (done || left). rewrite IH; [done|].
    intros y Hy. apply Hnil. by right.
Qed.

Lemma filter_bind {A B} (P : B → Prop) `{!∀ x, Decision (P x)} (f : A → list B)
    (l : list A) :
  filter P (l ≫= f) = l ≫= (λ x, filter P (f x)).
Proof.
  induction l as [|x l IH]; [done|]. by rewrite !bind_cons, filter_app, IH.
Qed.

(** The rows of one date, in the order the sessions were added. *)
Lemma flat_rows_of_date (store : Store) (ds : string) :
  filter (λ r, r_date r = ds) (store_to_flat_rows store) = rows_of_day (days store) ds.
Proof.
  unfold store_to_flat_rows. rewrite filter_bind.
  assert (Hrows : ∀ k, filter (λ r, r_date r = ds) (rows_of_day (days store) k)
                       = if decide (k = ds) then rows_of_day (days store) ds else []).
  { intros k. unfold rows_of_day. destruct (days store !! k) as [day|] eqn:E.
    - destruct (decide (k = ds)) as [->|Hne].
      + rewrite E. apply filter_all, Forall_fmap, Forall_forall. by intros s _.
      + apply filter_none, Forall_fmap, Forall_forall. by intros s _.
    - destruct (decide (k = ds)) as [->|Hne]; [by rewrite E|done]. }
  erewrite list_bind_ext; [|intros k; apply Hrows|reflexivity].
  pose proof (sorted_keys_NoDup (days store)) as Hnd.
  assert (Hz : ∀ l : list string, ds ∉ l →
            l ≫= (λ k, if decide (k = ds) then rows_of_day (days store) ds else []) = []).
  { intros l Hl'. induction l as [|k l IH]; [done|].
    rewrite bind_cons, decide_False, IH; [done| |].
    - intros Hk. apply Hl'. by right.
    - intros ->. apply Hl'. by left. }
  destruct (decide (ds ∈ sorted_keys (days store))) as [Hin|Hnin].
  - apply list_elem_of_split in Hin as (l1 & l2 & Hl). rewrite Hl in *.
    apply NoDup_app in Hnd as (_ & Hd1 & Hnd2). apply NoDup_cons in Hnd2 as [Hd2 _].
    rewrite bind_app, bind_cons, decide_True by done.
    rewrite (Hz l1), (Hz l2), app_nil_r; [done|done|].
    intros H1. by apply (Hd1 ds H1); left.
  - rewrite Hz by done. unfold rows_of_day.
    destruct (days store !! ds) eqn:E; [|done].
    destruct Hnin. apply elem_of_sorted_keys. eauto.
Qed.

(** ** The flat rows *)

Lemma rows_of_day_date (m : gmap string Day) (k : string) (r : Row) :
  r ∈ rows_of_day m k → r_date r = k.
Proof.
  unfold rows_of_day. destruct (m !! k); [|by intros ?%not_elem_of_nil].
  by intros (s & -> & _)%list_elem_of_fmap.
Qed.

Lemma str_le_refl (a : string) : str_le a a.
Proof. by destruct (String.leb_total a a). Qed.

(** [store_to_flat_rows] lists the dates in ascending order of their
    keys and, within a date, the sessions in the order they were added,
    each with the key and the weekday of its bucket; an empty store has
    no rows. *)
Theorem store_to_flat_rows_order (store : Store) :
  StronglySorted str_le (r_date <$> store_to_flat_rows store)
  ∧ (∀ ds day, days store !! ds = Some day →
       filter (λ r, r_date r = ds) (store_to_flat_rows store)
       = flat_row ds (weekday_of day) <$> sessions day)
  ∧ (∀ ds, days store !! ds = None →
       filter (λ r, r_date r = ds) (store_to_flat_rows store) = [])
  ∧ (days store = ∅ → store_to_flat_rows store = []).
Proof.
  split; [|split; [|split]].
  - unfold store_to_flat_rows.
    pose proof (sorted_keys_sorted (days store)) as Hs.
    induction Hs as [|k l _ IH Hk]; [constructor|].
    rewrite bind_cons, fmap_app. apply StronglySorted_app_2; [| |exact IH].
    + intros x1 x2 (r1 & -> & Hr1)%list_elem_of_fmap (r2 & -> & Hr2)%list_elem_of_fmap.
      apply rows_of_day_date in Hr1 as ->.
      apply list_elem_of_bind in Hr2 as (k2 & Hr2 & Hk2).
      apply rows_of_day_date in Hr2 as ->.
      by eapply Forall_forall in Hk.
    + assert (Hall : Forall (λ r, r_date r = k) (rows_of_day (days store) k))
        by (apply Forall_forall; intros r; apply rows_of_day_date).
      induction Hall as [|r rs Hr Hall IHr]; [constructor|].
      rewrite fmap_cons. constructor; [done|].
      apply Forall_fmap. eapply Forall_impl; [exact Hall|].
      intros r' Hr'. simpl. rewrite Hr, Hr'. apply str_le_refl.
  - intros ds day E. rewrite flat_rows_of_date. unfold rows_of_day. by rewrite E.
  - intros ds E. rewrite flat_rows_of_date. unfold rows_of_day. by rewrite E.
  - intros E. unfold store_to_flat_rows, sorted_keys. rewrite E, dom_empty_L, elements_empty.
    reflexivity.
Qed.

Lemma store_to_flat_rows_order_witness :
  store_to_flat_rows sample_store
  = [flat_row "2024-03-04" "월" (sample_session "a" 60 30 2);
     flat_row "2024-03-05" "화" (sample_session "b" 30 30 1);
     flat_row "2024-03-05" "화" (sample_session "c" 45 10 0)]
  ∧ filter (λ r, r_date r = "2024-03-05") (store_to_flat_rows sample_store)
    = [flat_row "2024-03-05" "화" (sample_session "b" 30 30 1);
       flat_row "2024-03-05" "화" (sample_session "c" 45 10 0)].
Proof.
  split; [reflexivity|].
  destruct (store_to_flat_rows_order sample_store) as (_ & Hday & _).
  exact (Hday "2024-03-05" {| weekday_of := "화";
                              sessions := [sample_session "b" 30 30 1;
                                           sample_session "c" 45 10 0] |} eq_refl).
Defined.

(** ** Deleting *)

Lemma set_sessions_twice (l1 l2 : list Session) (day : Day) :
  set_sessions l2 (set_sessions l1 day) = set_sessions l2 day.
Proof. done. Qed.

(** The bucket of a date after [delete_session], by the records it
    keeps. *)
Lemma delete_session_lookup_keep (session_id : string) (store : Store) (ds : string) :
  days (delete_session session_id store) !! ds =
  day ← days store !! ds;
  let kept := filter (λ s, s_id s ≠ session_id) (sessions day) in
  if decide (sessions day ≠ [] ∧ kept = []) then None else Some (set_sessions kept day).
Proof.
  rewrite delete_session_lookup. destruct (days store !! ds) as [day|]; [|done]. simpl.
  destruct (emptied session_id day) eqn:Hem.
  - apply emptied_spec in Hem as [Hne Hall]. rewrite decide_True; [done|].
    split; [done|]. apply filter_none. eapply Forall_impl; [exact Hall|]. naive_solver.
  - rewrite decide_False; [done|]. intros [Hne Hnil].
    assert (emptied session_id day = true); [|congruence].
    unfold emptied, sweep. cbn. rewrite Hnil. by destruct (sessions day).
Qed.

Lemma delete_session_twice_lookup (a b : string) (store : Store) (ds : string) :
  days (delete_session b (delete_session a store)) !! ds =
  day ← days store !! ds;
  let kept := filter (λ s, s_id s ≠ b) (filter (λ s, s_id s ≠ a) (sessions day)) in
  if decide (sessions day ≠ [] ∧ kept = []) then None else Some (set_sessions kept day).
Proof.
  rewrite delete_session_lookup_keep, delete_session_lookup_keep.
  destruct (days store !! ds) as [day|]; [|done]. cbn [mbind option_bind].
  cbv zeta.
  destruct (decide (sessions day ≠ [] ∧ filter (λ s, s_id s ≠ a) (sessions day) = []))
    as [[Hne Hnil]|Hn]; cbn [mbind option_bind].
  - rewrite Hnil. rewrite decide_True; done.
  - cbn [sessions set_sessions].
    destruct (decide (filter (λ s, s_id s ≠ a) (sessions day) ≠ []
                      ∧ filter (λ s, s_id s ≠ b) (filter (λ s, s_id s ≠ a) (sessions day)) = []))
      as [[Hne Hnil]|Hn'].
    + rewrite decide_True; [done|]. split; [|done]. intros E. rewrite E in Hne. done.
    + rewrite decide_False; [done|]. intros [Hne Hnil]. apply Hn'. split; [|done].
      intros E. apply Hn. done.
Qed.

Lemma filter_filter_comm {A} (P Q : A → Prop) `{!∀ x, Decision (P x)} `{!∀ x, Decision (Q x)}
    (l : list A) :
  filter P (filter Q l) = filter Q (filter P l).
Proof.
  induction l as [|x l IH]; [done|].
  rewrite !filter_cons. destruct (decide (Q x)), (decide (P x));
    rewrite ?filter_cons, ?decide_True, ?decide_False by done; by rewrite IH.
Qed.

Lemma filter_filter_same {A} (P : A → Prop) `{!∀ x, Decision (P x)} (l : list A) :
  filter P (filter P l) = filter P l.
Proof.
  apply filter_all, Forall_forall. by intros x [? _]%list_elem_of_filter.
Qed.

(** Deleting is idempotent, deletions commute, and after a deletion no
    record of the store has the id, in any bucket. *)
Theorem delete_session_algebra (a b : string) (store : Store) :
  delete_session a (delete_session a store) = delete_session a store
  ∧ delete_session a (delete_session b store) = delete_session b (delete_session a store)
  ∧ (∀ ds day s, days (delete_session a store) !! ds = Some day →
                 s ∈ sessions day → s_id s ≠ a).
Proof.
  split; [|split].
  - apply store_eq, map_eq. intros ds.
    rewrite delete_session_twice_lookup, delete_session_lookup_keep.
    destruct (days store !! ds) as [day|]; [|done]. cbn [mbind option_bind]. cbv zeta.
    by rewrite filter_filter_same.
  - apply store_eq, map_eq. intros ds. rewrite !delete_session_twice_lookup.
    destruct (days store !! ds) as [day|]; [|done]. cbn [mbind option_bind]. cbv zeta.
    by rewrite (filter_filter_comm (λ s, s_id s ≠ a)).
  - intros ds day s Hl Hs. rewrite delete_session_lookup_keep in Hl.
    destruct (days store !! ds) as [day0|]; [|done]. cbn [mbind option_bind] in Hl.
    cbv zeta in Hl. destruct (decide _); [done|]. injection Hl as <-.
    cbn in Hs. by apply list_elem_of_filter in Hs as [? _].
Qed.

Lemma filter_flat_row (session_id k wd : string) (l : list Session) :
  filter (λ r, r_id r ≠ session_id) (flat_row k wd <$> l)
  = flat_row k wd <$> filter (λ s, s_id s ≠ session_id) l.
Proof.
  induction l as [|s l IH]; [done|].
  rewrite fmap_cons, !filter_cons. cbn [r_id flat_row].
  destruct (decide (s_id s ≠ session_id)); [rewrite fmap_cons|]; by rewrite IH.
Qed.

(** The rows after a deletion are the rows before it without those of
    the id, in the same order: every record with the id goes, whatever
    its bucket, and nothing else changes. *)
Theorem delete_session_rows (session_id : string) (store : Store) :
  store_to_flat_rows (delete_session session_id store)
  = filter (λ r, r_id r ≠ session_id) (store_to_flat_rows store).
Proof.
  set (m := days store). set (m' := days (delete_session session_id store)).
  assert (Hrows : ∀ k, rows_of_day m' k
                       = filter (λ r, r_id r ≠ session_id) (rows_of_day m k)).
  { intros k. unfold rows_of_day, m', m. rewrite delete_session_lookup_keep.
    destruct (days store !! k) as [day|]; [|done]. cbn [mbind option_bind]. cbv zeta.
    rewrite filter_flat_row. destruct (decide _) as [[_ ->]|]; done. }
  assert (Hsub : dom m' ⊆ dom m).
  { intros k [day' Hk]%elem_of_dom. apply elem_of_dom. unfold m', m in *.
    rewrite delete_session_lookup_keep in Hk.
    destruct (days store !! k); [eauto|done]. }
  unfold store_to_flat_rows. fold m m'.
  rewrite (sorted_keys_subset m m' Hsub), filter_bind.
  rewrite bind_filter_nil.
  - apply list_bind_ext; [exact Hrows|done].
  - intros k _ Hk. unfold rows_of_day. destruct (m' !! k) eqn:E; [|done].
    destruct Hk. apply elem_of_dom. eauto.
Qed.

(** ** Adding *)

(** A call of [add_session] with parseable times touches the bucket of
    its date and nothing else: the other buckets are as before, an
    existing bucket keeps its weekday and its records and gets the new
    one at the end, a missing bucket is created with the weekday of the
    date and the new record alone. *)
Theorem add_session_frame (d : date) (subject start end_ : string) (pause focused h : Z)
    (now : string) (store : Store) (dur : Z) :
  minutes_between start end_ = Some dur →
  let ds := strftime_ymd d in
  let sess := new_session ds subject start end_ dur pause focused h now in
  ∃ store',
    add_session d subject start end_ pause focused h now store = Returned store'
    ∧ (∀ k, k ≠ ds → days store' !! k = days store !! k)
    ∧ (∀ day, days store !! ds = Some day →
         days store' !! ds
         = Some {| weekday_of := weekday_of day; sessions := sessions day ++ [sess] |})
    ∧ (days store !! ds = None →
         days store' !! ds = Some {| weekday_of := weekday_kr d; sessions := [sess] |})
    ∧ dom (days store') = {[ds]} ∪ dom (days store).
Proof.
  intros Hdur ds sess. eexists. split; [by apply add_session_Returned|].
  fold ds sess. cbn [days]. split; [|split; [|split]].
  - intros k Hk. by rewrite lookup_insert_ne.
  - intros day E. by rewrite lookup_insert_eq, E.
  - intros E. by rewrite lookup_insert_eq, E.
  - apply dom_insert_L.
Qed.

Lemma add_session_frame_witness :
  ∃ store',
    add_session (Date 2024 3 5) "영어" "20:00" "21:00" 0 40 11 "2024-03-05 21:00" sample_store
    = Returned store'
    ∧ days store' !! "2024-03-04" = days sample_store !! "2024-03-04"
    ∧ (sessions <$> days store' !! "2024-03-05")
      = Some [sample_session "b" 30 30 1; sample_session "c" 45 10 0;
              new_session "2024-03-05" "영어" "20:00" "21:00" 60 0 40 11
                "2024-03-05 21:00"].
Proof.
  destruct (add_session_frame (Date 2024 3 5) "영어" "20:00" "21:00" 0 40 11
              "2024-03-05 21:00" sample_store 60 eq_refl)
    as (store' & Hadd & Hframe & Hold & _).
  exists store'. split; [exact Hadd|]. split.
  - apply Hframe. discriminate.
  - exact (f_equal (fmap sessions)
             (Hold {| weekday_of := "화";
                      sessions := [sample_session "b" 30 30 1;
                                   sample_session "c" 45 10 0] |} eq_refl)).
Defined.

Lemma rows_unchanged_by_empty_bucket (m : gmap string Day) (ds wd : string) :
  m !! ds = None →
  store_to_flat_rows {| days := <[ds := {| weekday_of := wd; sessions := [] |}]> m |}
  = store_to_flat_rows {| days := m |}.
Proof.
  intros E. unfold store_to_flat_rows. cbn [days].
  set (m' := <[ds := {| weekday_of := wd; sessions := [] |}]> m).
  assert (Hrows : ∀ k, rows_of_day m' k = rows_of_day m k).
  { intros k. unfold rows_of_day, m'. destruct (decide (ds = k)) as [<-|Hne].
    - by rewrite lookup_insert_eq, E.
    - by rewrite lookup_insert_ne. }
  assert (Hsub : dom m ⊆ dom m') by (unfold m'; rewrite dom_insert_L; apply union_subseteq_r).
  rewrite (sorted_keys_subset m' m Hsub), bind_filter_nil.
  - apply list_bind_ext; [exact Hrows|done].
  - intros k _ Hk. unfold rows_of_day. destruct (m !! k) eqn:Ek; [|done].
    destruct Hk. apply elem_of_dom. eauto.
Qed.

(** A call of [add_session] with a time that does not parse raises
    after it has looked at the bucket: a store that has the date is left
    as it was, a store that has not is left with an empty bucket for it.
    The rows are the same either way, and no deletion removes the empty
    bucket. *)
Theorem add_session_raises (d : date) (subject start end_ : string) (pause focused h : Z)
    (now : string) (store : Store) :
  minutes_between start end_ = None →
  let ds := strftime_ymd d in
  ∃ store',
    add_session d subject start end_ pause focused h now store = Raised store'
    ∧ (is_Some (days store !! ds) → store' = store)
    ∧ (days store !! ds = None →
         days store'
         = <[ds := {| weekday_of := weekday_kr d; sessions := [] |}]> (days store)
         ∧ store' ≠ store
         ∧ ∀ session_id,
             days (delete_session session_id store') !! ds
             = Some {| weekday_of := weekday_kr d; sessions := [] |})
    ∧ store_to_flat_rows store' = store_to_flat_rows store.
Proof.
  intros Hnone ds. unfold add_session. rewrite Hnone. fold ds.
  eexists. split; [reflexivity|].
  destruct (decide (is_Some (days store !! ds))) as [Hs|Hn].
  - split; [intros _; by destruct store|]. split; [|by destruct store].
    intros E. rewrite E in Hs. by destruct Hs.
  - assert (E : days store !! ds = None) by (by apply eq_None_not_Some).
    split; [intros Hs; done|]. split.
    + intros _. split; [done|]. split.
      * intros Heq. apply (f_equal (λ s, days s !! ds)) in Heq.
        cbn [days] in Heq. rewrite lookup_insert_eq, E in Heq. done.
      * intros session_id. rewrite delete_session_lookup_keep. cbn [days].
        rewrite lookup_insert_eq. cbn. rewrite decide_False; [done|]. by intros [? _].
    + destruct store as [m]. by apply rows_unchanged_by_empty_bucket.
Qed.

Lemma add_session_raises_witness :
  ∃ store',
    add_session (Date 2024 3 6) "수학" "25:00" "11:00" 0 30 5 "2024-03-06 11:00" sample_store
    = Raised store'
    ∧ store' ≠ sample_store
    ∧ store_to_flat_rows store' = store_to_flat_rows sample_store.
Proof.
  destruct (add_session_raises (Date 2024 3 6) "수학" "25:00" "11:00" 0 30 5
              "2024-03-06 11:00" sample_store eq_refl)
    as (store' & Hadd & _ & Hnew & Hrows).
  exists store'. split; [exact Hadd|]. split; [|exact Hrows].
  by destruct (Hnew eq_refl) as (_ & Hne & _).
Defined.

(** Deleting the record just added gives the store back, bucket
    included, when no record of the store had the identifier and the
    bucket of the date was not an empty one. *)
Theorem add_then_delete (d : date) (subject start end_ : string) (pause focused h : Z)
    (now : string) (store store' : Store) :
  (∀ ds day s, days store !! ds = Some day → s ∈ sessions day →
               s_id s ≠ session_id (strftime_ymd d) start h) →
  (∀ day, days store !! strftime_ymd d = Some day → sessions day ≠ []) →
  add_session d subject start end_ pause focused h now store = Returned store' →
  delete_session (session_id (strftime_ymd d) start h) store' = store.
Proof.
  intros Hfresh Hne Hadd.
  destruct (minutes_between start end_) as [dur|] eqn:Hdur;
    [|unfold add_session in Hadd; rewrite Hdur in Hadd; discriminate].
  rewrite (add_session_Returned _ _ _ _ _ _ _ _ _ _ Hdur) in Hadd. injection Hadd as <-.
  set (ds := strftime_ymd d) in *. set (sid := session_id ds start h) in *.
  assert (Hkeep : ∀ k day, days store !! k = Some day →
            filter (λ s, s_id s ≠ sid) (sessions day) = sessions day).
  { intros k day E. apply filter_all, Forall_forall. intros s Hs. by eapply Hfresh. }
  assert (Hnew : filter (λ s, s_id s ≠ sid)
                   [new_session ds subject start end_ dur pause focused h now] = []).
  { rewrite filter_cons_False; [done|]. cbn. by intros Hn. }
  apply store_eq, map_eq. intros k. rewrite delete_session_lookup_keep. cbn [days].
  destruct (decide (ds = k)) as [<-|Hk].
  - rewrite lookup_insert_eq. cbn [mbind option_bind]. cbv zeta. cbn [sessions set_sessions].
    rewrite filter_app, Hnew, app_nil_r.
    destruct (days store !! ds) as [day|] eqn:E; cbn [default from_option]; unfold id.
    + rewrite (Hkeep ds day E). rewrite decide_False.
      * by destruct day.
      * intros [_ Hnil]. by apply (Hne day).
    + cbn. rewrite decide_True; done.
  - rewrite lookup_insert_ne by done.
    destruct (days store !! k) as [day|] eqn:E; [|done].
    cbn [mbind option_bind]. cbv zeta. rewrite (Hkeep k day E).
    rewrite decide_False; [by destruct day|]. intros [? ?]. done.
Qed.

Lemma add_then_delete_witness :
  ∃ store',
    add_session (Date 2024 3 6) "수학" "09:00" "10:00" 0 30 5 "2024-03-06 10:00" init_store
    = Returned store'
    ∧ days store' ≠ ∅
    ∧ delete_session (session_id "2024-03-06" "09:00" 5) store' = init_store.
Proof.
  eexists. split; [|split].
  - exact (add_session_Returned (Date 2024 3 6) "수학" "09:00" "10:00" 0 30 5
             "2024-03-06 10:00" init_store 60 eq_refl).
  - cbn [days]. apply insert_non_empty.
  - apply (add_then_delete (Date 2024 3 6) "수학" "09:00" "10:00" 0 30 5
             "2024-03-06 10:00" init_store).
    + intros ds day s Hl. discriminate.
    + intros day Hl. discriminate.
    + exact (add_session_Returned (Date 2024 3 6) "수학" "09:00" "10:00" 0 30 5
               "2024-03-06 10:00" init_store 60 eq_refl).
Defined.

(** ** The engine on rearranged and joined collections *)

Lemma col_sum_Permutation (l l' : list Z) : l ≡ₚ l' → col_sum l = col_sum l'.
Proof.
  unfold col_sum. induction 1 as [|x l l' _ IH|x y l|l l' l'' _ IH1 _ IH2]; simpl; lia.
Qed.

Lemma compute_kpis_cons (r : Row) (df : list Row) :
  compute_kpis (r :: df) =
  let all := r :: df in
  let total := col_sum (r_duration_min <$> all) in
  let focused := col_sum (focused_clamped <$> all) in
  let pause := col_sum (r_pause_count <$> all) in
  let ratio := (if 0 <? total then inject_Z focused / inject_Z total else 0)%Q in
  Some {| total := total; focused := focused; pause := pause; ratio := ratio;
          avg_focus := (ratio * 5)%Q;
          pause_rate := (if 0 <? total then inject_Z pause / (inject_Z total / 60) else 0)%Q;
          session_count := Z.of_nat (length all) |}.
Proof. reflexivity. Qed.

(** The order of the rows does not matter to the engine nor to the
    weekday table: a rearranged collection, such as the list sorted for
    display, gives the same summary and the same table. *)
Theorem compute_kpis_Permutation (df df' : list Row) :
  df ≡ₚ df' → compute_kpis df = compute_kpis df' ∧ by_w df = by_w df'.
Proof.
  intros Hp. split.
  - destruct df as [|r df], df' as [|r' df'].
    + done.
    + by apply Permutation_nil_cons in Hp.
    + symmetry in Hp. by apply Permutation_nil_cons in Hp.
    + rewrite !compute_kpis_cons. cbv zeta.
      rewrite (col_sum_Permutation _ _ (fmap_Permutation r_duration_min _ _ Hp)),
        (col_sum_Permutation _ _ (fmap_Permutation focused_clamped _ _ Hp)),
        (col_sum_Permutation _ _ (fmap_Permutation r_pause_count _ _ Hp)),
        (Permutation_length Hp).
      done.
  - destruct df as [|r df], df' as [|r' df'].
    + done.
    + by apply Permutation_nil_cons in Hp.
    + symmetry in Hp. by apply Permutation_nil_cons in Hp.
    + rewrite !by_w_Some by done. f_equal.
      rewrite !weekday_sums_entries. apply list_fmap_ext. intros _ w _. f_equal.
      apply col_sum_Permutation, fmap_Permutation. by apply filter_Permutation.
Qed.

Lemma compute_kpis_Permutation_witness :
  compute_kpis [sample_row "월" 60 30 2; sample_row "화" 30 30 1]
  = compute_kpis [sample_row "화" 30 30 1; sample_row "월" 60 30 2].
Proof.
  apply (compute_kpis_Permutation [sample_row "월" 60 30 2; sample_row "화" 30 30 1]
           [sample_row "화" 30 30 1; sample_row "월" 60 30 2]).
  apply perm_swap.
Defined.



(** ** Rows after an addition *)

Lemma sorted_keys_Permutation (m : gmap string Day) : sorted_keys m ≡ₚ (map_to_list m).*1.
Proof.
  apply NoDup_Permutation.
  - apply sorted_keys_NoDup.
  - apply NoDup_fst_map_to_list.
  - intros k. rewrite elem_of_sorted_keys, list_elem_of_fmap. split.
    + intros [day Hk]. exists (k, day). split; [done|]. by apply elem_of_map_to_list.
    + intros ([k' day] & -> & Hk%elem_of_map_to_list). eauto.
Qed.

Lemma flat_rows_Permutation (store : Store) :
  store_to_flat_rows store ≡ₚ map_to_list (days store) ≫= rows_of_entry.
Proof.
  unfold store_to_flat_rows. rewrite sorted_keys_Permutation.
  rewrite list_fmap_bind. rewrite (Forall_bind_ext _ rows_of_entry); [done|].
  apply Forall_forall. intros [k day] Hk%elem_of_map_to_list.
  unfold rows_of_day, rows_of_entry, compose. cbn. by rewrite Hk.
Qed.

(** After an addition the rows are the rows before it and the row of the
    new record: one row more, the duration, the clamped focus and the
    pauses of the new record added to the three sums. *)
Theorem add_session_rows (d : date) (subject start end_ : string) (pause focused h : Z)
    (now : string) (store : Store) (dur : Z) :
  minutes_between start end_ = Some dur →
  ∃ store' r,
    add_session d subject start end_ pause focused h now store = Returned store'
    ∧ store_to_flat_rows store' ≡ₚ store_to_flat_rows store ++ [r]
    ∧ length (store_to_flat_rows store') = S (length (store_to_flat_rows store))
    ∧ r_duration_min r = dur
    ∧ r_focused_min r = clamp focused 0 dur
    ∧ r_pause_count r = Z.max 0 pause
    ∧ col_sum (r_duration_min <$> store_to_flat_rows store')
      = col_sum (r_duration_min <$> store_to_flat_rows store) + dur
    ∧ col_sum (focused_clamped <$> store_to_flat_rows store')
      = col_sum (focused_clamped <$> store_to_flat_rows store) + clamp focused 0 dur
    ∧ col_sum (r_pause_count <$> store_to_flat_rows store')
      = col_sum (r_pause_count <$> store_to_flat_rows store) + Z.max 0 pause.
Proof.
  intros Hdur.
  pose proof (add_session_Returned d subject start end_ pause focused h now store dur Hdur)
    as Hadd. cbv zeta in Hadd.
  set (ds := strftime_ymd d) in *.
  set (sess := new_session ds subject start end_ dur pause focused h now) in *.
  set (old := default {| weekday_of := weekday_kr d; sessions := [] |} (days store !! ds))
    in *.
  set (r := flat_row ds (weekday_of old) sess).
  eexists _, r. split; [exact Hadd|].
  assert (Hperm : store_to_flat_rows
                    {| days := <[ds := set_sessions (sessions old ++ [sess]) old]> (days store) |}
                  ≡ₚ store_to_flat_rows store ++ [r]).
  { rewrite !flat_rows_Permutation. cbn [days].
    assert (Hnew : rows_of_entry (ds, set_sessions (sessions old ++ [sess]) old)
                   = rows_of_entry (ds, old) ++ [r]).
    { unfold rows_of_entry. cbn. by rewrite fmap_app. }
    destruct (days store !! ds) as [day|] eqn:E.
    - rewrite <- (insert_delete_eq (days store)).
      rewrite <- (insert_delete_id (days store) ds day E) at 2.
      rewrite !map_to_list_insert by apply lookup_delete_eq.
      rewrite !bind_cons, Hnew. cbn [default from_option]. unfold id.
      by rewrite <- !app_assoc, (Permutation_app_comm [r]).
    - rewrite map_to_list_insert by done. rewrite bind_cons, Hnew.
      unfold rows_of_entry at 1. cbn.
      apply Permutation_cons_append. }
  split; [exact Hperm|].
  assert (Hclamp : focused_clamped r = clamp focused 0 dur).
  { unfold focused_clamped, r. cbn. unfold clamp. lia. }
  split; [by rewrite Hperm, length_app, Nat.add_comm|].
  do 3 (split; [reflexivity|]).
  rewrite (col_sum_Permutation _ _ (fmap_Permutation r_duration_min _ _ Hperm)),
    (col_sum_Permutation _ _ (fmap_Permutation focused_clamped _ _ Hperm)),
    (col_sum_Permutation _ _ (fmap_Permutation r_pause_count _ _ Hperm)).
  rewrite !fmap_app, !col_sum_app. cbn [fmap list_fmap col_sum foldr].
  rewrite Hclamp. cbn. repeat split; lia.
Qed.

Lemma add_session_rows_witness :
  ∃ store',
    add_session (Date 2024 3 5) "영어" "20:00" "21:00" 3 90 11 "2024-03-05 21:00" sample_store
    = Returned store'
    ∧ length (store_to_flat_rows store') = 4%nat
    ∧ col_sum (r_duration_min <$> store_to_flat_rows store') = 195.
Proof.
  destruct (add_session_rows (Date 2024 3 5) "영어" "20:00" "21:00" 3 90 11
              "2024-03-05 21:00" sample_store 60 eq_refl)
    as (store' & r & Hadd & _ & Hlen & _ & _ & _ & Hsum & _).
  exists store'. split; [exact Hadd|]. split.
  - rewrite Hlen. reflexivity.
  - rewrite Hsum. reflexivity.
Defined.

(** ** What the reachable stores hold *)





(** ** The dashboard on a reachable store *)

Lemma col_sum_le_bound (b : Z) (l : list Z) :
  Forall (λ z, z ≤ b) l → col_sum l ≤ b * Z.of_nat (length l).
Proof.
  unfold col_sum. induction 1 as [|z l Hz _ IH]; [simpl; lia|].
  cbn [foldr length]. lia.
Qed.

(** On any non-empty selection of the rows of a reachable store the
    summary is in range: the ratio is in [0, 1], the score in [0, 5],
    the pause rate is not negative, and the total is positive and at
    most a day per session.  The clamp changes no record, so the focused
    minutes are the plain sum of the column, and the weekday table adds
    up to them. *)
Theorem reachable_kpis (store : Store) (df : list Row) (k : KPI) :
  reachable store →
  df ⊆ store_to_flat_rows store →
  compute_kpis df = Some k →
  (0 <= ratio k)%Q ∧ (ratio k <= 1)%Q
  ∧ (0 <= avg_focus k)%Q ∧ (avg_focus k <= 5)%Q
  ∧ (0 <= pause_rate k)%Q
  ∧ 0 < total k ≤ 1440 * session_count k
  ∧ 0 ≤ focused k ≤ total k
  ∧ focused k = col_sum (r_focused_min <$> df)
  ∧ ∃ t, by_w df = Some t ∧ col_sum t.*2 = focused k.
Proof.
  intros Hreach Hsub Hk.
  destruct (compute_kpis_Some df k Hk) as (Hne & Ht & Hf & Hp & Hr & Ha & Hpr & Hs).
  assert (Hrows : Forall (λ r, r_weekday r ∈ WEEK_ORDER
                               ∧ 1 ≤ r_duration_min r ≤ 1440
                               ∧ 0 ≤ r_focused_min r ≤ r_duration_min r
                               ∧ 0 ≤ r_pause_count r) df).
  { apply Forall_forall. intros r Hin. by apply (reachable_rows_ok store), Hsub. }
  assert (Hpos : 0 < total k).
  { rewrite Ht. apply col_sum_pos; [by destruct df|]. apply Forall_fmap.
    eapply Forall_impl; [exact Hrows|]. simpl. lia. }
  assert (Hfle : 0 ≤ focused k ≤ total k).
  { rewrite Hf, Ht. split; [apply focused_sum_nonneg|].
    apply focused_sum_le_total. eapply Forall_impl; [exact Hrows|]. simpl. lia. }
  assert (Hpn : 0 ≤ pause k).
  { rewrite Hp. apply col_sum_nonneg, Forall_fmap.
    eapply Forall_impl; [exact Hrows|]. simpl. lia. }
  assert (Hratio : (0 <= ratio k)%Q ∧ (ratio k <= 1)%Q).
  { rewrite Hr. apply Z.ltb_lt in Hpos as Hb. rewrite Hb. by apply Qdiv_bounds. }
  destruct Hratio as [Hr0 Hr1].
  split; [done|]. split; [done|]. split; [|split; [|split; [|split; [|split; [|split]]]]].
  - rewrite Ha. by apply Qmult_le_0_compat.
  - rewrite Ha. change 5%Q with (1 * 5)%Q at 2. by apply Qmult_le_compat_r.
  - rewrite Hpr. apply Z.ltb_lt in Hpos as Hb. rewrite Hb.
    unfold Qle, Qdiv, Qmult, Qinv. simpl.
    destruct (total k) as [|t|t] eqn:Et; try lia. simpl. nia.
  - split; [done|]. rewrite Ht, Hs, <- (length_fmap r_duration_min).
    apply col_sum_le_bound, Forall_fmap. eapply Forall_impl; [exact Hrows|]. simpl. lia.
  - done.
  - rewrite Hf. f_equal. apply list_fmap_ext. intros i r Hi.
    apply list_elem_of_lookup_2 in Hi. eapply Forall_forall in Hrows; [|exact Hi].
    unfold focused_clamped. apply clamp_id. lia.
  - exists (weekday_sums df). split; [by apply by_w_Some|].
    rewrite Hf, weekday_sums_total. rewrite filter_all; [done|].
    eapply Forall_impl; [exact Hrows|]. simpl. tauto.
Qed.

Lemma reachable_kpis_witness :
  ∃ store r k,
    add_session (Date 2024 3 4) "수학" "10:00" "11:30" 2 60 7 "2024-03-04 11:30" init_store
    = Returned store
    ∧ r ∈ store_to_flat_rows store
    ∧ compute_kpis [r] = Some k
    ∧ (ratio k <= 1)%Q ∧ ∃ t, by_w [r] = Some t ∧ col_sum t.*2 = focused k.
Proof.
  pose proof (add_session_Returned (Date 2024 3 4) "수학" "10:00" "11:30" 2 60 7
                "2024-03-04 11:30" init_store 90 eq_refl) as Hadd.
  cbv zeta in Hadd.
  match type of Hadd with _ = Returned ?s => set (store := s) in * end.
  set (sess := new_session (strftime_ymd (Date 2024 3 4)) "수학" "10:00" "11:30" 90 2 60 7
                 "2024-03-04 11:30").
  set (r := flat_row (strftime_ymd (Date 2024 3 4)) (weekday_kr (Date 2024 3 4)) sess).
  assert (Hr : r ∈ store_to_flat_rows store).
  { apply elem_of_store_to_flat_rows.
    exists (strftime_ymd (Date 2024 3 4)),
      {| weekday_of := weekday_kr (Date 2024 3 4); sessions := [sess] |}, sess.
    split; [apply lookup_insert_eq|]. split; [apply list_elem_of_here|done]. }
  exists store, r. eexists. split; [exact Hadd|]. split; [exact Hr|].
  split; [apply compute_kpis_cons|].
  refine (let H := reachable_kpis store [r] _ _ _ (compute_kpis_cons r []) in
          conj (proj1 (proj2 H)) (proj2 (proj2 (proj2 (proj2 (proj2 (proj2
            (proj2 (proj2 H)))))))));
    [eapply reach_add; [apply reach_init|exact Hadd]|].
  intros x ->%list_elem_of_singleton. exact Hr.
Defined.

(** ** The date range *)

Lemma date_le_trans (a b c : date) :
  date_le a b = true → date_le b c = true → date_le a c = true.
Proof.
  unfold date_le, date_cmp.
  destruct (Z.compare_spec (year a) (year b)), (Z.compare_spec (year b) (year c)),
    (Z.compare_spec (year a) (year c)); try done; try lia;
  destruct (Z.compare_spec (month a) (month b)), (Z.compare_spec (month b) (month c)),
    (Z.compare_spec (month a) (month c)); try done; try lia;
  destruct (Z.compare_spec (day a) (day b)), (Z.compare_spec (day b) (day c)),
    (Z.compare_spec (day a) (day c)); try done; try lia.
Qed.

Lemma date_le_total (a b : date) : date_le a b = true ∨ date_le b a = true.
Proof.
  unfold date_le. rewrite (date_cmp_antisym a b). destruct (date_cmp a b); auto.
Qed.

Lemma date_min_le (a b : date) :
  date_le (date_min a b) a = true ∧ date_le (date_min a b) b = true
  ∧ (date_min a b = a ∨ date_min a b = b).
Proof.
  unfold date_min. destruct (date_le a b) eqn:E.
  - auto using date_le_refl.
  - destruct (date_le_total a b) as [H|H]; [congruence|]. auto using date_le_refl.
Qed.

Lemma date_max_le (a b : date) :
  date_le a (date_max a b) = true ∧ date_le b (date_max a b) = true
  ∧ (date_max a b = a ∨ date_max a b = b).
Proof.
  unfold date_max. destruct (date_le a b) eqn:E.
  - auto using date_le_refl.
  - destruct (date_le_total a b) as [H|H]; [congruence|]. auto using date_le_refl.
Qed.

Lemma foldl_date_min (l : frame) (a : date) :
  let lo := foldl (λ acc r, date_min acc r.2) a l in
  date_le lo a = true ∧ (∀ r, r ∈ l → date_le lo r.2 = true)
  ∧ (lo = a ∨ ∃ r, r ∈ l ∧ r.2 = lo).
Proof.
  revert a. induction l as [|x l IH]; intros a; cbn.
  - split; [apply date_le_refl|]. split; [|by left]. by intros r ?%not_elem_of_nil.
  - destruct (IH (date_min a x.2)) as (H1 & H2 & H3).
    destruct (date_min_le a x.2) as (Ha & Hx & Hm).
    split; [by eapply date_le_trans|]. split.
    + intros r [->|Hr]%elem_of_cons; [by eapply date_le_trans|by apply H2].
    + destruct H3 as [H3|(r & Hr & Hlo)].
      * rewrite H3. destruct Hm as [->|Hm]; [by left|].
        right. exists x. split; [left|done].
      * right. exists r. split; [by right|done].
Qed.

Lemma foldl_date_max (l : frame) (a : date) :
  let hi := foldl (λ acc r, date_max acc r.2) a l in
  date_le a hi = true ∧ (∀ r, r ∈ l → date_le r.2 hi = true)
  ∧ (hi = a ∨ ∃ r, r ∈ l ∧ r.2 = hi).
Proof.
  revert a. induction l as [|x l IH]; intros a; cbn.
  - split; [apply date_le_refl|]. split; [|by left]. by intros r ?%not_elem_of_nil.
  - destruct (IH (date_max a x.2)) as (H1 & H2 & H3).
    destruct (date_max_le a x.2) as (Ha & Hx & Hm).
    split; [by eapply date_le_trans|]. split.
    + intros r [->|Hr]%elem_of_cons; [by eapply date_le_trans|by apply H2].
    + destruct H3 as [H3|(r & Hr & Hhi)].
      * rewrite H3. destruct Hm as [->|Hm]; [by left|].
        right. exists x. split; [left|done].
      * right. exists r. split; [by right|done].
Qed.

(** The range the page opens with shows everything: the two date inputs
    start at the earliest and the latest date of the rows, both dates of
    some row, the earliest is not after the latest, and filtering by
    them keeps every row. *)
Theorem select_range_default (df : frame) (lo hi : date) :
  min_d df = Some lo → max_d df = Some hi →
  date_le lo hi = true
  ∧ (∀ r, r ∈ df → date_le lo r.2 = true ∧ date_le r.2 hi = true)
  ∧ (∃ r, r ∈ df ∧ r.2 = lo) ∧ (∃ r, r ∈ df ∧ r.2 = hi)
  ∧ select_range df lo hi = Some df.
Proof.
  destruct df as [|x l]; [discriminate|]. cbn [min_d max_d]. intros [= <-] [= <-].
  destruct (foldl_date_min l x.2) as (L1 & L2 & L3).
  destruct (foldl_date_max l x.2) as (H1 & H2 & H3).
  cbv zeta in *.
  set (lo := foldl (λ acc r, date_min acc r.2) x.2 l) in *.
  set (hi := foldl (λ acc r, date_max acc r.2) x.2 l) in *.
  assert (Hlh : date_le lo hi = true) by (by eapply date_le_trans).
  assert (Hall : ∀ r, r ∈ x :: l → date_le lo r.2 = true ∧ date_le r.2 hi = true).
  { intros r [->|Hr]%elem_of_cons; [done|]. split; [by apply L2|by apply H2]. }
  split; [done|]. split; [done|]. split; [|split].
  - destruct L3 as [->|(r & Hr & <-)]; [exists x; split; [left|done]|].
    exists r. split; [by right|done].
  - destruct H3 as [->|(r & Hr & <-)]; [exists x; split; [left|done]|].
    exists r. split; [by right|done].
  - rewrite select_range_Some by done. f_equal. apply filter_all, Forall_forall.
    intros r Hr. destruct (Hall r Hr) as [Ha Hb]. unfold mask. by rewrite Ha, Hb.
Qed.

Lemma select_range_default_witness :
  select_range [(sample_row "금" 60 30 0, Date 2024 3 1);
                (sample_row "목" 60 30 0, Date 2024 2 29);
                (sample_row "월" 60 30 0, Date 2024 4 1)]
               (Date 2024 2 29) (Date 2024 4 1)
  = Some [(sample_row "금" 60 30 0, Date 2024 3 1);
          (sample_row "목" 60 30 0, Date 2024 2 29);
          (sample_row "월" 60 30 0, Date 2024 4 1)].
Proof.
  apply (select_range_default
           [(sample_row "금" 60 30 0, Date 2024 3 1);
            (sample_row "목" 60 30 0, Date 2024 2 29);
            (sample_row "월" 60 30 0, Date 2024 4 1)]); reflexivity.
Defined.

Lemma filter_filter_impl {A} (P Q : A → Prop) `{!∀ x, Decision (P x)}
    `{!∀ x, Decision (Q x)} (l : list A) :
  (∀ x, P x → Q x) → filter P (filter Q l) = filter P l.
Proof.
  intros Himp. induction l as [|x l IH]; [done|].
  destruct (decide (P x)) as [HP|HP].
  - rewrite (filter_cons_True Q) by auto. by rewrite !filter_cons_True, IH by done.
  - rewrite (filter_cons_False P x l) by done.
    destruct (decide (Q x)).
    + rewrite (filter_cons_True Q) by done. by rewrite filter_cons_False.
    + by rewrite (filter_cons_False Q).
Qed.

(** Narrowing a selection is selecting the narrower range: filtering an
    already filtered frame by a range inside the first gives what the
    narrower range gives on the whole frame, and filtering twice by the
    same range changes nothing. *)
Theorem select_range_nested (df fdf : frame) (s1 e1 s2 e2 : date) :
  select_range df s1 e1 = Some fdf →
  date_le s1 s2 = true → date_le e2 e1 = true →
  select_range fdf s2 e2 = select_range df s2 e2
  ∧ select_range fdf s1 e1 = Some fdf.
Proof.
  intros Hsel Hs He. unfold select_range in *.
  destruct (date_lt e1 s1) eqn:E1; [discriminate|]. injection Hsel as <-.
  split.
  - destruct (date_lt e2 s2); [done|]. f_equal.
    apply filter_filter_impl. intros r H2. unfold mask in *.
    apply andb_prop in H2 as [Ha Hb]. apply andb_true_intro.
    split; by eapply date_le_trans.
  - f_equal. apply filter_all, Forall_forall. by intros r [? _]%list_elem_of_filter.
Qed.

Lemma select_range_nested_witness :
  select_range [(sample_row "금" 60 30 0, Date 2024 3 1)] (Date 2024 3 1) (Date 2024 3 1)
  = select_range [(sample_row "목" 60 30 0, Date 2024 2 29);
                  (sample_row "금" 60 30 0, Date 2024 3 1)]
                 (Date 2024 3 1) (Date 2024 3 1).
Proof.
  apply (select_range_nested
           [(sample_row "목" 60 30 0, Date 2024 2 29);
            (sample_row "금" 60 30 0, Date 2024 3 1)]
           [(sample_row "금" 60 30 0, Date 2024 3 1)]
           (Date 2024 3 1) (Date 2024 3 31) (Date 2024 3 1) (Date 2024 3 1));
    reflexivity.
Defined.

(** ** The save button *)

Lemma save_loop_spec (d : date) (inputs : list SessionInput) (i : Z) (acc : Saved) :
  let ds := strftime_ymd d in
  let made x := dur ← dur_val x;
                Some (new_session ds (in_subject x) (in_start x) (in_end x) dur
                        (in_pause x) (in_focused x) (in_hash x) (in_now x)) in
  ∃ res,
    save_loop d i inputs acc = inl res
    ∧ sv_saved res = sv_saved acc + Z.of_nat (length (omap made inputs))
    ∧ sv_errors res
      = sv_errors acc
        ++ (filter (λ jx, dur_val jx.2 = None) (zip (seqZ i (Z.of_nat (length inputs))) inputs)).*1
    ∧ default [] (sessions <$> days (sv_store res) !! ds)
      = default [] (sessions <$> days (sv_store acc) !! ds) ++ omap made inputs
    ∧ (∀ k, k ≠ ds → days (sv_store res) !! k = days (sv_store acc) !! k)
    ∧ (reachable (sv_store acc) → reachable (sv_store res)).
Proof.
  intros ds made. revert i acc. induction inputs as [|x rest IH]; intros i acc.
  - exists acc. cbn. rewrite !app_nil_r. repeat split; try done. lia.
  - cbn [save_loop length]. rewrite Nat2Z.inj_succ, seqZ_cons by lia.
    replace (Z.pred (Z.succ (Z.of_nat (length rest)))) with (Z.of_nat (length rest)) by lia.
    replace (Z.succ i) with (i + 1) by lia.
    cbn [zip zip_with omap list_omap]. rewrite filter_cons. cbn [snd].
    destruct (dur_val x) as [dur|] eqn:Hx.
    + assert (Hmade : made x = Some (new_session ds (in_subject x) (in_start x) (in_end x)
                                       dur (in_pause x) (in_focused x) (in_hash x) (in_now x)))
        by (unfold made; by rewrite Hx).
      rewrite Hmade, decide_False by done.
      unfold dur_val in Hx.
      pose proof (add_session_Returned d (in_subject x) (in_start x) (in_end x) (in_pause x)
                    (in_focused x) (in_hash x) (in_now x) (sv_store acc) dur Hx) as Hadd.
      cbv zeta in Hadd. rewrite Hadd. fold ds in Hadd |- *.
      match type of Hadd with _ = Returned ?s => set (store1 := s) in * end.
      destruct (IH (i + 1) {| sv_store := store1; sv_saved := sv_saved acc + 1;
                              sv_errors := sv_errors acc |})
        as (res & Hres & Hsaved & Herr & Hb & Hframe & Hreach).
      exists res. cbn [sv_store sv_saved sv_errors] in *.
      split; [exact Hres|]. split; [cbn [length]; lia|]. split; [exact Herr|].
      split; [|split].
      * rewrite Hb. unfold store1. cbn [days]. rewrite lookup_insert_eq.
        cbn [fmap option_fmap option_map default from_option sessions set_sessions].
        unfold id. rewrite <- app_assoc. f_equal.
        by destruct (days (sv_store acc) !! ds).
      * intros k Hk. rewrite Hframe by done. unfold store1. cbn [days].
        by rewrite lookup_insert_ne.
      * intros Hr. apply Hreach. eapply reach_add; [exact Hr|exact Hadd].
    + assert (Hmade : made x = None) by (unfold made; by rewrite Hx).
      rewrite Hmade, decide_True by done.
      destruct (IH (i + 1) {| sv_store := sv_store acc; sv_saved := sv_saved acc;
                              sv_errors := sv_errors acc ++ [i] |})
        as (res & Hres & Hsaved & Herr & Hb & Hframe & Hreach).
      exists res. cbn [sv_store sv_saved sv_errors] in *.
      split; [exact Hres|]. split; [exact Hsaved|]. split; [|done].
      rewrite Herr, <- app_assoc. done.
Qed.

Lemma save_counts (made : SessionInput → option Session) (l : list SessionInput) (i : Z) :
  (∀ x, is_Some (made x) ↔ is_Some (dur_val x)) →
  Z.of_nat (length (omap made l))
  = Z.of_nat (length (filter (λ x, is_Some (dur_val x)) l))
  ∧ Z.of_nat (length (omap made l))
    + Z.of_nat (length (filter (λ jx : Z * SessionInput, dur_val jx.2 = None)
                          (zip (seqZ i (Z.of_nat (length l))) l)).*1)
    = Z.of_nat (length l).
Proof.
  intros Hmade. revert i. induction l as [|x l IHl]; intros i; [done|].
  cbn [length]. rewrite Nat2Z.inj_succ, seqZ_cons by lia.
  replace (Z.pred (Z.succ (Z.of_nat (length l)))) with (Z.of_nat (length l)) by lia.
  cbn [zip zip_with omap list_omap]. rewrite !filter_cons. cbn [snd].
  destruct (IHl (Z.succ i)) as [IH1 IH2].
  destruct (dur_val x) as [dur|] eqn:Hx.
  - destruct (proj2 (Hmade x)) as [y Hy]; [rewrite Hx; eauto|]. rewrite Hy.
    rewrite decide_True by eauto. rewrite decide_False by done.
    cbn [length]. lia.
  - destruct (made x) as [y|] eqn:Hy.
    { destruct (proj1 (Hmade x)) as [? ?]; [eauto|]. congruence. }
    rewrite decide_False by (intros [? ?]; done). rewrite decide_True by done.
    cbn [length fmap list_fmap]. lia.
Qed.

(** The save button never fails on a form: each entry whose times do
    not parse is reported by its number and skipped, every other entry
    is added, in order, to the bucket of the chosen date; the counts of
    saved and reported entries add up to the number of entries, no other
    date is touched, and a reachable store stays reachable. *)
Theorem save_sessions_spec (d : date) (inputs : list SessionInput) (store : Store) :
  let ds := strftime_ymd d in
  let made x := dur ← dur_val x;
                Some (new_session ds (in_subject x) (in_start x) (in_end x) dur
                        (in_pause x) (in_focused x) (in_hash x) (in_now x)) in
  ∃ res,
    save_sessions d inputs store = inl res
    ∧ sv_saved res = Z.of_nat (length (filter (λ x, is_Some (dur_val x)) inputs))
    ∧ sv_errors res
      = (filter (λ jx, dur_val jx.2 = None)
           (zip (seqZ 1 (Z.of_nat (length inputs))) inputs)).*1
    ∧ sv_saved res + Z.of_nat (length (sv_errors res)) = Z.of_nat (length inputs)
    ∧ default [] (sessions <$> days (sv_store res) !! ds)
      = default [] (sessions <$> days store !! ds) ++ omap made inputs
    ∧ (∀ k, k ≠ ds → days (sv_store res) !! k = days store !! k)
    ∧ (reachable store → reachable (sv_store res)).
Proof.
  intros ds made.
  destruct (save_loop_spec d inputs 1 {| sv_store := store; sv_saved := 0; sv_errors := [] |})
    as (res & Hres & Hsaved & Herr & Hb & Hframe & Hreach).
  cbn [sv_store sv_saved sv_errors app] in *.
  exists res. split; [exact Hres|].
  destruct (save_counts made inputs 1) as [H1 H2].
  { intros x. unfold made. destruct (dur_val x); split; intros [? ?]; eauto; done. }
  change (sv_saved res = 0 + Z.of_nat (length (omap made inputs))) in Hsaved.
  split; [lia|]. split; [exact Herr|]. split; [rewrite Herr; lia|]. done.
Qed.

Lemma save_sessions_spec_witness :
  ∃ res,
    save_sessions (Date 2024 3 4)
      [ {| in_subject := "수학"; in_start := "10:00"; in_end := "11:00"; in_pause := 1;
           in_focused := 50; in_hash := 7; in_now := "2024-03-04 11:00" |};
        {| in_subject := "영어"; in_start := "11.00"; in_end := "12:00"; in_pause := 0;
           in_focused := 20; in_hash := 8; in_now := "2024-03-04 12:00" |} ]
      init_store = inl res
    ∧ sv_saved res = 1 ∧ sv_errors res = [2].
Proof.
  destruct (save_sessions_spec (Date 2024 3 4)
      [ {| in_subject := "수학"; in_start := "10:00"; in_end := "11:00"; in_pause := 1;
           in_focused := 50; in_hash := 7; in_now := "2024-03-04 11:00" |};
        {| in_subject := "영어"; in_start := "11.00"; in_end := "12:00"; in_pause := 0;
           in_focused := 20; in_hash := 8; in_now := "2024-03-04 12:00" |} ]
      init_store) as (res & Hres & Hsaved & Herr & _).
  exists res. split; [exact Hres|]. split; [exact Hsaved|exact Herr].
Defined.

(** ** Snapshots *)

(** The download determines the store: two stores whose exported texts
    are the same are equal, so nothing the store holds is left out of
    the file; the text for the empty store is the object with an empty
    [days], on three lines. *)
Theorem export_store_inj (s1 s2 : Store) :
  (export_store dumps s1 = export_store dumps s2 → s1 = s2)
  ∧ export_store dumps init_store
    = string_of_list_ascii
        ([ "{"%char; newline; " "%char; " "%char; quote ]
         ++ list_ascii_of_string "days" ++ [ quote; ":"%char; " "%char; "{"%char; "}"%char;
                                             newline; "}"%char ]).
Proof.
  split; [|reflexivity]. intros Heq.
  pose proof (loads_export s1) as H1. pose proof (loads_export s2) as H2.
  rewrite Heq, H2 in H1.
  assert (Hdays : days_doc (days s1) = days_doc (days s2)).
  { unfold store_doc, days_doc in *. injection H1 as H1. by rewrite H1. }
  apply store_eq.
  assert (H : days_of_doc (days_doc (days s1)) = days_of_doc (days_doc (days s2)))
    by (by rewrite Hdays).
  rewrite !days_of_doc_days_doc in H. by injection H.
Qed.


